(** * Open Library data dumps: [scripts/oldump.py]

    The file under study is a Python module that carries, as a raw string
    literal, the shell pipeline it is being ported from.  The development
    has three parts:

    - [Reducer]: the latest-version reducer invoked by the pipeline as
      [oldump.py dump] (its body lives in [openlibrary/data/dump.py]);
    - [Sh]: the embedded shell pipeline (lines 55-228), as a state
      transformer over the dump directory, the archive and a trace of
      the commands it runs;
    - [Py]: the Python entry point (lines 231-312). *)

From Stdlib Require Import List String Ascii ZArith Bool Lia Sorted OrdersEx
  RelationClasses.
Import ListNotations.
Open Scope string_scope.
Set Warnings "-register-all".

(* ================================================================== *)
(** * Latest-version reducer *)
(* ================================================================== *)

Module Reducer.

(** One line of the change-history dump. *)
Record HistoryEntry := mkEntry {
  key : string;
  revision : Z;
  deleted : bool;
  type_ : string;
  payload : string
}.

(** The sorter's order: key ascending, then revision ascending. *)
Definition entry_leb (a b : HistoryEntry) : bool :=
  match String_as_OT.compare (key a) (key b) with
  | Lt => true
  | Eq => (revision a <=? revision b)%Z
  | Gt => false
  end.

(** Every adjacent pair of the stream is in order. *)
Fixpoint is_sorted (l : list HistoryEntry) : bool :=
  match l with
  | a :: (b :: _) as t => entry_leb a b && is_sorted t
  | _ => true
  end.

(** Modelled from the spec: the body of the reducer is
    [openlibrary/data/dump.py], which is not part of the sources at hand;
    the pipeline only calls it ([oldump.py dump], line 164).  The winner
    of a group is the entry of maximum revision, ties broken by the
    latest input position. *)
Definition better (best : option HistoryEntry) (e : HistoryEntry)
  : option HistoryEntry :=
  match best with
  | None => Some e
  | Some b => if (revision b <=? revision e)%Z then Some e else Some b
  end.

Definition winner (group : list HistoryEntry) : option HistoryEntry :=
  fold_left better group None.

(** Modelled from the spec: what a closed group emits, which is its
    winner unless the winner is marked deleted. *)
Definition emit (group : list HistoryEntry) : list HistoryEntry :=
  match winner group with
  | Some w => if deleted w then [] else [w]
  | None => []
  end.

(** Modelled from the spec: the sequential scan of section 4.4, which
    accumulates the entries of the current key in [cur], emits on a key
    change and flushes the last group at the end of the stream. *)
Fixpoint reduce_loop (cur rest : list HistoryEntry) : list HistoryEntry :=
  match rest with
  | [] => emit cur
  | e :: rest' =>
      match cur with
      | [] => reduce_loop [e] rest'
      | c :: _ =>
          if key c =? key e
          then reduce_loop (cur ++ [e]) rest'
          else emit cur ++ reduce_loop [e] rest'
      end
  end.

Definition reduce (stream : list HistoryEntry) : list HistoryEntry :=
  reduce_loop [] stream.

(** The group of a key: all its entries, in stream order. *)
Definition has_key (k : string) (e : HistoryEntry) : bool := key e =? k.

Definition group_of (k : string) (stream : list HistoryEntry) :=
  filter (has_key k) stream.

(** The maximum-revision entry of a key, in the words of the data model
    (section 3): an entry [m] of the stream with that key whose revision
    no entry of the key exceeds.  Where several entries of the key share
    the greatest revision it is the one latest in the stream
    (section 4.4), so [m] is told apart by its place: the stream is
    [before ++ m :: after]. *)
Definition is_max_rev_entry (k : string) (stream : list HistoryEntry)
  (m : HistoryEntry) : Prop :=
  exists before after,
    stream = (before ++ m :: after)%list /\
    key m = k /\
    (forall e, In e before -> key e = k -> (revision e <= revision m)%Z) /\
    (forall e, In e after -> key e = k -> (revision e < revision m)%Z).

End Reducer.

(* ================================================================== *)
(** * The embedded shell pipeline (lines 55-228) *)
(* ================================================================== *)

Module Sh.

(** ** File names and glob patterns *)

(** A glob pattern as bash reads it: literal characters and [*]. *)
Inductive PatTok := Lit (c : ascii) | Star.
Definition Pattern := list PatTok.

Fixpoint lits (s : string) : Pattern :=
  match s with
  | EmptyString => []
  | String c s' => Lit c :: lits s'
  end.

(** Pathname matching: [*] stands for any run of characters. *)
Fixpoint glob (p : Pattern) : string -> bool :=
  match p with
  | [] => fun s => match s with EmptyString => true | _ => false end
  | Lit c :: p' =>
      fun s => match s with
               | String c' s' => Ascii.eqb c c' && glob p' s'
               | EmptyString => false
               end
  | Star :: p' =>
      fix star (s : string) : bool :=
        glob p' s ||
        match s with
        | String _ s' => star s'
        | EmptyString => false
        end
  end.

(** [*'--overwrite'*] inside [[ ]] is a substring test. *)
Fixpoint is_prefix (p s : string) : bool :=
  match p with
  | EmptyString => true
  | String c p' =>
      match s with
      | String c' s' => Ascii.eqb c c' && is_prefix p' s'
      | EmptyString => false
      end
  end.

Fixpoint contains (needle hay : string) : bool :=
  is_prefix needle hay ||
  match hay with
  | String _ hay' => contains needle hay'
  | EmptyString => false
  end.

Definition newline : string := String (ascii_of_nat 10) EmptyString.

(** ** The file system under [$TMPDIR] *)

(** File contents, as the text the compressed file holds. *)
Definition Data := string.

Inductive Node :=
| File (content : Data)
| Dir (entries : list (string * Node)).

(** A directory listing; the first binding of a name is the entry. *)
Definition Listing := list (string * Node).

Fixpoint lookup (name : string) (l : Listing) : option Node :=
  match l with
  | [] => None
  | (n, x) :: t => if n =? name then Some x else lookup name t
  end.

Fixpoint put (name : string) (x : Node) (l : Listing) : Listing :=
  match l with
  | [] => [(name, x)]
  | (n, y) :: t => if n =? name then (name, x) :: t else (n, y) :: put name x t
  end.

Definition remove (name : string) (l : Listing) : Listing :=
  filter (fun e => negb (fst e =? name)) l.

(** [$TMPDIR] is taken to be an existing directory; [dumps] lists
    [$TMPDIR/dumps] (an absent directory lists as empty, and line 110
    creates it), [tmp_data] is the regular file [$TMPDIR/data.txt.gz],
    and the two flags say whether the directories [$TMPDIR/sitemaps] and
    [$TMPDIR/oldumpsort] exist. *)
Record FS := mkFS {
  tmp_data : option Data;
  dumps : Listing;
  sitemaps : bool;
  oldumpsort : bool
}.

(** [compgen -G pattern] in [$TMPDIR/dumps]: the matching names. *)
Definition compgen_G (p : Pattern) (l : Listing) : list string :=
  filter (glob p) (map fst l).

(** [$(compgen -G pattern)] inside [[ ]]: one word, the matches joined
    by newlines (no word splitting happens there). *)
Definition word_of (names : list string) : string :=
  String.concat newline names.

Definition test_f (l : Listing) (w : string) : bool :=
  if w =? "" then false
  else match lookup w l with Some (File _) => true | _ => false end.

Definition test_d (l : Listing) (w : string) : bool :=
  if w =? "" then false
  else match lookup w l with Some (Dir _) => true | _ => false end.

(** [cmd > name]: the redirection fails on a directory.  [name] is one
    path component, as the names the script builds from a run date
    written yyyy-mm-dd are. *)
Definition redirect (name : string) (d : Data) (l : Listing) : Listing :=
  match lookup name l with
  | Some (Dir _) => l
  | _ => put name (File d) l
  end.

(** [mkdir -p name]: fails, changing nothing, on a regular file. *)
Definition mkdir_p (name : string) (l : Listing) : Listing :=
  match lookup name l with
  | None => put name (Dir []) l
  | Some _ => l
  end.

(** [mv] of one entry into a directory whose listing is [es]. *)
Definition move_into (s : string) (n : Node) (es : Listing)
  : option Listing :=
  match lookup s es with
  | None => Some (put s n es)
  | Some (File _) =>
      match n with File _ => Some (put s n es) | Dir _ => None end
  | Some (Dir sub) =>
      match n, sub with Dir _, [] => Some (put s n es) | _, _ => None end
  end.

Fixpoint mv_into_dir (srcs : list string) (t : string) (l : Listing)
  : Listing :=
  match srcs with
  | [] => l
  | s :: rest =>
      let l' :=
        match lookup s l, lookup t l with
        | Some n, Some (Dir es) =>
            if s =? t then l
            else match move_into s n es with
                 | Some es' => put t (Dir es') (remove s l)
                 | None => l
                 end
        | _, _ => l
        end in
      mv_into_dir rest t l'
  end.

Definition rename (s t : string) (l : Listing) : Listing :=
  match lookup s l with
  | None => l
  | Some n =>
      if s =? t then l
      else match lookup t l, n with
           | None, _ => put t n (remove s l)
           | Some (File _), File _ => put t n (remove s l)
           | _, _ => l
           end
  end.

(** [mv srcs... t] *)
Definition mv (srcs : list string) (t : string) (l : Listing) : Listing :=
  match lookup t l with
  | Some (Dir _) => mv_into_dir srcs t l
  | _ => match srcs with [s] => rename s t l | _ => l end
  end.

(** [gzip -cd files...]: the contents of the regular files, in order. *)
Definition gzip_cd (names : list string) (l : Listing) : Data :=
  String.concat ""
    (flat_map (fun n => match lookup n l with
                        | Some (File d) => [d]
                        | _ => []
                        end) names).

Definition read_file (name : string) (l : Listing) : option Data :=
  match lookup name l with Some (File d) => Some d | _ => None end.

(** ** The archive and the commands *)

(** archive.org: item name and the names of its files. *)
Definition Remote := list (string * list string).

(** [ia --config-file=... upload item path --metadata ... --retries n] *)
Record Upload := mkUpload {
  config_file : string;
  item : string;
  path : string;
  metadata : list (string * string);
  retries : nat
}.

Inductive Cmd :=
| PsqlReadingLog (upto : string)
| PsqlRatings (upto : string)
| PsqlCopyData
| OldumpCdump (upto : string)
| OldumpSort
| OldumpDump
| OldumpSplit (format : string)
| SitemapPy (dump_file : string)
| IaVersion
| IaList (item_name : string)
| IaUpload (u : Upload)
| Rm (target : string).

Inductive Event :=
| Run (c : Cmd)
| Log (line : string)      (* the [log] function, on stderr *)
| Echo (line : string).

(** The stages of section 4.1. *)
Inductive Stage :=
| ReadingLog | Ratings | RawExtract | CDump | Sort | Dump | Split
| Archive | Sitemap.

Definition stage_of (c : Cmd) : option Stage :=
  match c with
  | PsqlReadingLog _ => Some ReadingLog
  | PsqlRatings _ => Some Ratings
  | PsqlCopyData => Some RawExtract
  | OldumpCdump _ => Some CDump
  | OldumpSort => Some Sort
  | OldumpDump => Some Dump
  | OldumpSplit _ => Some Split
  | SitemapPy _ => Some Sitemap
  | IaUpload _ => Some Archive
  | IaVersion | IaList _ | Rm _ => None
  end.

(** What lies outside the script: the clock, the environment and the
    programs the script calls. *)
Record World := mkWorld {
  today_yymm : string;                       (* date +%Y-%m *)
  OLDUMP_TESTING : string;
  psql_reading_log : string -> Data;
  psql_ratings : string -> Data;
  psql_copy_data : Data;
  oldump_cdump : option Data -> string -> Data;
  oldump_sort_dump : Data -> Data;
  oldump_split : option Data -> list (string * Data);
  ia_version : string;
  ia_list : Remote -> string -> list string;
  ia_upload : Upload -> option Node -> Remote -> Z * Remote
}.

(** ** State and the script's monad *)

Record St := mkSt {
  fs : FS;
  remote : Remote;
  trace : list Event
}.

Definition M (A : Type) := St -> A * St.

Definition ret {A} (a : A) : M A := fun s => (a, s).

Definition bind {A B} (m : M A) (k : A -> M B) : M B :=
  fun s => let (a, s') := m s in k a s'.

Notation "x <- m ;; k" := (bind m (fun x => k))
  (at level 61, m at next level, right associativity).
Notation "m ;;; k" := (bind m (fun _ => k))
  (at level 61, right associativity).

Definition emit (e : Event) : M unit :=
  fun s => (tt, mkSt (fs s) (remote s) (trace s ++ [e])).

Definition get_dumps : M Listing := fun s => (dumps (fs s), s).

Definition set_dumps (l : Listing) : M unit :=
  fun s => (tt, mkSt (mkFS (tmp_data (fs s)) l (sitemaps (fs s))
                        (oldumpsort (fs s)))
                  (remote s) (trace s)).

Definition set_tmp_data (d : option Data) : M unit :=
  fun s => (tt, mkSt (mkFS d (dumps (fs s)) (sitemaps (fs s))
                        (oldumpsort (fs s)))
                  (remote s) (trace s)).

Definition get_sitemaps : M bool := fun s => (sitemaps (fs s), s).

Definition set_sitemaps (b : bool) : M unit :=
  fun s => (tt, mkSt (mkFS (tmp_data (fs s)) (dumps (fs s)) b
                        (oldumpsort (fs s)))
                  (remote s) (trace s)).

Definition set_oldumpsort (b : bool) : M unit :=
  fun s => (tt, mkSt (mkFS (tmp_data (fs s)) (dumps (fs s))
                        (sitemaps (fs s)) b)
                  (remote s) (trace s)).

Definition get_remote : M Remote := fun s => (remote s, s).

Definition set_remote (r : Remote) : M unit :=
  fun s => (tt, mkSt (fs s) r (trace s)).

Definition when (b : bool) (m : M unit) : M unit :=
  if b then m else ret tt.

(** [cmd | gzip -c > name] in [$TMPDIR/dumps] *)
Definition run_to_file (c : Cmd) (out : Data) (name : string) : M unit :=
  emit (Run c) ;;;
  l <- get_dumps ;;
  set_dumps (redirect name out l).

(** ** The script *)

Section Script.

Variable w : World.

(** [$1 $2 $3]; the run date is one word without shell metacharacters,
    as every documented call passes it ([$(date +%Y-%m-%d)]). *)
Variable args : list string.

Definition arg (n : nat) : string := nth n args "".

Definition yymm : string := today_yymm w.           (* line 60 *)
Definition yymmdd : string := arg 0.                (* line 61 *)
Definition archive : string := arg 1.               (* line 62 *)
Definition overwrite : string := arg 2.             (* line 63 *)

Definition cdump : string := "ol_cdump_" ++ yymmdd. (* line 65 *)
Definition dump : string := "ol_dump_" ++ yymmdd.   (* line 66 *)

Definition testing : bool := negb (OLDUMP_TESTING w =? "").

(** Lines 73-77. *)
Definition cleanup : M unit :=
  emit (Run (Rm "$TMPDIR/data.txt.gz")) ;;;
  set_tmp_data None ;;;
  emit (Run (Rm "$TMPDIR/dumps/ol_*")) ;;;
  l <- get_dumps ;;
  set_dumps (filter (fun e => negb (glob (lits "ol_" ++ [Star])%list (fst e))) l).

(** Lines 79-81. *)
Definition log (msg : string) : M unit := emit (Log ("* " ++ msg)).

Definition ia_metadata : list (string * string) :=
  [("collection", "ol_exports");
   ("year", substring 0 4 yymm);
   ("format", "Data")].

Definition ia_upload_cmd (name : string) : Upload :=
  mkUpload "/olsystem/etc/ia.ini" name (name ++ "/") ia_metadata 300.

(** One [ia ... upload] line; its exit status is not looked at. *)
Definition upload (name : string) : M Z :=
  emit (Run (IaUpload (ia_upload_cmd name))) ;;;
  l <- get_dumps ;;
  r <- get_remote ;;
  let (status, r') := ia_upload w (ia_upload_cmd name) (lookup name l) r in
  set_remote r' ;;;
  ret status.

(** Lines 83-97; the value is the function's exit status. *)
Definition archive_dumps : M Z :=
  emit (Run IaVersion) ;;;
  log ("ia version is v" ++ ia_version w) ;;;
  emit (Run (IaList dump)) ;;;
  r <- get_remote ;;
  let is_uploaded := List.length (ia_list w r dump) in
  if Nat.eqb is_uploaded 0 then
    upload dump ;;;
    upload cdump
  else
    log "Skipping: Archival Zip already exists" ;;;
    ret 0%Z.

(** Lines 103-107. *)
Definition overwrite_requested : bool :=
  contains "--overwrite" (String.concat " " args).

Definition overwrite_check : M unit :=
  when overwrite_requested
    (log "Cleaning Up: Found --cleanup, removing old files" ;;;
     cleanup).

(** The patterns of the skip-or-run tests. *)
Definition pat_done : Pattern :=
  (lits "ol_cdump_" ++ lits yymm ++ [Star])%list.
Definition pat_reading_log : Pattern :=
  (lits "ol_dump_reading-log_" ++ lits yymm ++ [Star] ++ lits ".txt.gz")%list.
Definition pat_ratings : Pattern :=
  (lits "ol_dump_ratings_" ++ lits yymm ++ [Star] ++ lits ".txt.gz")%list.
Definition pat_cdump : Pattern :=
  (lits "ol_cdump_" ++ lits yymm ++ [Star] ++ lits ".txt.gz")%list.
Definition pat_any_dump : Pattern :=
  (lits "ol_dump_" ++ [Star] ++ lits ".txt.gz")%list.
Definition pat_dump_month : Pattern :=
  (lits "ol_dump_" ++ lits yymm ++ [Star] ++ lits ".txt.gz")%list.
Definition pat_split : Pattern :=
  (lits "ol_dump_" ++ [Star] ++ lits "_" ++ lits yymm ++ [Star]
  ++ lits ".txt.gz")%list.

Definition matches (p : Pattern) : M string :=
  l <- get_dumps ;; ret (word_of (compgen_G p l)).

Definition is_file (word : string) : M bool :=
  l <- get_dumps ;; ret (test_f l word).

Definition is_dir (word : string) : M bool :=
  l <- get_dumps ;; ret (test_d l word).

(** Lines 118-124. *)
Definition reading_log_stage : M unit :=
  word <- matches pat_reading_log ;;
  found <- is_file word ;;
  if negb found then
    log ("generating reading log table: ol_dump_reading-log_" ++ yymmdd
         ++ ".txt.gz") ;;;
    run_to_file (PsqlReadingLog yymmdd) (psql_reading_log w yymmdd)
      ("ol_dump_reading-log_" ++ yymmdd ++ ".txt.gz")
  else
    log ("Skipping: " ++ word).

(** Lines 127-133. *)
Definition ratings_stage : M unit :=
  word <- matches pat_ratings ;;
  found <- is_file word ;;
  if negb found then
    log ("generating ratings table: ol_dump_ratings_" ++ yymmdd
         ++ ".txt.gz") ;;;
    run_to_file (PsqlRatings yymmdd) (psql_ratings w yymmdd)
      ("ol_dump_ratings_" ++ yymmdd ++ ".txt.gz")
  else
    log ("Skipping: " ++ word).

(** Lines 136-146. *)
Definition raw_extract_stage : M unit :=
  found <- is_file "data.txt.gz" ;;
  if negb found then
    log "generating the data table: data.txt.gz -- takes approx. 110 minutes..." ;;;
    when (negb testing)
      (run_to_file PsqlCopyData (psql_copy_data w) "data.txt.gz")
  else
    log "Skipping: data.txt.gz".

(** Lines 149-158. *)
Definition cdump_stage : M unit :=
  word <- matches pat_cdump ;;
  found <- is_file word ;;
  if negb found then
    log ("generating " ++ cdump ++ ".txt.gz -- takes approx. 500 minutes for 192,000,000+ records...") ;;;
    l <- get_dumps ;;
    run_to_file (OldumpCdump yymmdd)
      (oldump_cdump w (read_file "data.txt.gz" l) yymmdd)
      (cdump ++ ".txt.gz") ;;;
    word' <- matches pat_cdump ;;
    log ("generated " ++ word')
  else
    log ("Skipping: " ++ word).

(** Lines 161-168; outside [[ ]] the matches are split into words, and
    [gzip -cd] without a file reads an empty standard input. *)
Definition dump_stage : M unit :=
  word <- matches pat_any_dump ;;
  found <- is_file word ;;
  if negb found then
    emit (Echo "generating the dump -- takes approx. 485 minutes for 173,000,000+ records...") ;;;
    l <- get_dumps ;;
    emit (Run OldumpSort) ;;;
    run_to_file OldumpDump
      (oldump_sort_dump w (gzip_cd (compgen_G pat_cdump l) l))
      (dump ++ ".txt.gz") ;;;
    word' <- matches pat_dump_month ;;
    emit (Echo ("generating " ++ word'))
  else
    word' <- matches pat_dump_month ;;
    emit (Echo ("Skipping: " ++ word')).

Fixpoint write_files (files : list (string * Data)) (l : Listing)
  : Listing :=
  match files with
  | [] => l
  | (n, d) :: rest => write_files rest (redirect n d l)
  end.

(** The files [oldump.py split --format ol_dump_%s_<date>.txt.gz]
    writes, one per type. *)
Definition split_files : list (string * Data) -> list (string * Data) :=
  map (fun td => ("ol_dump_" ++ fst td ++ "_" ++ yymmdd ++ ".txt.gz",
                  snd td)).

(** Lines 171-179. *)
Definition split_stage : M unit :=
  word <- matches pat_split ;;
  found <- is_file word ;;
  if negb found then
    set_oldumpsort true ;;;
    emit (Echo ("splitting the dump: ol_dump_%s_" ++ yymmdd ++ ".txt.gz -- takes approx. 85 minutes for 68,000,000+ records...")) ;;;
    l <- get_dumps ;;
    emit (Run (OldumpSplit ("ol_dump_%s_" ++ yymmdd ++ ".txt.gz"))) ;;;
    set_dumps
      (write_files
         (split_files (oldump_split w (read_file (dump ++ ".txt.gz") l)))
         l) ;;;
    emit (Run (Rm "$TMPDIR/oldumpsort")) ;;;
    set_oldumpsort false
  else
    emit (Echo ("Skipping " ++ word)).

(** Lines 181-183. *)
Definition collect : M unit :=
  l <- get_dumps ;;
  let l1 := mkdir_p cdump (mkdir_p dump l) in
  let l2 := mv (compgen_G pat_any_dump l1) dump l1 in
  set_dumps (mv [cdump ++ ".txt.gz"] cdump l2).

(** Lines 113-188. *)
Definition generate : M unit :=
  word <- matches pat_done ;;
  done <- is_dir word ;;
  if negb done then
    reading_log_stage ;;;
    ratings_stage ;;;
    raw_extract_stage ;;;
    cdump_stage ;;;
    dump_stage ;;;
    split_stage ;;;
    collect ;;;
    log "dumps are generated at $PWD"
  else
    log "Skipping generation: dumps already exist at $PWD".

(** Lines 195-199. *)
Definition archival : M unit :=
  if archive =? "--archive" then
    if negb testing then (archive_dumps ;;; ret tt) else ret tt
  else ret tt.

(** Lines 204-214. *)
Definition sitemap_stage : M unit :=
  present <- get_sitemaps ;;
  if negb present then
    log "generating sitemaps" ;;;
    set_sitemaps true ;;;
    emit (Run (SitemapPy ("$TMPDIR/dumps/" ++ dump ++ "/" ++ dump
                          ++ ".txt.gz"))) ;;;
    emit (Run (Rm "$TMPDIR/sitemaps")) ;;;
    set_sitemaps false
  else
    log "Skipping sitemap".

(** Lines 222-228: the guarded block holds one [echo] and comments. *)
Definition final_cleanup : M Z :=
  if negb testing then
    emit (Echo "deleting the data table dump") ;;;
    ret 0%Z
  else ret 0%Z.

(** Lines 100-228, once a run date is given.  The banner lines (100,
    101, 216-217) and the [ls] listings print only. *)
Definition pipeline : M Z :=
  overwrite_check ;;;
  generate ;;;
  archival ;;;
  sitemap_stage ;;;
  final_cleanup.

(** The whole script; the value is its exit status. *)
Definition oldump_sh : M Z :=
  if Nat.ltb (List.length args) 1 then            (* lines 68-71 *)
    emit (Echo "USAGE: $0 yyyy-mm-dd [--archive] [--overwrite]") ;;;
    ret 1%Z
  else pipeline.

End Script.

(** ** Reading a run *)

Definition commands (tr : list Event) : list Cmd :=
  flat_map (fun e => match e with Run c => [c] | _ => [] end) tr.

Definition stages_run (tr : list Event) : list Stage :=
  flat_map (fun c => match stage_of c with Some st => [st] | None => [] end)
    (commands tr).

Definition uploads (tr : list Event) : list Upload :=
  flat_map (fun c => match c with IaUpload u => [u] | _ => [] end)
    (commands tr).

(** The calls of the [ia] client. *)
Definition is_ia (c : Cmd) : bool :=
  match c with
  | IaVersion | IaList _ | IaUpload _ => true
  | _ => false
  end.

Definition ia_commands (tr : list Event) : list Cmd :=
  filter is_ia (commands tr).


(** The stages that produce the dump files. *)
Definition generation_stage (st : Stage) : bool :=
  match st with
  | ReadingLog | Ratings | RawExtract | CDump | Sort | Dump | Split => true
  | Archive | Sitemap => false
  end.

(** A run from a file system and an archive, with an empty trace. *)
Definition start (f : FS) (r : Remote) : St := mkSt f r [].

Definition run (w : World) (args : list string) (f : FS) (r : Remote)
  : Z * St :=
  oldump_sh w args (start f r).

(** The second of two runs with the same arguments. *)
Definition rerun (w : World) (args : list string) (f : FS) (r : Remote)
  : Z * St :=
  let s1 := snd (run w args f r) in
  run w args (fs s1) (remote s1).

(** ** Sample hosts *)

Definition sample_ia_list (r : Remote) (name : string) : list string :=
  match List.find (fun x => fst x =? name) r with
  | Some (_, files) => files
  | None => []
  end.

(** An [ia upload] that succeeds and stores the names of the files of
    the directory. *)
Definition sample_ia_upload (u : Upload) (dir : option Node) (r : Remote)
  : Z * Remote :=
  match dir with
  | Some (Dir es) => (0%Z, (item u, map fst es) :: r)
  | _ => (1%Z, r)
  end.

(** A host in May 2024; [testing] is the value of [OLDUMP_TESTING]. *)
Definition sample_world (testing : string) : World :=
  mkWorld "2024-05" testing
    (fun upto => "reading log up to " ++ upto)
    (fun upto => "ratings up to " ++ upto)
    "data"
    (fun raw upto => "history up to " ++ upto)
    (fun history => "latest of " ++ history)
    (fun latest => [("authors", "author rows"); ("works", "work rows")])
    "2.2.0"
    sample_ia_list
    sample_ia_upload.

(** The same host while archive.org cannot be reached: every upload
    ends with status 1 and stores nothing. *)
Definition offline_world : World :=
  let w := sample_world "" in
  mkWorld (today_yymm w) (OLDUMP_TESTING w) (psql_reading_log w)
    (psql_ratings w) (psql_copy_data w) (oldump_cdump w)
    (oldump_sort_dump w) (oldump_split w) (ia_version w) (ia_list w)
    (fun _ _ r => (1%Z, r)).

Definition empty_fs : FS := mkFS None [] false false.

(** The archive once the full dump of 2024-05-10 is there. *)
Definition archive_with_dump : Remote :=
  [("ol_dump_2024-05-10", ["ol_dump_2024-05-10.txt.gz"])].

(** A dump directory that holds the ratings of the last day of April. *)
Definition april_fs : FS :=
  mkFS None [("ol_dump_ratings_2024-04-30.txt.gz", File "ratings of April")]
    false false.


End Sh.

(* ================================================================== *)
(** * The Python entry point (lines 231-312) *)
(* ================================================================== *)

Module Py.

(** ** Running a script *)

Inductive Exn :=
| SyntaxError
| NameError (name : string)
| AttributeError (object attribute : string)
| TypeError (message : string)
| IndexError
| ValueError (message : string)
| SystemExit (code : Z).

(** What a run does to the outside.  [Printed] is text written to the
    terminal, on standard output or standard error; [Spawned] is a call
    of [subprocess.run] (imported on line 38), the one way the module
    has to start a pipeline stage. *)
Inductive Effect :=
| Printed (text : string)
| LoggedInfo (text : string)
| ConfigLoaded (file : string)
| SentryStarted
| Spawned (command : list string).

(** A computation: the exception raised or the value, and the effects
    performed up to there. *)
Definition Res (A : Type) : Type := (Exn + A) * list Effect.

Definition ret {A} (a : A) : Res A := (inr a, []).
Definition raise {A} (e : Exn) : Res A := (inl e, []).
Definition effect (e : Effect) : Res unit := (inr tt, [e]).

Definition bind {A B} (m : Res A) (k : A -> Res B) : Res B :=
  match m with
  | (inl e, out) => (inl e, out)
  | (inr a, out) => let (r, out') := k a in (r, (out ++ out')%list)
  end.

Notation "x <- m ;; k" := (bind m (fun x => k))
  (at level 61, m at next level, right associativity).
Notation "m ;;; k" := (bind m (fun _ => k))
  (at level 61, right associativity).

(** The interpreter's exit status. *)
Definition exit_status {A} (r : Res A) : Z :=
  match fst r with
  | inr _ => 0
  | inl (SystemExit code) => code
  | inl _ => 1
  end.

Definition spawned {A} (r : Res A) : list (list string) :=
  flat_map (fun e => match e with Spawned c => [c] | _ => [] end) (snd r).

(** ** Where the source is not Python *)

Inductive Token :=
| Name (s : string)
| Kw (s : string)
| Str (s : string)
| Op (s : string).

(** The logical lines of the body of [main]. *)
Definition line_276 : list Token :=
  [Name "ia_cofig_file"; Op "="; Name "Path"; Op "(";
   Str "/olsystem/etc/ia.ini"; Op ")"].
Definition line_277 : list Token :=
  [Name "working_dir"; Op "="; Name "Path"; Op "("; Str "/1/temp/";
   Name "ia_cofig_file"; Op "."; Name "exists"; Op "("; Op ")";
   Kw "else"; Str "/openlibrary/dumps"; Op ")"].
Definition line_278 : list Token :=
  [Name "args"; Op "="; Name "parse_args"; Op "("; Op ")"].
Definition line_279 : list Token :=
  [Name "yyyy_mm_dd"; Op "="; Name "date"; Op "."; Name "strpstr"; Op "(";
   Name "args"; Op "."; Name "yyyy_mm_dd"; Op ","; Str "%Y-%m-%d"; Op ")"].
Definition line_280 : list Token :=
  [Kw "if"; Name "args"; Op "."; Name "archive"; Kw "and"; Kw "not";
   Name "ia_cofig_file"; Op "."; Name "exists"; Op "("; Op ")"; Op ":"].
Definition line_281 : list Token :=
  [Kw "raise"; Name "ValueError"; Op "(";
   Str "'--archive' can only be used on Open Library hosts"; Op ")"].
Definition line_282 : list Token :=
  [Kw "if"; Name "args"; Op "."; Name "use_existing"; Kw "and"].

Definition main_lines : list (list Token) :=
  [line_276; line_277; line_278; line_279; line_280; line_281; line_282].

Definition is_kw (k : string) (t : Token) : bool :=
  match t with Kw s => s =? k | _ => false end.

(** In an expression every [else] closes an [if] that came before it:
    [pending] counts the [if]s still open. *)
Fixpoint else_has_if (pending : nat) (ts : list Token) : bool :=
  match ts with
  | [] => true
  | t :: rest =>
      if is_kw "if" t then else_has_if (S pending) rest
      else if is_kw "else" t then
        match pending with
        | O => false
        | S n => else_has_if n rest
        end
      else else_has_if pending rest
  end.

(** An [if] statement ends its header with a colon, and no line ends
    on an operator that still wants its right operand. *)
Definition header_complete (ts : list Token) : bool :=
  match ts with
  | [] => true
  | first :: _ =>
      let final := last ts first in
      negb (is_kw "and" final || is_kw "or" final || is_kw "not" final)
      && (if is_kw "if" first
          then match final with Op ":" => true | _ => false end
          else true)
  end.

(** Two conditions every line of a Python program meets. *)
Definition line_ok (ts : list Token) : bool :=
  else_has_if 0 ts && header_complete ts.

(** The compiler reads the whole file before the first statement
    runs. *)
Definition module_parses : bool := forallb line_ok main_lines.

(** ** The names the module binds *)

(** Lines 33-46, 231, 267 and 275. *)
Definition module_globals : list string :=
  ["argparse"; "logging"; "sys"; "date"; "Path"; "run"; "_init_path";
   "config"; "load_config"; "Sentry"; "logger";
   "parse_args"; "command_line"; "main"].

Definition lookup_global (name : string) : Res unit :=
  if existsb (String.eqb name) module_globals then ret tt
  else raise (NameError name).

(** The attributes of the class [datetime.date]. *)
Definition date_attributes : list string :=
  ["min"; "max"; "resolution"; "year"; "month"; "day";
   "today"; "fromtimestamp"; "fromordinal"; "fromisoformat";
   "fromisocalendar"; "strptime"; "replace"; "timetuple"; "toordinal";
   "weekday"; "isoweekday"; "isocalendar"; "isoformat"; "ctime";
   "strftime"].

Definition date_getattr (attribute : string) : Res unit :=
  if existsb (String.eqb attribute) date_attributes then ret tt
  else raise (AttributeError "datetime.date" attribute).

(** A [def]: its parameter list and its body. *)
Record Function (A : Type) := mkFunction {
  params : list string;
  body : Res A
}.
Arguments params {A} _.
Arguments body {A} _.

(** A call with [nargs] positional arguments. *)
Definition call {A} (f : Function A) (nargs : nat) : Res A :=
  if Nat.eqb nargs (List.length (params f)) then body f
  else raise (TypeError "wrong number of positional arguments").

(** ** The host and the command line *)

(** [argparse.Namespace] of lines 251-264. *)
Record Namespace := mkNamespace {
  yyyy_mm_dd : string;
  archive : bool;
  use_existing : bool
}.

(** The machine the script runs on.  [argparse] is the library's
    [ArgumentParser.parse_args] for the parser of lines 251-263, applied
    to [sys.argv[1:]]; on a bad command line or [--help] it raises
    [SystemExit], after it has written [parser_output]: the help text
    for [--help], the usage line and the error otherwise. *)
Record Host := mkHost {
  ia_ini_exists : bool;                 (* /olsystem/etc/ia.ini *)
  OL_CONFIG : option string;
  sentry_enabled : bool;
  argparse : list string -> Exn + Namespace;
  parser_output : list string -> string;
  show : Namespace -> string            (* str(Namespace) *)
}.

Section Script.

Variable host : Host.

(** Lines 231-264; [argv] is [sys.argv[1:]]. *)
Definition parse_args (argv : list string) : Res Namespace :=
  match argparse host argv with
  | inl e => effect (Printed (parser_output host argv)) ;;; raise e
  | inr ns => ret ns
  end.

(** Lines 267-273, for a script started as [oldump.py]. *)
Definition command_line (argv : list string) : string :=
  Sh.newline ++ String.concat " " ("oldump.py" :: argv) ++ "  # -->"
  ++ Sh.newline.

(** Lines 279-281 of [main]. *)
Definition check_run_date (ns : Namespace) : Res unit :=
  date_getattr "strpstr".

Definition check_archive (ns : Namespace) : Res unit :=
  if archive ns && negb (ia_ini_exists host)
  then raise (ValueError "'--archive' can only be used on Open Library hosts")
  else ret tt.

(** Lines 275-282, without the two lines (277, 282) that have no
    reading as Python. *)
Definition main_body (argv : list string) : Res unit :=
  ns <- parse_args argv ;;
  check_run_date ns ;;;
  check_archive ns.

(** [def main() -> int:] has no parameter. *)
Definition main (argv : list string) : Function unit :=
  mkFunction unit [] (main_body argv).

(** One of the four trial calls of lines 291-298. *)
Definition trial (argv : list string) : Res unit :=
  ns <- parse_args argv ;;
  effect (Printed (command_line argv ++ show host ns)).

(** Lines 287-312; [argv] is [sys.argv[1:]] as the caller gave it. *)
Definition main_block (argv : list string) : Res unit :=
  effect (Printed "oldump.py: Python") ;;;
  trial (argv ++ ["1970-02-13"]) ;;;
  trial (argv ++ ["1970-02-13"; "--archive"; "--use-existing"]) ;;;
  trial (argv ++ ["--help"]) ;;;
  trial argv ;;;
  lookup_global "os" ;;;                                   (* line 304 *)
  match OL_CONFIG host with
  | Some file =>
      if file =? "" then ret tt
      else
        effect (LoggedInfo ("loading config from " ++ file)) ;;;
        effect (ConfigLoaded file) ;;;
        if sentry_enabled host then effect SentryStarted else ret tt
  | None => ret tt
  end ;;;
  match argv with                                          (* line 312 *)
  | [] => raise IndexError
  | _ :: _ => call (main argv) 2
  end.

(** [python oldump.py argv...] *)
Definition run_script (argv : list string) : Res unit :=
  if module_parses then main_block argv else raise SyntaxError.

End Script.

(** ** The command line, as the caller means it *)

Definition archive_requested (argv : list string) : bool :=
  existsb (String.eqb "--archive") argv.

Definition is_option (a : string) : bool := Sh.is_prefix "-" a.

(** The first word that is not an option. *)
Definition run_date (argv : list string) : option string :=
  List.find (fun a => negb (is_option a)) argv.

Definition digit (c : ascii) : option nat :=
  let n := nat_of_ascii c in
  if Nat.leb 48 n && Nat.leb n 57 then Some (n - 48) else None.

Fixpoint number (acc : nat) (s : string) : option nat :=
  match s with
  | EmptyString => Some acc
  | String c s' =>
      match digit c with
      | Some d => number (10 * acc + d) s'
      | None => None
      end
  end.

Definition leap (y : nat) : bool :=
  (Nat.eqb (y mod 4) 0 && negb (Nat.eqb (y mod 100) 0))
  || Nat.eqb (y mod 400) 0.

Definition days_in_month (y m : nat) : nat :=
  match m with
  | 2 => if leap y then 29 else 28
  | 4 | 6 | 9 | 11 => 30
  | _ => 31
  end.

(** A date written yyyy-mm-dd. *)
Definition valid_date (s : string) : bool :=
  Nat.eqb (String.length s) 10
  && (substring 4 1 s =? "-") && (substring 7 1 s =? "-")
  && match number 0 (substring 0 4 s), number 0 (substring 5 2 s),
           number 0 (substring 8 2 s) with
     | Some y, Some m, Some d =>
         Nat.leb 1 y && Nat.leb 1 m && Nat.leb m 12
         && Nat.leb 1 d && Nat.leb d (days_in_month y m)
     | _, _, _ => false
     end.

(** The configuration errors of section 7. *)
Definition configuration_error (host : Host) (argv : list string) : Prop :=
  (archive_requested argv = true /\ ia_ini_exists host = false)
  \/ match run_date argv with
     | Some d => valid_date d = false
     | None => True
     end.

(** ** A sample host *)

Definition known_option (a : string) : bool :=
  (a =? "--archive") || (a =? "--use-existing").

Definition python_bool (b : bool) : string :=
  if b then "True" else "False".

(** The parser of lines 251-263 on the command lines used below: help
    ends the run with status 0, an unknown option or a wrong number of
    positional arguments with status 2. *)
Definition sample_argparse (argv : list string) : Exn + Namespace :=
  if existsb (fun a => (a =? "-h") || (a =? "--help")) argv
  then inl (SystemExit 0)
  else if negb (forallb (fun a => negb (is_option a) || known_option a) argv)
  then inl (SystemExit 2)
  else match filter (fun a => negb (is_option a)) argv with
       | [d] => inr (mkNamespace d (archive_requested argv)
                       (existsb (String.eqb "--use-existing") argv))
       | _ => inl (SystemExit 2)
       end.

(** What that parser writes before it ends the run: the help text of
    lines 233-243, or the usage line and the error. *)
Definition usage_line : string :=
  "usage: oldump.py [-h] [--archive] [--use-existing] yyyy_mm_dd"
  ++ Sh.newline.

Definition help_text : string :=
  usage_line ++ Sh.newline
  ++ "Run Open Library's data dumps." ++ Sh.newline ++ Sh.newline
  ++ "positional arguments:" ++ Sh.newline
  ++ "  yyyy_mm_dd      last day of the data dump" ++ Sh.newline
  ++ Sh.newline
  ++ "optional arguments:" ++ Sh.newline
  ++ "  -h, --help      show this help message and exit" ++ Sh.newline
  ++ "  --archive       write the dump results to the Internet Archive"
  ++ Sh.newline
  ++ "  --use-existing  use an existing raw database dump" ++ Sh.newline.

(** The words the parser has no use for: the unknown options and the
    positional arguments after the first. *)
Fixpoint unrecognized (dated : bool) (argv : list string) : list string :=
  match argv with
  | [] => []
  | a :: rest =>
      if is_option a then
        if known_option a then unrecognized dated rest
        else a :: unrecognized dated rest
      else if dated then a :: unrecognized true rest
      else unrecognized true rest
  end.

Definition sample_parser_output (argv : list string) : string :=
  if existsb (fun a => (a =? "-h") || (a =? "--help")) argv
  then help_text
  else
    usage_line ++ "oldump.py: error: "
    ++ match filter (fun a => negb (is_option a)) argv with
       | [] => "the following arguments are required: yyyy_mm_dd"
       | _ => "unrecognized arguments: "
              ++ String.concat " " (unrecognized false argv)
       end
    ++ Sh.newline.

Definition sample_show (ns : Namespace) : string :=
  "Namespace(yyyy_mm_dd='" ++ yyyy_mm_dd ns ++ "', archive="
  ++ python_bool (archive ns) ++ ", use_existing="
  ++ python_bool (use_existing ns) ++ ")".

(** A developer's machine: no [/olsystem/etc/ia.ini], no [OL_CONFIG]. *)
Definition laptop : Host :=
  mkHost false None false sample_argparse sample_parser_output sample_show.

(** An Open Library host, with the credentials and a configuration. *)
Definition ol_host : Host :=
  mkHost true (Some "/olsystem/etc/openlibrary.yml") true
    sample_argparse sample_parser_output sample_show.

End Py.

(* ================================================================== *)
(** * The reducer keeps the latest live version of each key *)
(* ================================================================== *)

Module ReducerFacts.
Import Reducer.
Local Open Scope list_scope.


(** *** The order on keys *)

Definition key_le (a b : string) : Prop := String_as_OT.lt a b \/ a = b.

Lemma entry_leb_key_le a b : entry_leb a b = true -> key_le (key a) (key b).
Proof.
  unfold entry_leb, key_le.
  destruct (String_as_OT.compare_spec (key a) (key b)) as [He | Hl | Hg];
    intros Hb; [right; assumption | left; assumption | discriminate].
Qed.

Lemma key_le_trans a b c : key_le a b -> key_le b c -> key_le a c.
Proof.
  unfold key_le. intros [H1 | ->] [H2 | ->]; auto.
  left. etransitivity; eassumption.
Qed.

Lemma key_le_antisym a b : key_le a b -> key_le b a -> a = b.
Proof.
  unfold key_le. intros [H1 | ->] [H2 | H2]; auto.
  exfalso. apply (irreflexivity (R := String_as_OT.lt) (x := a)).
  etransitivity; eassumption.
Qed.

(** Every later entry has a key at least as large. *)
Fixpoint keys_ascend (l : list HistoryEntry) : Prop :=
  match l with
  | [] => True
  | a :: t => Forall (fun e => key_le (key a) (key e)) t /\ keys_ascend t
  end.

Lemma is_sorted_keys_ascend l : is_sorted l = true -> keys_ascend l.
Proof.
  induction l as [| a t IH]; simpl; [trivial |].
  destruct t as [| b t'].
  - intros _. split; [constructor | exact I].
  - intros H. apply andb_true_iff in H. destruct H as [Hab Ht].
    specialize (IH Ht). split; [| exact IH].
    apply entry_leb_key_le in Hab.
    constructor; [exact Hab |].
    destruct IH as [Hb _].
    eapply Forall_impl; [| exact Hb].
    intros e He. simpl in He. eapply key_le_trans; eassumption.
Qed.

(** *** The winner of a group *)

Lemma fold_better_some l b :
  exists x, fold_left better l (Some b) = Some x.
Proof.
  revert b. induction l as [| e t IH]; intros b; simpl.
  - eauto.
  - destruct (revision b <=? revision e)%Z; apply IH.
Qed.

Lemma fold_better_spec l b x :
  fold_left better l (Some b) = Some x ->
  In x (b :: l) /\ forall e, In e (b :: l) -> (revision e <= revision x)%Z.
Proof.
  revert b. induction l as [| e t IH]; intros b; simpl.
  - intros [= <-]. split; [auto |]. intros e [<- | []]. lia.
  - destruct (revision b <=? revision e)%Z eqn:Hc; intros H;
      apply IH in H; destruct H as [Hin Hmax].
    + apply Z.leb_le in Hc. split.
      * destruct Hin as [<- | Hin]; auto.
      * intros y [<- | [<- | Hy]].
        -- specialize (Hmax e (or_introl eq_refl)). lia.
        -- apply Hmax. left. reflexivity.
        -- apply Hmax. right. assumption.
    + apply Z.leb_gt in Hc. split.
      * destruct Hin as [<- | Hin]; auto.
      * intros y [<- | [<- | Hy]].
        -- apply Hmax. left. reflexivity.
        -- specialize (Hmax b (or_introl eq_refl)). lia.
        -- apply Hmax. right. assumption.
Qed.

Lemma winner_nil_iff g : winner g = None <-> g = [].
Proof.
  unfold winner. destruct g as [| a t]; simpl.
  - tauto.
  - split; [| discriminate]. destruct (fold_better_some t a) as [x Hx].
    rewrite Hx. discriminate.
Qed.

Lemma winner_spec g x :
  winner g = Some x ->
  In x g /\ forall e, In e g -> (revision e <= revision x)%Z.
Proof.
  unfold winner. destruct g as [| a t]; simpl; [discriminate |].
  apply fold_better_spec.
Qed.

Lemma emit_spec g r :
  In r (emit g) -> emit g = [r] /\ winner g = Some r /\ deleted r = false.
Proof.
  unfold emit. destruct (winner g) as [x |]; [| intros []].
  destruct (deleted x) eqn:Hd; [intros [] |].
  intros [<- | []]. auto.
Qed.

(** *** Groups *)

Lemma group_of_app k l1 l2 : group_of k (l1 ++ l2) = group_of k l1 ++ group_of k l2.
Proof. apply filter_app. Qed.

Lemma group_of_all k l :
  Forall (fun e => key e = k) l -> group_of k l = l.
Proof.
  induction 1 as [| e t He _ IH]; simpl; [reflexivity |].
  unfold has_key. rewrite He, String.eqb_refl. f_equal. exact IH.
Qed.

Lemma group_of_none k l :
  Forall (fun e => key e <> k) l -> group_of k l = [].
Proof.
  induction 1 as [| e t He _ IH]; simpl; [reflexivity |].
  unfold has_key. apply String.eqb_neq in He. rewrite He. exact IH.
Qed.

Lemma group_of_emit_same k g :
  g <> [] -> Forall (fun e => key e = k) g -> group_of k (emit g) = emit g.
Proof.
  intros _ Hall. apply group_of_all. apply Forall_forall. intros r Hr.
  apply emit_spec in Hr. destruct Hr as (_ & Hw & _).
  apply winner_spec in Hw. destruct Hw as [Hin _].
  rewrite Forall_forall in Hall. auto.
Qed.

Lemma group_of_emit_other k k' g :
  k <> k' -> Forall (fun e => key e = k') g -> group_of k (emit g) = [].
Proof.
  intros Hk Hall. apply group_of_none. apply Forall_forall. intros r Hr.
  apply emit_spec in Hr. destruct Hr as (_ & Hw & _).
  apply winner_spec in Hw. destruct Hw as [Hin _].
  rewrite Forall_forall in Hall. rewrite (Hall r Hin). congruence.
Qed.

(** The scan, group by group: with the entries [cur] of key [kc] held
    back and the rest of an ascending stream to read, the rows of a key
    are what its group emits. *)
Lemma reduce_loop_group k rest : forall cur kc,
  cur <> [] ->
  Forall (fun e => key e = kc) cur ->
  Forall (fun e => key_le kc (key e)) rest ->
  keys_ascend rest ->
  group_of k (reduce_loop cur rest) = emit (group_of k (cur ++ rest)).
Proof.
  induction rest as [| e rest' IH]; intros cur kc Hne Hcur Hge Hasc.
  - simpl. rewrite app_nil_r.
    destruct (String.eqb_spec k kc) as [-> | Hk].
    + rewrite (group_of_all kc cur Hcur). apply group_of_emit_same; assumption.
    + rewrite (group_of_emit_other k kc); [| assumption | assumption].
      rewrite group_of_none; [reflexivity |].
      eapply Forall_impl; [| exact Hcur]. simpl. intros; congruence.
  - destruct cur as [| c cur']; [congruence |].
    assert (Hc : key c = kc) by (inversion Hcur; assumption).
    simpl reduce_loop.
    destruct Hasc as [Hfe Hasc'].
    destruct (String.eqb_spec (key c) (key e)) as [Heq | Hneq].
    + rewrite (IH (c :: cur' ++ [e]) kc).
      * simpl app. rewrite <- app_assoc. reflexivity.
      * discriminate.
      * change (c :: cur' ++ [e]) with ((c :: cur') ++ [e]).
        apply Forall_app. split; [assumption |].
        constructor; [congruence | constructor].
      * inversion Hge; assumption.
      * assumption.
    + rewrite group_of_app.
      rewrite (IH [e] (key e)); [| discriminate | repeat constructor | | assumption].
      2:{ assumption. }
      assert (Hlt : Forall (fun x => key x <> kc) (e :: rest')).
      { assert (Hke : key_le kc (key e)) by (inversion Hge; assumption).
        constructor; [congruence |].
        rewrite Forall_forall in Hfe |- *. intros x Hx Habs.
        specialize (Hfe x Hx). simpl in Hfe. rewrite Habs in Hfe.
        apply Hneq. rewrite Hc. apply key_le_antisym; assumption. }
      destruct (String.eqb_spec k kc) as [-> | Hk].
      * rewrite group_of_emit_same; [| discriminate | assumption].
        change ([e] ++ rest') with (e :: rest').
        rewrite (group_of_app kc (c :: cur') (e :: rest')).
        rewrite (group_of_none kc (e :: rest') Hlt).
        rewrite app_nil_r, (group_of_all kc _ Hcur).
        unfold emit at 2. simpl. rewrite app_nil_r. reflexivity.
      * rewrite (group_of_emit_other k kc); [| assumption | assumption].
        change ([e] ++ rest') with (e :: rest').
        rewrite (group_of_app k (c :: cur') (e :: rest')).
        rewrite (group_of_none k (c :: cur')).
        -- reflexivity.
        -- eapply Forall_impl; [| exact Hcur]. simpl. intros; congruence.
Qed.

Lemma reduce_group k stream :
  is_sorted stream = true ->
  group_of k (reduce stream) = emit (group_of k stream).
Proof.
  intros Hs. apply is_sorted_keys_ascend in Hs.
  destruct stream as [| e rest]; [reflexivity |].
  unfold reduce. simpl reduce_loop. destruct Hs as [Hge Hasc].
  apply (reduce_loop_group k rest [e] (key e)).
  - discriminate.
  - repeat constructor.
  - exact Hge.
  - exact Hasc.
Qed.

Lemma In_group_of k e l : In e (group_of k l) <-> In e l /\ key e = k.
Proof.
  unfold group_of. rewrite filter_In. unfold has_key.
  rewrite String.eqb_eq. tauto.
Qed.

(** The section 8 scenario, after the sorter. *)
Definition scenario : list HistoryEntry :=
  [mkEntry "A" 1 false "book" "a1";
   mkEntry "A" 2 false "book" "a2";
   mkEntry "B" 1 true "work" "b1"].

Example reduce_scenario :
  reduce scenario = [mkEntry "A" 2 false "book" "a2"].
Proof. reflexivity. Qed.

(** *** The maximum-revision entry *)

Lemma winner_snoc g e : winner (g ++ [e]) = better (winner g) e.
Proof. unfold winner. rewrite fold_left_app. reflexivity. Qed.

Lemma group_of_snoc k l e :
  group_of k (l ++ [e]) =
  group_of k l ++ (if has_key k e then [e] else []).
Proof. rewrite group_of_app. simpl. destruct (has_key k e); reflexivity. Qed.

(** What the scan picks in the group of a key is the key's
    maximum-revision entry. *)
Lemma winner_is_max_rev k stream m :
  winner (group_of k stream) = Some m -> is_max_rev_entry k stream m.
Proof.
  revert m. induction stream as [| e l IH] using rev_ind; intros m.
  - discriminate.
  - rewrite group_of_snoc. destruct (has_key k e) eqn:Hk.
    + rewrite winner_snoc. unfold has_key in Hk. apply String.eqb_eq in Hk.
      destruct (winner (group_of k l)) as [b |] eqn:Hw; simpl.
      * destruct (revision b <=? revision e)%Z eqn:Hc; intros [= <-].
        -- apply Z.leb_le in Hc. exists l, []. repeat split; auto.
           ++ intros x Hx Hkx. apply winner_spec in Hw.
              destruct Hw as [_ Hmax].
              assert (In x (group_of k l)) by (apply In_group_of; auto).
              specialize (Hmax x H). lia.
           ++ intros x [].
        -- apply Z.leb_gt in Hc.
           destruct (IH b eq_refl) as (bf & af & -> & Hkb & Hb & Ha).
           exists bf, (af ++ [e]). repeat split; auto.
           ++ rewrite <- app_assoc. reflexivity.
           ++ intros x Hx Hkx. apply in_app_or in Hx.
              destruct Hx as [Hx | [<- | []]]; auto.
      * intros [= <-]. exists l, []. repeat split; auto.
        -- intros x Hx Hkx. apply winner_nil_iff in Hw.
           assert (In x (group_of k l)) by (apply In_group_of; auto).
           rewrite Hw in H. destruct H.
        -- intros x [].
    + rewrite app_nil_r. intros Hw.
      destruct (IH m Hw) as (bf & af & -> & Hkb & Hb & Ha).
      exists bf, (af ++ [e]). repeat split; auto.
      * rewrite <- app_assoc. reflexivity.
      * intros x Hx Hkx. apply in_app_or in Hx.
        destruct Hx as [Hx | [<- | []]]; auto.
        unfold has_key in Hk. apply String.eqb_neq in Hk. congruence.
Qed.

(** Two ways to cut a list at one element each. *)
Lemma cut_twice {A} (l1 l2 l1' l2' : list A) a b :
  l1 ++ a :: l2 = l1' ++ b :: l2' ->
  (l1 = l1' /\ a = b /\ l2 = l2')
  \/ (In b l2 /\ In a l1')
  \/ (In a l2' /\ In b l1).
Proof.
  revert l1'. induction l1 as [| x l1 IH]; intros [| y l1']; simpl.
  - intros [= -> ->]. auto.
  - intros [= -> ->]. right. left. split; [| auto].
    apply in_or_app. right. left. reflexivity.
  - intros [= -> <-]. right. right. split; [| auto].
    apply in_or_app. right. left. reflexivity.
  - intros [= -> H]. destruct (IH l1' H) as [(-> & -> & ->) | [[? ?] | [? ?]]];
      auto.
Qed.

(** A key has one maximum-revision entry at most. *)
Lemma max_rev_entry_unique k stream m m' :
  is_max_rev_entry k stream m -> is_max_rev_entry k stream m' -> m = m'.
Proof.
  intros (b & a & -> & Hk & Hb & Ha) (b' & a' & E & Hk' & Hb' & Ha').
  destruct (cut_twice _ _ _ _ _ _ E) as [(_ & H & _) | [[H1 H2] | [H1 H2]]].
  - exact H.
  - specialize (Ha m' H1 Hk'). specialize (Hb' m H2 Hk). lia.
  - specialize (Ha' m H1 Hk). specialize (Hb m' H2 Hk'). lia.
Qed.

Lemma max_rev_is_winner k stream m :
  is_max_rev_entry k stream m -> winner (group_of k stream) = Some m.
Proof.
  intros Hm.
  destruct (winner (group_of k stream)) as [x |] eqn:Hw.
  - f_equal. apply (max_rev_entry_unique k stream); [| exact Hm].
    apply winner_is_max_rev. exact Hw.
  - apply winner_nil_iff in Hw.
    destruct Hm as (b & a & -> & Hk & _).
    assert (H : In m (group_of k (b ++ m :: a))).
    { apply In_group_of. split; [| exact Hk].
      apply in_or_app. right. left. reflexivity. }
    rewrite Hw in H. destruct H.
Qed.

(** C3.  On a stream sorted by (key, revision) the reducer emits, for
    every key, at most one row; every row is the maximum-revision entry
    of its key and is not deleted; the rows of a key are its
    maximum-revision entry alone, or none when that entry is deleted;
    a key has a row exactly when its maximum-revision entry is not
    deleted; and every key of the stream has a maximum-revision
    entry. *)
Theorem reduce_latest_version (stream : list HistoryEntry) :
  is_sorted stream = true ->
  (forall k, List.length (group_of k (reduce stream)) <= 1) /\
  (forall r, In r (reduce stream) ->
             is_max_rev_entry (key r) stream r /\ deleted r = false) /\
  (forall k m, is_max_rev_entry k stream m ->
               group_of k (reduce stream) = if deleted m then [] else [m]) /\
  (forall k, (exists r, In r (reduce stream) /\ key r = k) <->
             (exists m, is_max_rev_entry k stream m /\ deleted m = false)) /\
  (forall e, In e stream -> exists m, is_max_rev_entry (key e) stream m).
Proof.
  intros Hs.
  assert (Hg : forall k, group_of k (reduce stream) =
                         emit (group_of k stream))
    by (intros k; apply reduce_group; exact Hs).
  assert (Hrow : forall r, In r (reduce stream) ->
                           is_max_rev_entry (key r) stream r /\
                           deleted r = false).
  { intros r Hr.
    assert (Hin : In r (group_of (key r) (reduce stream)))
      by (apply In_group_of; auto).
    rewrite Hg in Hin. apply emit_spec in Hin.
    destruct Hin as (_ & Hw & Hd). split; [| exact Hd].
    apply winner_is_max_rev. exact Hw. }
  assert (Hmax : forall k m, is_max_rev_entry k stream m ->
                   group_of k (reduce stream) =
                   if deleted m then [] else [m]).
  { intros k m Hm. rewrite Hg. unfold emit.
    rewrite (max_rev_is_winner k stream m Hm). reflexivity. }
  split; [| split; [exact Hrow | split; [exact Hmax | split]]].
  - intros k. rewrite Hg. unfold emit.
    destruct (winner (group_of k stream)) as [x |]; [| simpl; lia].
    destruct (deleted x); simpl; lia.
  - intros k. split.
    + intros (r & Hr & <-). exists r. apply Hrow. exact Hr.
    + intros (m & Hm & Hd).
      assert (Hin : In m (group_of k (reduce stream)))
        by (rewrite (Hmax k m Hm), Hd; left; reflexivity).
      apply In_group_of in Hin. exists m. exact Hin.
  - intros e He.
    destruct (winner (group_of (key e) stream)) as [m |] eqn:Hw.
    + exists m. apply winner_is_max_rev. exact Hw.
    + apply winner_nil_iff in Hw.
      assert (H : In e (group_of (key e) stream))
        by (apply In_group_of; auto).
      rewrite Hw in H. destruct H.
Qed.

(** On the scenario of section 8: [A/2] is the maximum-revision entry
    of [A] and the only row of [A]; that of [B] is deleted and [B] has
    no row. *)
Lemma reduce_latest_version_witness :
  is_sorted scenario = true /\
  is_max_rev_entry "A" scenario (mkEntry "A" 2 false "book" "a2") /\
  group_of "A" (reduce scenario) = [mkEntry "A" 2 false "book" "a2"] /\
  is_max_rev_entry "B" scenario (mkEntry "B" 1 true "work" "b1") /\
  group_of "B" (reduce scenario) = [].
Proof.
  assert (HA : is_max_rev_entry "A" scenario
                 (mkEntry "A" 2 false "book" "a2")).
  { exists [mkEntry "A" 1 false "book" "a1"],
           [mkEntry "B" 1 true "work" "b1"].
    repeat split.
    - intros e [<- | []] _. simpl. lia.
    - intros e [<- | []]. discriminate. }
  assert (HB : is_max_rev_entry "B" scenario
                 (mkEntry "B" 1 true "work" "b1")).
  { exists [mkEntry "A" 1 false "book" "a1";
            mkEntry "A" 2 false "book" "a2"], [].
    repeat split.
    - intros e [<- | [<- | []]]; discriminate.
    - intros e []. }
  destruct (reduce_latest_version scenario eq_refl)
    as (_ & _ & Hmax & _ & _).
  split; [reflexivity |].
  split; [exact HA |].
  split; [exact (Hmax "A" _ HA) |].
  split; [exact HB |].
  exact (Hmax "B" _ HB).
Defined.

End ReducerFacts.

(* ================================================================== *)
(** * Globs, listings and [compgen] *)
(* ================================================================== *)

Module ShLists.
Import Sh.
Local Open Scope list_scope.

(** ** Strings and patterns *)

Lemma glob_lits_app a p s :
  glob (lits a ++ p) (a ++ s)%string = glob p s.
Proof.
  induction a as [| c a IH]; simpl; [reflexivity |].
  rewrite Ascii.eqb_refl. exact IH.
Qed.

Lemma glob_star_any s : glob [Star] s = true.
Proof.
  induction s as [| c s IH]; simpl; [reflexivity | exact IH].
Qed.

Lemma is_prefix_app p s : is_prefix p s = true -> exists r, s = (p ++ r)%string.
Proof.
  revert s. induction p as [| c p IH]; intros s; simpl.
  - exists s. reflexivity.
  - destruct s as [| c' s]; [discriminate |].
    intros H. apply andb_true_iff in H. destruct H as [Hc Hp].
    apply Ascii.eqb_eq in Hc. subst c'. destruct (IH s Hp) as [r ->].
    exists r. reflexivity.
Qed.

(** What a pattern that starts with literal text matches starts with
    that text. *)
Lemma glob_lits_prefix a p s :
  glob (lits a ++ p) s = true -> is_prefix a s = true.
Proof.
  revert s. induction a as [| c a IH]; intros s; simpl; [reflexivity |].
  destruct s as [| c' s]; [discriminate |].
  intros H. apply andb_true_iff in H. destruct H as [Hc Hp].
  rewrite Hc. simpl. apply IH. exact Hp.
Qed.


Lemma lits_app a b : lits (a ++ b)%string = lits a ++ lits b.
Proof. induction a as [| c a IH]; simpl; [reflexivity | f_equal; exact IH]. Qed.

Lemma length_append a b :
  String.length (a ++ b)%string = String.length a + String.length b.
Proof. induction a as [| c a IH]; simpl; [reflexivity | rewrite IH; reflexivity]. Qed.

Lemma append_neq_self a b : b <> ""%string -> (a ++ b)%string <> a.
Proof.
  intros Hb H. apply (f_equal String.length) in H.
  rewrite length_append in H.
  destruct b; [congruence | simpl in H; lia].
Qed.

(** ** Listings *)

Lemma lookup_In n l x : lookup n l = Some x -> In n (map fst l).
Proof.
  induction l as [| [m y] t IH]; simpl; [discriminate |].
  destruct (String.eqb_spec m n) as [-> | Hn]; auto.
Qed.

Lemma lookup_None n l : ~ In n (map fst l) -> lookup n l = None.
Proof.
  induction l as [| [m y] t IH]; simpl; [reflexivity |].
  intros H. destruct (String.eqb_spec m n) as [-> | Hn]; [tauto |].
  apply IH. tauto.
Qed.

Lemma lookup_put_same n x l : lookup n (put n x l) = Some x.
Proof.
  induction l as [| [m y] t IH]; simpl.
  - rewrite String.eqb_refl. reflexivity.
  - destruct (String.eqb_spec m n) as [-> | Hn]; simpl.
    + rewrite String.eqb_refl. reflexivity.
    + apply String.eqb_neq in Hn. rewrite Hn. exact IH.
Qed.

Lemma lookup_put_other n m x l : n <> m -> lookup n (put m x l) = lookup n l.
Proof.
  intros Hnm. induction l as [| [k y] t IH]; simpl.
  - apply not_eq_sym, String.eqb_neq in Hnm. rewrite Hnm. reflexivity.
  - destruct (String.eqb_spec k m) as [-> | Hk]; simpl.
    + apply not_eq_sym, String.eqb_neq in Hnm. rewrite Hnm. reflexivity.
    + rewrite IH. reflexivity.
Qed.

Lemma lookup_remove_other n m l : n <> m -> lookup n (remove m l) = lookup n l.
Proof.
  intros Hnm. unfold remove. induction l as [| [k y] t IH]; simpl; [reflexivity |].
  destruct (String.eqb_spec k m) as [-> | Hk]; simpl.
  - apply not_eq_sym, String.eqb_neq in Hnm. rewrite Hnm. exact IH.
  - rewrite IH. reflexivity.
Qed.

Lemma names_put_present n x l :
  lookup n l <> None -> map fst (put n x l) = map fst l.
Proof.
  induction l as [| [k y] t IH]; simpl; [congruence |].
  destruct (String.eqb_spec k n) as [-> | Hk]; simpl; [reflexivity |].
  intros H. f_equal. apply IH. exact H.
Qed.

Lemma names_put_absent n x l :
  lookup n l = None -> map fst (put n x l) = map fst l ++ [n].
Proof.
  induction l as [| [k y] t IH]; simpl; [reflexivity |].
  destruct (String.eqb_spec k n) as [-> | Hk]; simpl; [discriminate |].
  intros H. f_equal. apply IH. exact H.
Qed.

Lemma names_remove n l :
  map fst (remove n l) = filter (fun m => negb (m =? n)%string) (map fst l).
Proof.
  unfold remove. induction l as [| [k y] t IH]; simpl; [reflexivity |].
  destruct (k =? n)%string; simpl; [exact IH | f_equal; exact IH].
Qed.

(** ** Matching names *)

Lemma compgen_put_other p n x l :
  glob p n = false -> compgen_G p (put n x l) = compgen_G p l.
Proof.
  intros Hn. unfold compgen_G.
  destruct (lookup n l) eqn:Hl.
  - rewrite names_put_present; [reflexivity | congruence].
  - rewrite names_put_absent by exact Hl. rewrite filter_app. simpl.
    rewrite Hn. apply app_nil_r.
Qed.

Lemma compgen_put_present p n x l :
  lookup n l <> None -> compgen_G p (put n x l) = compgen_G p l.
Proof. intros H. unfold compgen_G. rewrite names_put_present; auto. Qed.

Lemma compgen_put_absent p n x l :
  lookup n l = None -> glob p n = true ->
  compgen_G p (put n x l) = compgen_G p l ++ [n].
Proof.
  intros Hl Hn. unfold compgen_G. rewrite names_put_absent by exact Hl.
  rewrite filter_app. simpl. rewrite Hn. reflexivity.
Qed.

Lemma compgen_remove p n l :
  compgen_G p (remove n l) =
  filter (fun m => negb (m =? n)%string) (compgen_G p l).
Proof.
  unfold compgen_G. rewrite names_remove.
  induction (map fst l) as [| k t IH]; simpl; [reflexivity |].
  destruct (k =? n)%string eqn:Hk, (glob p k) eqn:Hg; simpl;
    rewrite ?Hk, ?Hg; simpl; rewrite IH; reflexivity.
Qed.

Lemma compgen_remove_other p n l :
  glob p n = false -> compgen_G p (remove n l) = compgen_G p l.
Proof.
  intros Hn. rewrite compgen_remove.
  unfold compgen_G. induction (map fst l) as [| k t IH]; simpl; [reflexivity |].
  destruct (glob p k) eqn:Hg; simpl; [| exact IH].
  destruct (String.eqb_spec k n) as [-> | Hk]; simpl; [congruence |].
  f_equal. exact IH.
Qed.

Lemma compgen_In p n l :
  In n (compgen_G p l) <-> In n (map fst l) /\ glob p n = true.
Proof. unfold compgen_G. apply filter_In. Qed.

Lemma word_of_one n : word_of [n] = n.
Proof. reflexivity. Qed.

End ShLists.

(* ================================================================== *)
(** * The shell pipeline: what a run does *)
(* ================================================================== *)

Module ShFacts.
Import Sh ShLists.
Local Open Scope list_scope.

(** ** Relations between the state before and after a command *)

Section Frames.

Variable R : St -> St -> Prop.
Hypothesis R_refl : forall s, R s s.
Hypothesis R_trans : forall a b c, R a b -> R b c -> R a c.

Definition keeps {A} (m : M A) : Prop := forall s, R s (snd (m s)).

Lemma keeps_ret {A} (a : A) : keeps (ret a).
Proof. intros s. apply R_refl. Qed.

Lemma keeps_bind {A B} (m : M A) (k : A -> M B) :
  keeps m -> (forall a, keeps (k a)) -> keeps (bind m k).
Proof.
  intros Hm Hk s. unfold bind. specialize (Hm s).
  destruct (m s) as [a s']. simpl in Hm.
  eapply R_trans; [exact Hm | apply Hk].
Qed.

Lemma keeps_if {A} (b : bool) (m1 m2 : M A) :
  keeps m1 -> keeps m2 -> keeps (if b then m1 else m2).
Proof. destruct b; auto. Qed.

Lemma keeps_when (b : bool) (m : M unit) : keeps m -> keeps (when b m).
Proof. intros H. unfold when. apply keeps_if; [exact H | apply keeps_ret]. Qed.

Lemma keeps_get_dumps : keeps get_dumps.
Proof. intros s. apply R_refl. Qed.

Lemma keeps_get_remote : keeps get_remote.
Proof. intros s. apply R_refl. Qed.

Lemma keeps_get_sitemaps : keeps get_sitemaps.
Proof. intros s. apply R_refl. Qed.

End Frames.

(** The events a command adds all satisfy [Q]. *)
Definition adds (Q : Event -> Prop) (s s' : St) : Prop :=
  exists evs, trace s' = trace s ++ evs /\ Forall Q evs.

Lemma adds_refl Q s : adds Q s s.
Proof. exists []. rewrite app_nil_r. auto. Qed.

Lemma adds_trans Q a b c : adds Q a b -> adds Q b c -> adds Q a c.
Proof.
  intros (e1 & H1 & F1) (e2 & H2 & F2). exists (e1 ++ e2). split.
  - rewrite H2, H1, app_assoc. reflexivity.
  - apply Forall_app. auto.
Qed.

Lemma adds_impl (Q Q' : Event -> Prop) s s' :
  (forall e, Q e -> Q' e) -> adds Q s s' -> adds Q' s s'.
Proof.
  intros H (evs & Ht & F). exists evs. split; [exact Ht |].
  eapply Forall_impl; eassumption.
Qed.

Definition same_remote (s s' : St) : Prop := remote s' = remote s.

Lemma same_remote_refl s : same_remote s s.
Proof. reflexivity. Qed.

Lemma same_remote_trans a b c :
  same_remote a b -> same_remote b c -> same_remote a c.
Proof. unfold same_remote. congruence. Qed.

Section Adds.
Variable Q : Event -> Prop.

Lemma adds_emit e : Q e -> keeps (adds Q) (emit e).
Proof. intros H s. exists [e]. simpl. auto. Qed.

Lemma adds_set_dumps l : keeps (adds Q) (set_dumps l).
Proof. intros s. exists []. simpl. rewrite app_nil_r. auto. Qed.
Lemma adds_set_tmp_data d : keeps (adds Q) (set_tmp_data d).
Proof. intros s. exists []. simpl. rewrite app_nil_r. auto. Qed.
Lemma adds_set_sitemaps b : keeps (adds Q) (set_sitemaps b).
Proof. intros s. exists []. simpl. rewrite app_nil_r. auto. Qed.
Lemma adds_set_oldumpsort b : keeps (adds Q) (set_oldumpsort b).
Proof. intros s. exists []. simpl. rewrite app_nil_r. auto. Qed.
Lemma adds_set_remote r : keeps (adds Q) (set_remote r).
Proof. intros s. exists []. simpl. rewrite app_nil_r. auto. Qed.
End Adds.

Lemma remote_emit e : keeps same_remote (emit e).
Proof. intros s. reflexivity. Qed.
Lemma remote_set_dumps l : keeps same_remote (set_dumps l).
Proof. intros s. reflexivity. Qed.
Lemma remote_set_tmp_data d : keeps same_remote (set_tmp_data d).
Proof. intros s. reflexivity. Qed.
Lemma remote_set_sitemaps b : keeps same_remote (set_sitemaps b).
Proof. intros s. reflexivity. Qed.
Lemma remote_set_oldumpsort b : keeps same_remote (set_oldumpsort b).
Proof. intros s. reflexivity. Qed.

(** Walks through a command built from the primitives. *)
Ltac frame refl trans :=
  repeat first
    [ apply (keeps_bind _ trans)
    | apply (keeps_if _)
    | apply (keeps_when _ refl)
    | apply (keeps_ret _ refl)
    | apply (keeps_get_dumps _ refl)
    | apply (keeps_get_remote _ refl)
    | apply (keeps_get_sitemaps _ refl)
    | apply adds_set_dumps | apply adds_set_tmp_data
    | apply adds_set_sitemaps | apply adds_set_oldumpsort
    | apply remote_emit | apply remote_set_dumps | apply remote_set_tmp_data
    | apply remote_set_sitemaps | apply remote_set_oldumpsort
    | (apply adds_emit; solve [reflexivity | repeat split; reflexivity])
    | match goal with |- forall _, _ => intro end ].

Ltac unfold_stages :=
  unfold pipeline, generate, overwrite_check, cleanup, reading_log_stage,
    ratings_stage, raw_extract_stage, cdump_stage, dump_stage, split_stage,
    collect, sitemap_stage, final_cleanup, archival, run_to_file, matches,
    is_file, is_dir, log.

(** Not an upload. *)
Definition no_upload (e : Event) : Prop := uploads [e] = [].
(** Not a command of a stage that produces dump files. *)
Definition no_generation (e : Event) : Prop :=
  filter generation_stage (stages_run [e]) = [].
Definition no_stage (e : Event) : Prop := stages_run [e] = [].

Section Phases.
Variables (w : World) (args : list string).

Lemma overwrite_check_adds : keeps (adds no_stage) (overwrite_check args).
Proof. unfold_stages. frame (adds_refl no_stage) (adds_trans no_stage). Qed.

Lemma generate_adds : keeps (adds no_upload) (generate w args).
Proof. unfold_stages. frame (adds_refl no_upload) (adds_trans no_upload). Qed.

Lemma sitemap_adds :
  keeps (adds (fun e => no_upload e /\ no_generation e)) (sitemap_stage args).
Proof.
  unfold_stages.
  frame (adds_refl (fun e => no_upload e /\ no_generation e))
        (adds_trans (fun e => no_upload e /\ no_generation e)).
Qed.

End Phases.

(** ** Reading traces *)

Lemma commands_app a b : commands (a ++ b) = commands a ++ commands b.
Proof. apply flat_map_app. Qed.

Lemma uploads_app a b : uploads (a ++ b) = uploads a ++ uploads b.
Proof. unfold uploads. rewrite commands_app. apply flat_map_app. Qed.

Lemma stages_run_app a b : stages_run (a ++ b) = stages_run a ++ stages_run b.
Proof. unfold stages_run. rewrite commands_app. apply flat_map_app. Qed.


Lemma Forall_flat_nil {A B} (f : A -> list B) (l : list A) :
  Forall (fun a => f a = []) l -> flat_map f l = [].
Proof.
  induction 1 as [| a t Ha _ IH]; simpl; [reflexivity |].
  rewrite Ha, IH. reflexivity.
Qed.

Lemma uploads_nil evs : Forall no_upload evs -> uploads evs = [].
Proof.
  induction 1 as [| e t He _ IH]; [reflexivity |].
  change (e :: t) with ([e] ++ t). rewrite uploads_app, He, IH. reflexivity.
Qed.


Lemma generation_nil evs :
  Forall no_generation evs -> filter generation_stage (stages_run evs) = [].
Proof.
  induction 1 as [| e t He _ IH]; [reflexivity |].
  change (e :: t) with ([e] ++ t). rewrite stages_run_app, filter_app, He, IH.
  reflexivity.
Qed.

Lemma adds_uploads s s' :
  adds no_upload s s' -> uploads (trace s') = uploads (trace s).
Proof.
  intros (evs & -> & F). rewrite uploads_app, (uploads_nil evs F).
  apply app_nil_r.
Qed.

Lemma no_stage_no_upload e : no_stage e -> no_upload e.
Proof.
  unfold no_stage, no_upload, stages_run, uploads.
  destruct e as [c | |]; try reflexivity.
  destruct c; simpl; try reflexivity; discriminate.
Qed.

Lemma no_stage_no_generation e : no_stage e -> no_generation e.
Proof. unfold no_stage, no_generation. intros ->. reflexivity. Qed.

(** ** The script, phase by phase *)

Lemma seq_run {A B} (m : M A) (k : M B) s : (m ;;; k) s = k (snd (m s)).
Proof. unfold bind. destruct (m s). reflexivity. Qed.

Section Run.
Variables (w : World) (args : list string).

Definition after_overwrite_check (s : St) : St :=
  snd (overwrite_check args s).
Definition after_generate (s : St) : St :=
  snd (generate w args (after_overwrite_check s)).
Definition after_archival (s : St) : St :=
  snd (archival w args (after_generate s)).
Definition after_sitemap (s : St) : St :=
  snd (sitemap_stage args (after_archival s)).

Lemma pipeline_phases s :
  pipeline w args s = final_cleanup w (after_sitemap s).
Proof. unfold pipeline. rewrite !seq_run. reflexivity. Qed.

Lemma final_cleanup_status s : fst (final_cleanup w s) = 0%Z.
Proof. unfold final_cleanup. destruct (negb (testing w)); reflexivity. Qed.

Lemma final_cleanup_adds : keeps (adds no_stage) (final_cleanup w).
Proof. unfold_stages. frame (adds_refl no_stage) (adds_trans no_stage). Qed.

Lemma overwrite_check_remote : keeps same_remote (overwrite_check args).
Proof. unfold_stages. frame same_remote_refl same_remote_trans. Qed.

Lemma generate_remote : keeps same_remote (generate w args).
Proof. unfold_stages. frame same_remote_refl same_remote_trans. Qed.

Lemma sitemap_remote : keeps same_remote (sitemap_stage args).
Proof. unfold_stages. frame same_remote_refl same_remote_trans. Qed.

Lemma final_cleanup_remote : keeps same_remote (final_cleanup w).
Proof. unfold_stages. frame same_remote_refl same_remote_trans. Qed.

(** *** The archiver *)

Definition version_events : list Event :=
  [Run IaVersion; Log ("* ia version is v" ++ ia_version w)%string;
   Run (IaList (dump args))].

Lemma archive_dumps_present s :
  ia_list w (remote s) (dump args) <> [] ->
  archive_dumps w args s =
  (0%Z, mkSt (fs s) (remote s)
          (trace s ++ version_events
           ++ [Log "* Skipping: Archival Zip already exists"])).
Proof.
  intros H. unfold version_events, archive_dumps.
  remember (dump args) as d.
  unfold log, bind, emit, get_remote, ret. cbn.
  destruct (ia_list w (remote s) d) as [| x t]; [congruence |].
  cbn. rewrite <- !app_assoc. reflexivity.
Qed.

Lemma archive_dumps_absent s :
  ia_list w (remote s) (dump args) = [] ->
  archive_dumps w args s =
  let r1 := ia_upload w (ia_upload_cmd w (dump args))
              (lookup (dump args) (dumps (fs s))) (remote s) in
  let r2 := ia_upload w (ia_upload_cmd w (cdump args))
              (lookup (cdump args) (dumps (fs s))) (snd r1) in
  (fst r2, mkSt (fs s) (snd r2)
             (trace s ++ version_events
              ++ [Run (IaUpload (ia_upload_cmd w (dump args)));
                  Run (IaUpload (ia_upload_cmd w (cdump args)))])).
Proof.
  intros H. unfold version_events, archive_dumps, upload.
  remember (dump args) as d. remember (cdump args) as c.
  remember (ia_upload_cmd w d) as ud. remember (ia_upload_cmd w c) as uc.
  unfold log, bind, emit, get_remote, get_dumps, set_remote, ret. cbn.
  rewrite H. cbn.
  destruct (ia_upload w ud (lookup d (dumps (fs s))) (remote s)) as [st1 r1].
  cbn.
  destruct (ia_upload w uc (lookup c (dumps (fs s))) r1) as [st2 r2].
  cbn. rewrite <- !app_assoc. reflexivity.
Qed.

(** Whether the archiver runs, and finds the full dump missing. *)
Definition archives (r : Remote) : bool :=
  (archive args =? "--archive")%string && negb (testing w)
  && Nat.eqb (List.length (ia_list w r (dump args))) 0.

Definition both_uploads : list Upload :=
  [ia_upload_cmd w (dump args); ia_upload_cmd w (cdump args)].

Lemma length_zero {A} (l : list A) : Nat.eqb (List.length l) 0 = true <-> l = [].
Proof. destruct l; simpl; split; congruence. Qed.

Lemma archival_uploads s :
  uploads (trace (snd (archival w args s))) =
  uploads (trace s) ++ (if archives (remote s) then both_uploads else []).
Proof.
  unfold archival, archives.
  destruct (archive args =? "--archive")%string; simpl;
    [| rewrite app_nil_r; reflexivity].
  destruct (negb (testing w)); simpl; [| rewrite app_nil_r; reflexivity].
  rewrite seq_run. simpl.
  destruct (Nat.eqb (List.length (ia_list w (remote s) (dump args))) 0) eqn:E.
  - apply length_zero in E. rewrite (archive_dumps_absent s E). simpl.
    rewrite uploads_app. reflexivity.
  - assert (H : ia_list w (remote s) (dump args) <> []).
    { intros H. apply length_zero in H. congruence. }
    rewrite (archive_dumps_present s H). simpl.
    rewrite uploads_app. reflexivity.
Qed.

Lemma archival_remote_kept s :
  archives (remote s) = false -> remote (snd (archival w args s)) = remote s.
Proof.
  unfold archival, archives.
  destruct (archive args =? "--archive")%string; simpl; [| reflexivity].
  destruct (negb (testing w)); simpl; [| reflexivity].
  intros E. rewrite seq_run. simpl.
  assert (H : ia_list w (remote s) (dump args) <> []).
  { intros H. apply length_zero in H. congruence. }
  rewrite (archive_dumps_present s H). reflexivity.
Qed.

Lemma after_generate_remote s : remote (after_generate s) = remote s.
Proof.
  unfold after_generate, after_overwrite_check.
  rewrite generate_remote. apply overwrite_check_remote.
Qed.

Lemma after_generate_uploads s :
  uploads (trace (after_generate s)) = uploads (trace s).
Proof.
  unfold after_generate, after_overwrite_check.
  rewrite (adds_uploads _ _ (generate_adds w args _)).
  apply adds_uploads.
  eapply adds_impl; [apply no_stage_no_upload | apply overwrite_check_adds].
Qed.

Lemma pipeline_uploads s :
  uploads (trace (snd (pipeline w args s))) =
  uploads (trace s) ++ (if archives (remote s) then both_uploads else []).
Proof.
  rewrite pipeline_phases.
  rewrite (adds_uploads (after_sitemap s)).
  2:{ eapply adds_impl; [apply no_stage_no_upload | apply final_cleanup_adds]. }
  unfold after_sitemap.
  rewrite (adds_uploads (after_archival s)).
  2:{ eapply adds_impl; [| apply sitemap_adds]. simpl. tauto. }
  unfold after_archival. rewrite archival_uploads.
  rewrite after_generate_remote, after_generate_uploads. reflexivity.
Qed.

Lemma oldump_sh_uploads s :
  uploads (trace (snd (oldump_sh w args s))) =
  uploads (trace s) ++ (if archives (remote s) then both_uploads else []).
Proof.
  destruct (Nat.ltb (List.length args) 1) eqn:Hn.
  - unfold oldump_sh. rewrite Hn. unfold archives, archive, arg.
    destruct args as [| a rest]; [| discriminate]. simpl.
    rewrite uploads_app. reflexivity.
  - unfold oldump_sh. rewrite Hn. apply pipeline_uploads.
Qed.

Lemma oldump_sh_remote_kept s :
  archives (remote s) = false -> remote (snd (oldump_sh w args s)) = remote s.
Proof.
  intros E. unfold oldump_sh. destruct (Nat.ltb (List.length args) 1); [reflexivity |].
  rewrite pipeline_phases, final_cleanup_remote. unfold after_sitemap.
  rewrite sitemap_remote. unfold after_archival.
  rewrite archival_remote_kept; rewrite after_generate_remote; auto.
Qed.

End Run.

(** ** The calls of the [ia] client *)

Definition no_ia (e : Event) : Prop := ia_commands [e] = [].

Lemma ia_commands_app a b :
  ia_commands (a ++ b) = ia_commands a ++ ia_commands b.
Proof. unfold ia_commands. rewrite commands_app. apply filter_app. Qed.

Lemma ia_commands_nil evs : Forall no_ia evs -> ia_commands evs = [].
Proof.
  induction 1 as [| e t He _ IH]; [reflexivity |].
  change (e :: t) with ([e] ++ t). rewrite ia_commands_app, He, IH.
  reflexivity.
Qed.

Lemma adds_ia s s' :
  adds no_ia s s' -> ia_commands (trace s') = ia_commands (trace s).
Proof.
  intros (evs & -> & F). rewrite ia_commands_app, (ia_commands_nil evs F).
  apply app_nil_r.
Qed.

Section Ia.
Variables (w : World) (args : list string).

Lemma overwrite_check_no_ia : keeps (adds no_ia) (overwrite_check args).
Proof. unfold_stages. frame (adds_refl no_ia) (adds_trans no_ia). Qed.

Lemma generate_no_ia : keeps (adds no_ia) (generate w args).
Proof. unfold_stages. frame (adds_refl no_ia) (adds_trans no_ia). Qed.

Lemma sitemap_no_ia : keeps (adds no_ia) (sitemap_stage args).
Proof. unfold_stages. frame (adds_refl no_ia) (adds_trans no_ia). Qed.

Lemma final_cleanup_no_ia : keeps (adds no_ia) (final_cleanup w).
Proof. unfold_stages. frame (adds_refl no_ia) (adds_trans no_ia). Qed.

(** What the archiver asks of [ia] when it runs. *)
Definition archiver_calls (r : Remote) : list Cmd :=
  [IaVersion; IaList (dump args)] ++
  (if Nat.eqb (List.length (ia_list w r (dump args))) 0
   then [IaUpload (ia_upload_cmd w (dump args));
         IaUpload (ia_upload_cmd w (cdump args))]
   else []).

Definition archiver_runs : bool :=
  (archive args =? "--archive")%string && negb (testing w).

Lemma archival_ia s :
  ia_commands (trace (snd (archival w args s))) =
  ia_commands (trace s)
  ++ (if archiver_runs then archiver_calls (remote s) else []).
Proof.
  unfold archival, archiver_runs, archiver_calls.
  destruct (archive args =? "--archive")%string; simpl;
    [| rewrite app_nil_r; reflexivity].
  destruct (negb (testing w)); simpl; [| rewrite app_nil_r; reflexivity].
  rewrite seq_run. simpl.
  destruct (Nat.eqb (List.length (ia_list w (remote s) (dump args))) 0) eqn:E.
  - apply length_zero in E. rewrite (archive_dumps_absent w args s E). simpl.
    rewrite ia_commands_app. reflexivity.
  - assert (H : ia_list w (remote s) (dump args) <> []).
    { intros H. apply length_zero in H. congruence. }
    rewrite (archive_dumps_present w args s H). simpl.
    rewrite ia_commands_app. reflexivity.
Qed.

Lemma oldump_sh_ia s :
  ia_commands (trace (snd (oldump_sh w args s))) =
  ia_commands (trace s)
  ++ (if archiver_runs then archiver_calls (remote s) else []).
Proof.
  destruct (Nat.ltb (List.length args) 1) eqn:Hn.
  - unfold oldump_sh. rewrite Hn. unfold archiver_runs, archive, arg.
    destruct args as [| a rest]; [| discriminate]. simpl.
    rewrite ia_commands_app. reflexivity.
  - unfold oldump_sh. rewrite Hn. rewrite pipeline_phases.
    rewrite (adds_ia _ _ (final_cleanup_no_ia _)). unfold after_sitemap.
    rewrite (adds_ia _ _ (sitemap_no_ia _)). unfold after_archival.
    rewrite archival_ia, after_generate_remote.
    unfold after_generate, after_overwrite_check.
    rewrite (adds_ia _ _ (generate_no_ia _)).
    rewrite (adds_ia _ _ (overwrite_check_no_ia _)). reflexivity.
Qed.

End Ia.

(** ** The archiver's contract *)

(** C4.  When the existence query reports the item of the full dump as
    present, the archiver uploads nothing and returns success, and so
    the whole run uploads nothing and leaves the archive as it was. *)
Theorem archive_skips_present_item (w : World) (args : list string) (s : St) :
  ia_list w (remote s) (dump args) <> [] ->
  fst (archive_dumps w args s) = 0%Z /\
  uploads (trace (snd (archive_dumps w args s))) = uploads (trace s) /\
  remote (snd (archive_dumps w args s)) = remote s /\
  uploads (trace (snd (oldump_sh w args s))) = uploads (trace s) /\
  remote (snd (oldump_sh w args s)) = remote s.
Proof.
  intros H.
  assert (E : archives w args (remote s) = false).
  { unfold archives. destruct (ia_list w (remote s) (dump args));
      [congruence |]. simpl. apply andb_false_r. }
  rewrite (archive_dumps_present w args s H). simpl.
  rewrite uploads_app. simpl. rewrite app_nil_r.
  rewrite oldump_sh_uploads, E, app_nil_r.
  rewrite (oldump_sh_remote_kept w args s E). auto.
Qed.

Lemma archive_skips_present_item_witness :
  ia_list (sample_world "") archive_with_dump
    (dump ["2024-05-10"; "--archive"]) <> [] /\
  uploads (trace (snd (oldump_sh (sample_world "")
                         ["2024-05-10"; "--archive"]
                         (start empty_fs archive_with_dump)))) = [].
Proof.
  split; [discriminate |].
  apply (archive_skips_present_item (sample_world "")
           ["2024-05-10"; "--archive"] (start empty_fs archive_with_dump)).
  discriminate.
Defined.

(** C6.  Every upload of a run carries the three metadata fields
    collection, year and format and no other, with a retry budget of
    300; and the two uploads are issued together, whatever status [ia]
    returns for the first. *)
Theorem upload_metadata_and_retries
  (w : World) (args : list string) (f : FS) (r : Remote) (u : Upload) :
  In u (uploads (trace (snd (run w args f r)))) ->
  map fst (metadata u) = ["collection"; "year"; "format"]%string /\
  metadata u = [("collection", "ol_exports");
                ("year", substring 0 4 (today_yymm w));
                ("format", "Data")]%string /\
  retries u = 300 /\
  (item u = dump args \/ item u = cdump args) /\
  uploads (trace (snd (run w args f r))) =
    [ia_upload_cmd w (dump args); ia_upload_cmd w (cdump args)].
Proof.
  unfold run. rewrite oldump_sh_uploads. simpl.
  destruct (archives w args r); [| intros []].
  unfold both_uploads. intros [<- | [<- | []]]; simpl; auto 10.
Qed.

Lemma upload_metadata_and_retries_witness :
  In (ia_upload_cmd (sample_world "") "ol_cdump_2024-05-10")
     (uploads (trace (snd (run (sample_world "") ["2024-05-10"; "--archive"]
                             empty_fs [])))) /\
  retries (ia_upload_cmd (sample_world "") "ol_cdump_2024-05-10") = 300.
Proof.
  assert (H : In (ia_upload_cmd (sample_world "") "ol_cdump_2024-05-10")
     (uploads (trace (snd (run (sample_world "") ["2024-05-10"; "--archive"]
                             empty_fs [])))))
    by (vm_compute; auto).
  split; [exact H |].
  apply (upload_metadata_and_retries (sample_world "")
           ["2024-05-10"; "--archive"] empty_fs [] _ H).
Defined.

(** C10.  In a run that archives, the one existence query names the
    full dump, and the change-history dump is uploaded exactly when that
    query finds nothing; when the full dump is there, nothing is
    uploaded, whether or not the change-history item exists. *)
Theorem cdump_upload_follows_dump_query
  (w : World) (args : list string) (f : FS) (r : Remote) :
  archive args = "--archive"%string ->
  OLDUMP_TESTING w = ""%string ->
  let tr := trace (snd (run w args f r)) in
  filter (fun c => match c with IaList _ => true | _ => false end)
         (commands tr) = [IaList (dump args)] /\
  (In (ia_upload_cmd w (cdump args)) (uploads tr) <->
   ia_list w r (dump args) = []) /\
  (ia_list w r (dump args) <> [] -> uploads tr = []).
Proof.
  intros Ha Ht tr.
  assert (Hu : uploads tr =
               if Nat.eqb (List.length (ia_list w r (dump args))) 0
               then both_uploads w args else []).
  { unfold tr, run. rewrite oldump_sh_uploads. simpl. unfold archives, testing.
    rewrite Ha, Ht. reflexivity. }
  assert (Hi : ia_commands tr = archiver_calls w args r).
  { unfold tr, run. rewrite oldump_sh_ia. simpl.
    unfold archiver_runs, testing. rewrite Ha, Ht. reflexivity. }
  split; [| split].
  - assert (Hq : forall l,
      filter (fun c => match c with IaList _ => true | _ => false end) l =
      filter (fun c => match c with IaList _ => true | _ => false end)
             (filter is_ia l)).
    { induction l as [| c t IH]; simpl; [reflexivity |].
      destruct c; simpl; rewrite <- IH; reflexivity. }
    rewrite Hq. fold (ia_commands tr). rewrite Hi. unfold archiver_calls.
    destruct (Nat.eqb (List.length (ia_list w r (dump args))) 0); reflexivity.
  - rewrite Hu.
    destruct (Nat.eqb (List.length (ia_list w r (dump args))) 0) eqn:E.
    + apply length_zero in E. split; [auto |]. intros _.
      unfold both_uploads. simpl. auto.
    + split; [intros [] |]. intros H. apply length_zero in H. congruence.
  - intros H. rewrite Hu.
    destruct (Nat.eqb (List.length (ia_list w r (dump args))) 0) eqn:E;
      [| reflexivity].
    apply length_zero in E. congruence.
Qed.

Lemma cdump_upload_follows_dump_query_witness :
  archive ["2024-05-10"; "--archive"] = "--archive"%string /\
  OLDUMP_TESTING (sample_world "") = ""%string /\
  ia_list (sample_world "") archive_with_dump "ol_cdump_2024-05-10" = [] /\
  uploads (trace (snd (run (sample_world "") ["2024-05-10"; "--archive"]
                         empty_fs archive_with_dump))) = [].
Proof.
  split; [reflexivity |]. split; [reflexivity |]. split; [reflexivity |].
  apply (cdump_upload_follows_dump_query (sample_world "")
           ["2024-05-10"; "--archive"] empty_fs archive_with_dump
           eq_refl eq_refl).
  discriminate.
Defined.

(** ** The raw extract in a test run *)

Lemma lookup_redirect_other x n d l :
  x <> n -> lookup x (redirect n d l) = lookup x l.
Proof.
  intros H. unfold redirect. destruct (lookup n l) as [[? | ?] |];
    try reflexivity; apply lookup_put_other; exact H.
Qed.

Lemma lookup_write_files_other x files : forall l,
  ~ In x (map fst files) -> lookup x (write_files files l) = lookup x l.
Proof.
  induction files as [| [n d] t IH]; intros l H; simpl; [reflexivity |].
  simpl in H. rewrite IH by tauto. apply lookup_redirect_other.
  intros ->. tauto.
Qed.

Lemma lookup_mkdir_other x n l : x <> n -> lookup x (mkdir_p n l) = lookup x l.
Proof.
  intros H. unfold mkdir_p. destruct (lookup n l); [reflexivity |].
  apply lookup_put_other. exact H.
Qed.

Lemma lookup_mv_into_dir_other x t srcs : forall l,
  ~ In x srcs -> x <> t -> lookup x (mv_into_dir srcs t l) = lookup x l.
Proof.
  induction srcs as [| s rest IH]; intros l Hx Ht; simpl; [reflexivity |].
  simpl in Hx. rewrite IH by tauto.
  destruct (lookup s l) as [n |]; [| reflexivity].
  destruct (lookup t l) as [[? | es] |]; try reflexivity.
  destruct (s =? t)%string; [reflexivity |].
  destruct (move_into s n es); [| reflexivity].
  rewrite lookup_put_other by exact Ht.
  apply lookup_remove_other. intros ->. tauto.
Qed.

Lemma lookup_rename_other x s t l :
  x <> s -> x <> t -> lookup x (rename s t l) = lookup x l.
Proof.
  intros Hs Ht. unfold rename. destruct (lookup s l) as [n |]; [| reflexivity].
  destruct (s =? t)%string; [reflexivity |].
  destruct (lookup t l) as [[? | ?] |], n; try reflexivity;
    rewrite lookup_put_other by exact Ht; apply lookup_remove_other; exact Hs.
Qed.

Lemma lookup_mv_other x srcs t l :
  ~ In x srcs -> x <> t -> lookup x (mv srcs t l) = lookup x l.
Proof.
  intros Hx Ht. unfold mv.
  destruct (lookup t l) as [[? | ?] |].
  - destruct srcs as [| s [| ? ?]]; try reflexivity.
    apply lookup_rename_other; [intros -> ; simpl in Hx; tauto | exact Ht].
  - apply lookup_mv_into_dir_other; assumption.
  - destruct srcs as [| s [| ? ?]]; try reflexivity.
    apply lookup_rename_other; [intros -> ; simpl in Hx; tauto | exact Ht].
Qed.

Lemma lookup_filter_keep (keep : string -> bool) x (l : Listing) :
  keep x = true ->
  lookup x (filter (fun e => keep (fst e)) l) = lookup x l.
Proof.
  intros Hx. induction l as [| [n y] t IH]; simpl; [reflexivity |].
  destruct (String.eqb_spec n x) as [-> | Hn].
  - rewrite Hx. simpl. rewrite String.eqb_refl. reflexivity.
  - destruct (keep n); simpl; [| exact IH].
    apply String.eqb_neq in Hn. rewrite Hn. exact IH.
Qed.


(** The file [data.txt.gz] of the dump directory is as it was. *)
Definition data_kept (s s' : St) : Prop :=
  lookup "data.txt.gz" (dumps (fs s')) = lookup "data.txt.gz" (dumps (fs s)).

Lemma data_kept_refl s : data_kept s s.
Proof. reflexivity. Qed.

Lemma data_kept_trans a b c : data_kept a b -> data_kept b c -> data_kept a c.
Proof. unfold data_kept. congruence. Qed.

Lemma keeps_get_dumps_link {B} (R : St -> St -> Prop) (k : Listing -> M B) :
  (forall s, R s (snd (k (dumps (fs s)) s))) -> keeps R (bind get_dumps k).
Proof. intros H s. unfold bind, get_dumps. apply H. Qed.

Lemma data_emit e : keeps data_kept (emit e).
Proof. intros s. reflexivity. Qed.
Lemma data_set_tmp_data d : keeps data_kept (set_tmp_data d).
Proof. intros s. reflexivity. Qed.
Lemma data_set_sitemaps b : keeps data_kept (set_sitemaps b).
Proof. intros s. reflexivity. Qed.
Lemma data_set_oldumpsort b : keeps data_kept (set_oldumpsort b).
Proof. intros s. reflexivity. Qed.

Lemma data_run_to_file c out name :
  name <> "data.txt.gz"%string -> keeps data_kept (run_to_file c out name).
Proof.
  intros H s. unfold run_to_file. rewrite seq_run.
  unfold bind, get_dumps, set_dumps, data_kept. simpl.
  apply lookup_redirect_other. congruence.
Qed.

Ltac data_frame :=
  repeat first
    [ match goal with
      | |- keeps _ (run_to_file _ _ _) =>
          apply data_run_to_file; unfold cdump, dump; cbn; discriminate
      end
    | apply (keeps_bind _ data_kept_trans)
    | apply (keeps_if _)
    | apply (keeps_when _ data_kept_refl)
    | apply (keeps_ret _ data_kept_refl)
    | apply (keeps_get_dumps _ data_kept_refl)
    | apply (keeps_get_sitemaps _ data_kept_refl)
    | apply data_emit | apply data_set_tmp_data | apply data_set_sitemaps
    | apply data_set_oldumpsort
    | match goal with |- forall _, _ => intro end ].

Section Data.
Variables (w : World) (args : list string).

Lemma cleanup_data : keeps data_kept cleanup.
Proof.
  unfold cleanup.
  do 3 (apply (keeps_bind _ data_kept_trans); [data_frame | intros _]).
  apply keeps_get_dumps_link. intros s. unfold data_kept. simpl.
  apply (lookup_filter_keep
           (fun n => negb (glob (lits "ol_" ++ [Star]) n))).
  reflexivity.
Qed.

Lemma overwrite_check_data : keeps data_kept (overwrite_check args).
Proof.
  unfold overwrite_check. apply (keeps_when _ data_kept_refl).
  apply (keeps_bind _ data_kept_trans); [unfold log; data_frame | intros _].
  apply cleanup_data.
Qed.

Lemma split_files_names x files :
  In x (map fst (split_files args files)) ->
  is_prefix "ol_dump_" x = true.
Proof.
  unfold split_files. rewrite map_map. rewrite in_map_iff.
  intros (td & <- & _). reflexivity.
Qed.

Lemma split_stage_data : keeps data_kept (split_stage w args).
Proof.
  unfold split_stage, matches, is_file.
  do 2 (apply (keeps_bind _ data_kept_trans); [data_frame | intros ?]).
  apply keeps_if; [| data_frame].
  do 2 (apply (keeps_bind _ data_kept_trans); [data_frame | intros _]).
  apply keeps_get_dumps_link. intros s. rewrite !seq_run.
  unfold data_kept. simpl.
  apply lookup_write_files_other. intros H.
  apply split_files_names in H. discriminate.
Qed.

Lemma pat_any_dump_prefix n :
  glob pat_any_dump n = true -> is_prefix "ol_dump_" n = true.
Proof. apply (glob_lits_prefix "ol_dump_"). Qed.

Lemma collect_data : keeps data_kept (collect args).
Proof.
  unfold collect. apply keeps_get_dumps_link. intros s.
  unfold data_kept. simpl.
  rewrite lookup_mv_other.
  - rewrite lookup_mv_other.
    + rewrite lookup_mkdir_other by (unfold cdump; discriminate).
      apply lookup_mkdir_other. unfold dump. discriminate.
    + intros H. apply compgen_In in H. destruct H as [_ H].
      apply pat_any_dump_prefix in H. discriminate.
    + unfold dump. discriminate.
  - unfold cdump. simpl. intros [H | []]. discriminate.
  - unfold cdump. discriminate.
Qed.

Hypothesis test_run : OLDUMP_TESTING w <> ""%string.

Lemma testing_on : testing w = true.
Proof.
  unfold testing. apply String.eqb_neq in test_run. rewrite test_run.
  reflexivity.
Qed.

Lemma raw_extract_data : keeps data_kept (raw_extract_stage w).
Proof.
  unfold raw_extract_stage, is_file, log. rewrite testing_on. data_frame.
Qed.

Lemma generate_data : keeps data_kept (generate w args).
Proof.
  unfold generate, matches, is_dir.
  do 2 (apply (keeps_bind _ data_kept_trans); [data_frame | intros ?]).
  apply keeps_if; [| unfold log; data_frame].
  apply (keeps_bind _ data_kept_trans);
    [unfold reading_log_stage, matches, is_file, log; data_frame | intros _].
  apply (keeps_bind _ data_kept_trans);
    [unfold ratings_stage, matches, is_file, log; data_frame | intros _].
  apply (keeps_bind _ data_kept_trans); [apply raw_extract_data | intros _].
  apply (keeps_bind _ data_kept_trans);
    [unfold cdump_stage, matches, is_file, log; data_frame | intros _].
  apply (keeps_bind _ data_kept_trans);
    [unfold dump_stage, matches, is_file, log; data_frame | intros _].
  apply (keeps_bind _ data_kept_trans); [apply split_stage_data | intros _].
  apply (keeps_bind _ data_kept_trans); [apply collect_data | intros _].
  unfold log. data_frame.
Qed.

End Data.

(** ** What the archival step touches *)

Definition archival_event (e : Event) : Prop :=
  match e with
  | Run c => is_ia c = true
  | Log _ => True
  | Echo _ => False
  end.

Lemma archival_cases (w : World) (args : list string) (s : St) :
  snd (archival w args s) = s \/
  exists st, archival w args s = (tt, snd (archive_dumps w args s)) /\
             st = fst (archive_dumps w args s).
Proof.
  unfold archival.
  destruct (archive args =? "--archive")%string; [| left; reflexivity].
  destruct (negb (testing w)); [| left; reflexivity].
  right. exists (fst (archive_dumps w args s)). split; [| reflexivity].
  unfold bind. destruct (archive_dumps w args s). reflexivity.
Qed.

Lemma archive_dumps_shape (w : World) (args : list string) (s : St) :
  exists r' evs,
    snd (archive_dumps w args s) = mkSt (fs s) r' (trace s ++ evs) /\
    Forall archival_event evs.
Proof.
  destruct (ia_list w (remote s) (dump args)) as [| x t] eqn:E.
  - rewrite (archive_dumps_absent w args s E). simpl.
    eexists. eexists. split; [reflexivity |].
    unfold version_events. repeat constructor.
  - assert (H : ia_list w (remote s) (dump args) <> []) by congruence.
    rewrite (archive_dumps_present w args s H). simpl.
    eexists. eexists. split; [reflexivity |].
    unfold version_events. repeat constructor.
Qed.

Lemma archival_fs (w : World) (args : list string) (s : St) :
  fs (snd (archival w args s)) = fs s.
Proof.
  destruct (archival_cases w args s) as [-> | (st & -> & _)]; [reflexivity |].
  destruct (archive_dumps_shape w args s) as (r' & evs & -> & _).
  reflexivity.
Qed.

Lemma archival_adds (w : World) (args : list string) :
  keeps (adds archival_event) (archival w args).
Proof.
  intros s.
  destruct (archival_cases w args s) as [-> | (st & -> & _)];
    [apply adds_refl |].
  destruct (archive_dumps_shape w args s) as (r' & evs & -> & F).
  exists evs. auto.
Qed.

Lemma archival_event_no_generation e : archival_event e -> no_generation e.
Proof.
  destruct e as [c | |]; simpl; try reflexivity.
  destruct c; simpl; try discriminate; reflexivity.
Qed.

(** ** Exit status *)

Lemma oldump_sh_status (w : World) (args : list string) (s : St) :
  fst (oldump_sh w args s) = if Nat.ltb (List.length args) 1 then 1%Z else 0%Z.
Proof.
  unfold oldump_sh. destruct (Nat.ltb (List.length args) 1).
  - reflexivity.
  - rewrite pipeline_phases. apply final_cleanup_status.
Qed.

(** ** Test runs *)

Lemma sitemap_data (args : list string) : keeps data_kept (sitemap_stage args).
Proof. unfold sitemap_stage, log. data_frame. Qed.

Lemma final_cleanup_data (w : World) : keeps data_kept (final_cleanup w).
Proof. unfold final_cleanup. data_frame. Qed.

(** C7.  With [OLDUMP_TESTING] set, a run calls the [ia] client not at
    all (so it uploads nothing, even with [--archive]) and leaves the
    archive as it was; the clean-up block that ends the script does
    nothing; and the raw extract [data.txt.gz] of the dump directory is
    at the end what it was at the start. *)
Theorem testing_suppresses_archive_and_cleanup
  (w : World) (args : list string) (f : FS) (r : Remote) :
  OLDUMP_TESTING w <> ""%string ->
  let s' := snd (run w args f r) in
  ia_commands (trace s') = [] /\
  uploads (trace s') = [] /\
  remote s' = r /\
  (forall s, final_cleanup w s = (0%Z, s)) /\
  lookup "data.txt.gz" (dumps (fs s')) = lookup "data.txt.gz" (dumps f).
Proof.
  intros Ht s'. pose proof (testing_on w Ht) as Hon.
  assert (Ha : archives w args r = false).
  { unfold archives. rewrite Hon. simpl. rewrite andb_false_r. reflexivity. }
  split; [| split; [| split; [| split]]].
  - unfold s', run. rewrite oldump_sh_ia. unfold archiver_runs.
    rewrite Hon. simpl. rewrite andb_false_r. reflexivity.
  - unfold s', run. rewrite oldump_sh_uploads. simpl. rewrite Ha. reflexivity.
  - unfold s', run. apply (oldump_sh_remote_kept w args (start f r)). exact Ha.
  - intros s. unfold final_cleanup. rewrite Hon. reflexivity.
  - unfold s', run, oldump_sh.
    destruct (Nat.ltb (List.length args) 1); [reflexivity |].
    rewrite pipeline_phases.
    rewrite final_cleanup_data. unfold after_sitemap.
    rewrite sitemap_data. unfold after_archival.
    rewrite archival_fs. unfold after_generate.
    rewrite (generate_data w args Ht). unfold after_overwrite_check.
    rewrite overwrite_check_data. reflexivity.
Qed.

Lemma testing_suppresses_archive_and_cleanup_witness :
  OLDUMP_TESTING (sample_world "true") <> ""%string /\
  uploads (trace (snd (run (sample_world "true")
                         ["2024-05-10"; "--archive"] empty_fs []))) = [].
Proof.
  split; [discriminate |].
  apply (testing_suppresses_archive_and_cleanup (sample_world "true")
           ["2024-05-10"; "--archive"] empty_fs []).
  discriminate.
Defined.

(** ** The overwrite flag *)

Lemma glob_prefix_star a s : glob (lits a ++ [Star]) s = is_prefix a s.
Proof.
  revert s. induction a as [| c a IH]; intros s.
  - apply glob_star_any.
  - simpl. destruct s as [| c' s]; [reflexivity |]. rewrite IH. reflexivity.
Qed.








Lemma overwrite_check_off args s :
  overwrite_requested args = false -> overwrite_check args s = (tt, s).
Proof. intros H. unfold overwrite_check. rewrite H. reflexivity. Qed.



Section FileStages.
Variables (w : World) (args : list string).







End FileStages.




(** ** The second run *)

Lemma In_lookup n (l : Listing) : In n (map fst l) -> lookup n l <> None.
Proof.
  induction l as [| [m y] t IH]; simpl; [tauto |].
  destruct (String.eqb_spec m n) as [-> | Hn]; [discriminate |].
  intros [H | H]; [congruence | auto].
Qed.

Lemma In_names_put n m x (l : Listing) :
  In n (map fst (put m x l)) -> n = m \/ In n (map fst l).
Proof.
  induction l as [| [k y] t IH]; simpl.
  - intros [<- | []]. auto.
  - destruct (k =? m)%string; simpl; intros [H | H]; auto.
    destruct (IH H); auto.
Qed.

Lemma In_names_redirect n m d (l : Listing) :
  In n (map fst (redirect m d l)) -> n = m \/ In n (map fst l).
Proof.
  unfold redirect. destruct (lookup m l) as [[? | ?] |]; auto;
    apply In_names_put.
Qed.

Lemma prefixes_comparable a b n :
  is_prefix a n = true -> is_prefix b n = true ->
  is_prefix a b = true \/ is_prefix b a = true.
Proof.
  revert b n. induction a as [| c a IH]; intros b n; simpl; [auto |].
  destruct n as [| c' n]; [discriminate |].
  destruct b as [| c'' b]; simpl; [auto |].
  intros Ha Hb. apply andb_true_iff in Ha, Hb.
  destruct Ha as [Hc Ha], Hb as [Hc' Hb].
  apply Ascii.eqb_eq in Hc, Hc'. subst c' c''. rewrite !Ascii.eqb_refl. simpl.
  eapply IH; eassumption.
Qed.

Lemma compgen_mv_into_dir_other p t srcs : forall l,
  (forall s, In s srcs -> glob p s = false) -> glob p t = false ->
  compgen_G p (mv_into_dir srcs t l) = compgen_G p l.
Proof.
  induction srcs as [| s rest IH]; intros l Hs Ht; simpl; [reflexivity |].
  rewrite IH by (auto; intros; apply Hs; right; assumption).
  destruct (lookup s l) as [n |]; [| reflexivity].
  destruct (lookup t l) as [[? | es] |]; try reflexivity.
  destruct (s =? t)%string; [reflexivity |].
  destruct (move_into s n es); [| reflexivity].
  rewrite compgen_put_other by exact Ht.
  apply compgen_remove_other. apply Hs. left. reflexivity.
Qed.

Lemma compgen_rename_other p s t l :
  glob p s = false -> glob p t = false ->
  compgen_G p (rename s t l) = compgen_G p l.
Proof.
  intros Hs Ht. unfold rename. destruct (lookup s l) as [n |]; [| reflexivity].
  destruct (s =? t)%string; [reflexivity |].
  destruct (lookup t l) as [[? | ?] |], n; try reflexivity;
    rewrite compgen_put_other by exact Ht; apply compgen_remove_other;
    exact Hs.
Qed.

Lemma compgen_mv_other p srcs t l :
  (forall s, In s srcs -> glob p s = false) -> glob p t = false ->
  compgen_G p (mv srcs t l) = compgen_G p l.
Proof.
  intros Hs Ht. unfold mv. destruct (lookup t l) as [[? | ?] |].
  - destruct srcs as [| s [| ? ?]]; try reflexivity.
    apply compgen_rename_other; [apply Hs; left; reflexivity | exact Ht].
  - apply compgen_mv_into_dir_other; assumption.
  - destruct srcs as [| s [| ? ?]]; try reflexivity.
    apply compgen_rename_other; [apply Hs; left; reflexivity | exact Ht].
Qed.

Lemma compgen_mkdir_other p n l :
  glob p n = false -> compgen_G p (mkdir_p n l) = compgen_G p l.
Proof.
  intros H. unfold mkdir_p. destruct (lookup n l); [reflexivity |].
  apply compgen_put_other. exact H.
Qed.

Section Rerun.
Variables (w : World) (args : list string).

Hypothesis this_month : is_prefix (today_yymm w) (yymmdd args) = true.

Let c := cdump args.
Let ctxt := (cdump args ++ ".txt.gz")%string.

Lemma done_matches_cdump : glob (pat_done w) (cdump args) = true.
Proof.
  unfold pat_done, cdump, yymm.
  destruct (is_prefix_app _ _ this_month) as [rest ->].
  rewrite glob_lits_app, glob_lits_app. apply glob_star_any.
Qed.

Lemma done_prefix n :
  glob (pat_done w) n = true -> is_prefix "ol_cdump_" n = true.
Proof. apply (glob_lits_prefix "ol_cdump_"). Qed.

Lemma done_not_dump n :
  is_prefix "ol_dump_" n = true -> glob (pat_done w) n = false.
Proof.
  intros H. destruct (glob (pat_done w) n) eqn:G; [| reflexivity].
  apply done_prefix in G.
  destruct (prefixes_comparable _ _ _ G H) as [X | X]; discriminate X.
Qed.

Lemma done_not_data : glob (pat_done w) "data.txt.gz" = false.
Proof.
  destruct (glob (pat_done w) "data.txt.gz") eqn:G; [| reflexivity].
  apply done_prefix in G. discriminate G.
Qed.

Lemma cdump_txt_neq : ctxt <> c.
Proof. apply append_neq_self. discriminate. Qed.

(** Every match of the done-test is the history file of this run. *)
Definition only_history (l : Listing) : Prop :=
  forall n, In n (compgen_G (pat_done w) l) -> n = ctxt.

Lemma only_history_redirect name d l :
  glob (pat_done w) name = false \/ name = ctxt ->
  only_history l -> only_history (redirect name d l).
Proof.
  intros Hname Hl n Hn. apply compgen_In in Hn. destruct Hn as [Hin Hg].
  apply In_names_redirect in Hin. destruct Hin as [-> | Hin].
  - destruct Hname as [Hname | Hname]; [congruence | exact Hname].
  - apply Hl. apply compgen_In. auto.
Qed.

Lemma only_history_write_files files : forall l,
  (forall n, In n (map fst files) -> glob (pat_done w) n = false) ->
  only_history l -> only_history (write_files files l).
Proof.
  induction files as [| [n d] t IH]; intros l Hf Hl; simpl; [exact Hl |].
  apply IH.
  - intros m Hm. apply Hf. right. exact Hm.
  - apply only_history_redirect; [| exact Hl]. left. apply Hf. left.
    reflexivity.
Qed.

Definition history_kept (s s' : St) : Prop :=
  only_history (dumps (fs s)) -> only_history (dumps (fs s')).

Lemma history_kept_refl s : history_kept s s.
Proof. intros H. exact H. Qed.

Lemma history_kept_trans a b d :
  history_kept a b -> history_kept b d -> history_kept a d.
Proof. unfold history_kept. auto. Qed.

Lemma history_emit e : keeps history_kept (emit e).
Proof. intros s H. exact H. Qed.
Lemma history_set_oldumpsort b : keeps history_kept (set_oldumpsort b).
Proof. intros s H. exact H. Qed.

Lemma history_run_to_file cmd out name :
  glob (pat_done w) name = false \/ name = ctxt ->
  keeps history_kept (run_to_file cmd out name).
Proof.
  intros H s. unfold run_to_file. rewrite seq_run.
  unfold bind, get_dumps, set_dumps, history_kept. simpl.
  apply only_history_redirect. exact H.
Qed.

Ltac history_frame :=
  repeat first
    [ match goal with
      | |- keeps _ (run_to_file _ _ _) =>
          apply history_run_to_file;
          first [ right; reflexivity
                | left; apply done_not_dump; reflexivity
                | left; apply done_not_data ]
      end
    | apply (keeps_bind _ history_kept_trans)
    | apply (keeps_if _)
    | apply (keeps_when _ history_kept_refl)
    | apply (keeps_ret _ history_kept_refl)
    | apply (keeps_get_dumps _ history_kept_refl)
    | apply history_emit | apply history_set_oldumpsort
    | match goal with |- forall _, _ => intro end ].

Lemma split_stage_history : keeps history_kept (split_stage w args).
Proof.
  unfold split_stage, matches, is_file.
  do 2 (apply (keeps_bind _ history_kept_trans); [history_frame | intros ?]).
  apply keeps_if; [| history_frame].
  do 2 (apply (keeps_bind _ history_kept_trans); [history_frame | intros _]).
  apply keeps_get_dumps_link. intros s. rewrite !seq_run.
  unfold history_kept. simpl.
  apply only_history_write_files. intros n Hn.
  apply done_not_dump. apply (split_files_names args _ _ Hn).
Qed.

(** The six stages of lines 117-179. *)
Definition produce : M unit :=
  reading_log_stage w args ;;; ratings_stage w args ;;;
  raw_extract_stage w ;;; cdump_stage w args ;;; dump_stage w args ;;;
  split_stage w args.

Lemma produce_history : keeps history_kept produce.
Proof.
  unfold produce.
  apply (keeps_bind _ history_kept_trans);
    [unfold reading_log_stage, matches, is_file, log; history_frame | intros _].
  apply (keeps_bind _ history_kept_trans);
    [unfold ratings_stage, matches, is_file, log; history_frame | intros _].
  apply (keeps_bind _ history_kept_trans);
    [unfold raw_extract_stage, is_file, log; history_frame | intros _].
  apply (keeps_bind _ history_kept_trans);
    [unfold cdump_stage, matches, is_file, log; history_frame | intros _].
  apply (keeps_bind _ history_kept_trans);
    [unfold dump_stage, matches, is_file, log; history_frame | intros _].
  apply split_stage_history.
Qed.

(** What lines 181-183 leave. *)
Definition collected (l : Listing) : Listing :=
  let l1 := mkdir_p (cdump args) (mkdir_p (dump args) l) in
  let l2 := mv (compgen_G pat_any_dump l1) (dump args) l1 in
  mv [ctxt] (cdump args) l2.

Lemma filter_all_out (l : list string) x :
  (forall n, In n l -> n = x) ->
  filter (fun m => negb (m =? x)%string) l = [].
Proof.
  induction l as [| a t IH]; intros H; simpl; [reflexivity |].
  rewrite (H a (or_introl eq_refl)), String.eqb_refl. simpl.
  apply IH. intros n Hn. apply H. right. exact Hn.
Qed.

Lemma collected_done l :
  only_history l ->
  compgen_G (pat_done w) (collected l) = [c] /\
  exists es, lookup c (collected l) = Some (Dir es).
Proof.
  intros Hl. unfold collected.
  assert (Hd : glob (pat_done w) (dump args) = false)
    by (apply done_not_dump; reflexivity).
  assert (Hcd : c <> dump args) by (unfold c, cdump, dump; discriminate).
  assert (Hxd : ctxt <> dump args)
    by (unfold ctxt, cdump, dump; discriminate).
  assert (Hc0 : lookup c l = None).
  { apply lookup_None. intros Hin.
    assert (Hm : In c (compgen_G (pat_done w) l))
      by (apply compgen_In; split; [exact Hin | apply done_matches_cdump]).
    apply Hl in Hm. symmetry in Hm. exact (cdump_txt_neq Hm). }
  set (l0 := mkdir_p (dump args) l).
  assert (Hc1 : lookup c l0 = None)
    by (unfold l0; rewrite lookup_mkdir_other; assumption).
  assert (G0 : compgen_G (pat_done w) l0 = compgen_G (pat_done w) l)
    by (apply compgen_mkdir_other; exact Hd).
  set (l1 := mkdir_p (cdump args) l0).
  assert (E1 : l1 = put c (Dir []) l0).
  { unfold l1, mkdir_p. fold c. rewrite Hc1. reflexivity. }
  assert (G1 : compgen_G (pat_done w) l1 = compgen_G (pat_done w) l ++ [c]).
  { rewrite E1, compgen_put_absent, G0;
      [reflexivity | exact Hc1 | apply done_matches_cdump]. }
  assert (L1 : lookup c l1 = Some (Dir [])).
  { rewrite E1. apply lookup_put_same. }
  assert (X1 : lookup ctxt l1 = lookup ctxt l).
  { rewrite E1, lookup_put_other by exact cdump_txt_neq.
    unfold l0. apply lookup_mkdir_other. exact Hxd. }
  set (srcs := compgen_G pat_any_dump l1).
  assert (Hsrcs : forall s, In s srcs -> is_prefix "ol_dump_" s = true).
  { intros s Hs. apply compgen_In in Hs. destruct Hs as [_ Hs].
    apply pat_any_dump_prefix. exact Hs. }
  set (l2 := mv srcs (dump args) l1).
  assert (G2 : compgen_G (pat_done w) l2 = compgen_G (pat_done w) l ++ [c]).
  { unfold l2. rewrite compgen_mv_other; [exact G1 | | exact Hd].
    intros s Hs. apply done_not_dump. apply Hsrcs. exact Hs. }
  assert (L2 : lookup c l2 = Some (Dir [])).
  { unfold l2. rewrite lookup_mv_other; [exact L1 | | exact Hcd].
    intros Hin. apply Hsrcs in Hin. unfold c, cdump in Hin. discriminate Hin. }
  assert (X2 : lookup ctxt l2 = lookup ctxt l).
  { unfold l2. rewrite lookup_mv_other; [exact X1 | | exact Hxd].
    intros Hin. apply Hsrcs in Hin. unfold ctxt, cdump in Hin.
    discriminate Hin. }
  fold l0 l1 srcs l2. fold c.
  destruct (lookup ctxt l2) as [n |] eqn:X.
  - pose proof cdump_txt_neq as Hne. apply String.eqb_neq in Hne.
    unfold mv. rewrite L2. unfold mv_into_dir. rewrite X, L2, Hne.
    unfold move_into. cbn [lookup put].
    split.
    + rewrite compgen_put_present.
      * assert (Hne' : (c =? ctxt)%string = false).
        { apply String.eqb_neq. intros E. symmetry in E.
          exact (cdump_txt_neq E). }
        rewrite compgen_remove, G2, filter_app.
        rewrite (filter_all_out _ ctxt Hl). cbn [filter app].
        rewrite Hne'. reflexivity.
      * rewrite lookup_remove_other, L2; [discriminate |].
        intros E. symmetry in E. exact (cdump_txt_neq E).
    + eexists. apply lookup_put_same.
  - unfold mv. rewrite L2. unfold mv_into_dir. rewrite X.
    split; [| eexists; exact L2].
    rewrite G2. destruct (compgen_G (pat_done w) l) as [| a t] eqn:G;
      [reflexivity |].
    exfalso.
    assert (Ha : In a (compgen_G (pat_done w) l)) by (rewrite G; left; auto).
    pose proof (Hl a Ha) as ->. apply compgen_In in Ha. destruct Ha as [Ha _].
    apply In_lookup in Ha. congruence.
Qed.

Lemma collect_dumps s :
  dumps (fs (snd (collect args s))) = collected (dumps (fs s)).
Proof. reflexivity. Qed.

Lemma then_two {A B} (m1 m2 m3 m4 m5 m6 : M unit) (h : M A) (k : M B) s :
  (m1 ;;; m2 ;;; m3 ;;; m4 ;;; m5 ;;; m6 ;;; h ;;; k) s =
  k (snd (h (snd ((m1 ;;; m2 ;;; m3 ;;; m4 ;;; m5 ;;; m6) s)))).
Proof. rewrite !seq_run. reflexivity. Qed.

Lemma generate_test s :
  generate w args s =
  (if negb (test_d (dumps (fs s))
              (word_of (compgen_G (pat_done w) (dumps (fs s)))))
   then
     reading_log_stage w args ;;; ratings_stage w args ;;;
     raw_extract_stage w ;;; cdump_stage w args ;;; dump_stage w args ;;;
     split_stage w args ;;; collect args ;;;
     log "dumps are generated at $PWD"
   else log "Skipping generation: dumps already exist at $PWD") s.
Proof. reflexivity. Qed.

Lemma generate_skips s n es :
  compgen_G (pat_done w) (dumps (fs s)) = [n] ->
  lookup n (dumps (fs s)) = Some (Dir es) ->
  generate w args s =
  (tt, mkSt (fs s) (remote s)
         (trace s ++
          [Log "* Skipping generation: dumps already exist at $PWD"])).
Proof.
  intros G L.
  assert (Hn : (n =? "")%string = false).
  { assert (Hin : In n (compgen_G (pat_done w) (dumps (fs s))))
      by (rewrite G; left; reflexivity).
    apply compgen_In in Hin. destruct Hin as [_ Hg]. apply done_prefix in Hg.
    destruct n; [discriminate Hg | reflexivity]. }
  rewrite generate_test, G, word_of_one. unfold test_d. rewrite Hn, L.
  reflexivity.
Qed.

Lemma generate_runs s :
  compgen_G (pat_done w) (dumps (fs s)) = [] ->
  dumps (fs (snd (generate w args s))) =
  collected (dumps (fs (snd (produce s)))).
Proof.
  intros G. rewrite generate_test, G.
  change (test_d (dumps (fs s)) (word_of [])) with false.
  cbn [negb].
  rewrite (then_two (reading_log_stage w args) (ratings_stage w args)
             (raw_extract_stage w) (cdump_stage w args) (dump_stage w args)
             (split_stage w args)).
  fold produce. generalize (snd (produce s)). intros s'. reflexivity.
Qed.

End Rerun.

Lemma adds_generation s s' :
  adds no_generation s s' ->
  filter generation_stage (stages_run (trace s')) =
  filter generation_stage (stages_run (trace s)).
Proof.
  intros (evs & -> & F).
  rewrite stages_run_app, filter_app, (generation_nil evs F).
  apply app_nil_r.
Qed.

Lemma sitemap_dumps args s :
  dumps (fs (snd (sitemap_stage args s))) = dumps (fs s).
Proof.
  unfold sitemap_stage, bind, get_sitemaps, log, emit, set_sitemaps.
  destruct (negb (sitemaps (fs s))); reflexivity.
Qed.

Lemma final_cleanup_dumps w s :
  dumps (fs (snd (final_cleanup w s))) = dumps (fs s).
Proof.
  unfold final_cleanup, bind, emit, ret.
  destruct (negb (testing w)); reflexivity.
Qed.

Lemma pipeline_dumps w args s :
  dumps (fs (snd (pipeline w args s))) = dumps (fs (after_generate w args s)).
Proof.
  rewrite pipeline_phases, final_cleanup_dumps. unfold after_sitemap.
  rewrite sitemap_dumps. unfold after_archival. rewrite archival_fs.
  reflexivity.
Qed.

Lemma pipeline_generation w args s :
  filter generation_stage (stages_run (trace (snd (pipeline w args s)))) =
  filter generation_stage (stages_run (trace (after_generate w args s))).
Proof.
  rewrite pipeline_phases.
  rewrite (adds_generation (after_sitemap w args s)).
  2:{ eapply adds_impl; [apply no_stage_no_generation
                        | apply final_cleanup_adds]. }
  unfold after_sitemap.
  rewrite (adds_generation (after_archival w args s)).
  2:{ eapply adds_impl; [| apply sitemap_adds]. simpl. tauto. }
  unfold after_archival.
  rewrite (adds_generation (after_generate w args s)); [reflexivity |].
  eapply adds_impl; [apply archival_event_no_generation | apply archival_adds].
Qed.

(** C2, as the script has it.  The generation block is skipped as a
    whole when one entry of the dump directory matches
    [ol_cdump_<year-month>*] and that entry is a directory.  So when a
    run without the overwrite flag, for a date of the current month,
    starts in a dump directory without such an entry, a second run with
    the same arguments runs none of the stages that produce dump files;
    what it may run again are the sitemap and the archival. *)
Theorem rerun_skips_generation
  (w : World) (args : list string) (f : FS) (r : Remote) :
  overwrite_requested args = false ->
  is_prefix (today_yymm w) (yymmdd args) = true ->
  compgen_G (pat_done w) (dumps f) = [] ->
  filter generation_stage
    (stages_run (trace (snd (rerun w args f r)))) = [] /\
  forall s n es,
    compgen_G (pat_done w) (dumps (fs s)) = [n] ->
    lookup n (dumps (fs s)) = Some (Dir es) ->
    generate w args s =
    (tt, mkSt (fs s) (remote s)
           (trace s ++
            [Log "* Skipping generation: dumps already exist at $PWD"])).
Proof.
  intros Ho Hm Hf. split; [| intros s n es; apply (generate_skips w args)].
  unfold rerun, run, oldump_sh.
  destruct (Nat.ltb (List.length args) 1); [reflexivity |].
  set (s1 := snd (pipeline w args (start f r))).
  (* the dump directory after the first run *)
  assert (D1 : dumps (fs s1) =
               collected args
                 (dumps (fs (snd (produce w args (start f r)))))).
  { unfold s1. rewrite pipeline_dumps.
    unfold after_generate, after_overwrite_check.
    rewrite (overwrite_check_off args _ Ho). simpl snd.
    apply generate_runs. exact Hf. }
  assert (H1 : only_history w args
                 (dumps (fs (snd (produce w args (start f r)))))).
  { apply (produce_history w args). simpl. intros n Hn.
    rewrite Hf in Hn. contradiction. }
  destruct (collected_done w args Hm _ H1) as [G (es & L)].
  rewrite <- D1 in G, L.
  (* the second run *)
  rewrite pipeline_generation.
  unfold after_generate, after_overwrite_check.
  rewrite (overwrite_check_off args _ Ho). simpl snd.
  rewrite (generate_skips w args (start (fs s1) (remote s1)) _ es G L).
  reflexivity.
Qed.

Lemma rerun_skips_generation_witness :
  overwrite_requested ["2024-05-10"] = false /\
  is_prefix (today_yymm (sample_world "")) (yymmdd ["2024-05-10"]) = true /\
  compgen_G (pat_done (sample_world "")) (dumps empty_fs) = [] /\
  filter generation_stage
    (stages_run (trace (snd (rerun (sample_world "") ["2024-05-10"]
                              empty_fs [])))) = [].
Proof.
  split; [reflexivity |]. split; [reflexivity |]. split; [reflexivity |].
  apply (rerun_skips_generation (sample_world "") ["2024-05-10"] empty_fs []
           eq_refl eq_refl eq_refl).
Defined.

(** C2 as stated fails: the sitemap directory is removed at the end of
    each sitemap generation (line 210), so the second of two runs
    generates the sitemaps again. *)
Lemma rerun_counterexample :
  overwrite_requested ["2024-05-10"] = false /\
  stages_run (trace (snd (rerun (sample_world "") ["2024-05-10"]
                            empty_fs []))) = [Sitemap].
Proof. vm_compute. auto. Qed.

End ShFacts.

(* ================================================================== *)
(** * The entry point: what a run of [oldump.py] does *)
(* ================================================================== *)

Module PyFacts.
Import Py.
Local Open Scope list_scope.

(** A computation that ends in an exception. *)
Definition raises {A} (m : Res A) : Prop := exists e, fst m = inl e.

(** A computation that starts no process. *)
Definition quiet {A} (m : Res A) : Prop := spawned m = [].

Lemma raises_raise {A} (e : Exn) : raises (@raise A e).
Proof. exists e. reflexivity. Qed.

Lemma raises_bind_l {A B} (m : Res A) (k : A -> Res B) :
  raises m -> raises (bind m k).
Proof.
  intros [e He]. destruct m as [[e' | a] out]; simpl in He; [| discriminate].
  exists e'. reflexivity.
Qed.

Lemma raises_bind_r {A B} (m : Res A) (k : A -> Res B) :
  (forall a, raises (k a)) -> raises (bind m k).
Proof.
  intros Hk. destruct m as [[e | a] out].
  - exists e. reflexivity.
  - destruct (Hk a) as [e He]. exists e. simpl.
    destruct (k a) as [r out']. simpl in *. exact He.
Qed.

Lemma spawned_app {A B} (r : Exn + A) (r' : Exn + B) (o o' : list Effect) :
  spawned (r, o ++ o') = spawned (r', o) ++ spawned (r', o').
Proof. unfold spawned. simpl. apply flat_map_app. Qed.

Lemma quiet_bind {A B} (m : Res A) (k : A -> Res B) :
  quiet m -> (forall a, quiet (k a)) -> quiet (bind m k).
Proof.
  unfold quiet. intros Hm Hk. destruct m as [[e | a] out]; simpl.
  - exact Hm.
  - specialize (Hk a). destruct (k a) as [r out'].
    rewrite (spawned_app r r). unfold spawned in *. simpl in *.
    rewrite Hm, Hk. reflexivity.
Qed.

Lemma quiet_ret {A} (a : A) : quiet (ret a).
Proof. reflexivity. Qed.

Lemma quiet_raise {A} (e : Exn) : quiet (@raise A e).
Proof. reflexivity. Qed.

Lemma quiet_effect (e : Effect) :
  (forall c, e <> Spawned c) -> quiet (effect e).
Proof.
  intros H. unfold quiet, spawned. simpl.
  destruct e; try reflexivity. destruct (H command). reflexivity.
Qed.

Ltac quiet_step :=
  first [ apply quiet_ret
        | apply quiet_raise
        | apply quiet_effect; intros ? ?; discriminate
        | apply quiet_bind; [| intros ?] ].

(** ** The lines that are not Python *)

Lemma line_277_else_without_if : else_has_if 0 line_277 = false.
Proof. reflexivity. Qed.

Lemma line_282_unfinished : header_complete line_282 = false.
Proof. reflexivity. Qed.

Lemma other_lines_ok :
  forallb line_ok [line_276; line_278; line_279; line_280; line_281] = true.
Proof. reflexivity. Qed.

Lemma module_rejected : module_parses = false.
Proof. reflexivity. Qed.

Lemma run_script_syntax_error (host : Host) (argv : list string) :
  run_script host argv = (inl SyntaxError, []).
Proof. unfold run_script. rewrite module_rejected. reflexivity. Qed.

(** ** The statements behind the syntax errors *)

Section Script.

Variable host : Host.
Variable argv : list string.

Lemma parse_args_quiet (a : list string) : quiet (parse_args host a).
Proof. unfold parse_args. destruct (argparse host a); reflexivity. Qed.

Lemma check_run_date_raises (ns : Namespace) :
  check_run_date ns = raise (AttributeError "datetime.date" "strpstr").
Proof. reflexivity. Qed.

Lemma check_archive_quiet (ns : Namespace) : quiet (check_archive host ns).
Proof. unfold check_archive. destruct (_ && _); reflexivity. Qed.

Lemma main_body_raises : raises (main_body host argv).
Proof.
  unfold main_body. apply raises_bind_r. intros ns.
  apply raises_bind_l. rewrite check_run_date_raises. apply raises_raise.
Qed.

Lemma main_body_quiet : quiet (main_body host argv).
Proof.
  unfold main_body. apply quiet_bind; [apply parse_args_quiet |].
  intros ns. apply quiet_bind; [reflexivity |].
  intros _. apply check_archive_quiet.
Qed.

Lemma trial_quiet (a : list string) : quiet (trial host a).
Proof.
  unfold trial. apply quiet_bind; [apply parse_args_quiet |].
  intros ns. apply quiet_effect. intros c H. discriminate.
Qed.

Lemma call_main_raises :
  call (main host argv) 2
  = raise (TypeError "wrong number of positional arguments").
Proof. reflexivity. Qed.

Lemma os_unbound : lookup_global "os" = raise (NameError "os").
Proof. reflexivity. Qed.

Lemma main_block_raises : raises (main_block host argv).
Proof.
  unfold main_block.
  do 5 (apply raises_bind_r; intros _).
  apply raises_bind_l. rewrite os_unbound. apply raises_raise.
Qed.

Lemma main_block_quiet : quiet (main_block host argv).
Proof.
  unfold main_block.
  apply quiet_bind; [apply quiet_effect; intros c H; discriminate | intros _].
  do 4 (apply quiet_bind; [apply trial_quiet | intros _]).
  apply quiet_bind; [reflexivity | intros _].
  apply quiet_bind.
  - destruct (OL_CONFIG host) as [file |]; [| reflexivity].
    destruct (file =? "")%string; [reflexivity |].
    repeat quiet_step. destruct (sentry_enabled host); quiet_step.
  - intros _. destruct argv; reflexivity.
Qed.

End Script.

(** C9.  Every direct invocation fails before a pipeline stage runs.  The
    interpreter rejects the file: line 277 has an [else] without an [if]
    and line 282 stops after [and], while the other lines of [main] are
    well formed; so a run is a [SyntaxError] with exit status 1, no
    output and no process started.  The statements behind those two
    lines could not run either: [date.strpstr] does not exist, [main]
    takes no parameter but is called with two arguments, and [os] is not
    bound in the module; the body of [main] and the block under
    [__main__] end in an exception and start no process whatever the
    host and the command line. *)
Theorem entry_point_never_reaches_a_stage (host : Host) (argv : list string) :
  run_script host argv = (inl SyntaxError, [])
  /\ exit_status (run_script host argv) = 1%Z
  /\ spawned (run_script host argv) = []
  /\ else_has_if 0 line_277 = false
  /\ header_complete line_282 = false
  /\ forallb line_ok [line_276; line_278; line_279; line_280; line_281] = true
  /\ date_getattr "strpstr" = raise (AttributeError "datetime.date" "strpstr")
  /\ params (main host argv) = []
  /\ call (main host argv) 2
     = raise (TypeError "wrong number of positional arguments")
  /\ lookup_global "os" = raise (NameError "os")
  /\ raises (main_body host argv) /\ spawned (main_body host argv) = []
  /\ raises (main_block host argv) /\ spawned (main_block host argv) = [].
Proof.
  rewrite run_script_syntax_error.
  repeat match goal with |- _ /\ _ => split end; try reflexivity.
  - apply main_body_raises.
  - apply main_body_quiet.
  - apply main_block_raises.
  - apply main_block_quiet.
Qed.

(** C1.  A configuration error is fatal: when [--archive] is asked for
    on a host without [/olsystem/etc/ia.ini], or the run date is missing
    or is not a date, the run ends in an exception, with a nonzero exit
    status and without a process started, in one pass.  Line 281 raises
    [ValueError] for the first case whenever the parsed flag is set and
    the file is absent, and the body of [main] ends in an exception
    without starting a process. *)
Theorem configuration_error_is_fatal (host : Host) (argv : list string)
  (H : configuration_error host argv) :
  raises (run_script host argv)
  /\ exit_status (run_script host argv) <> 0%Z
  /\ spawned (run_script host argv) = []
  /\ (forall ns, archive ns = true -> ia_ini_exists host = false ->
        check_archive host ns
        = raise (ValueError
                   "'--archive' can only be used on Open Library hosts"))
  /\ raises (main_body host argv) /\ spawned (main_body host argv) = [].
Proof.
  rewrite run_script_syntax_error.
  repeat match goal with |- _ /\ _ => split end.
  - apply raises_raise.
  - discriminate.
  - reflexivity.
  - intros ns Ha Hi. unfold check_archive. rewrite Ha, Hi. reflexivity.
  - apply main_body_raises.
  - apply main_body_quiet.
Qed.

Lemma configuration_error_is_fatal_witness :
  configuration_error laptop ["2024-05-10"; "--archive"]
  /\ raises (run_script laptop ["2024-05-10"; "--archive"])
  /\ exit_status (run_script laptop ["2024-05-10"; "--archive"]) <> 0%Z.
Proof.
  assert (H : configuration_error laptop ["2024-05-10"; "--archive"])
    by (left; split; reflexivity).
  split; [exact H |].
  destruct (configuration_error_is_fatal laptop
              ["2024-05-10"; "--archive"] H) as (R & E & _).
  split; [exact R | exact E].
Defined.

(** C8.  The exit status does not follow the stages.  A run of the
    script ends with status 1 on every host and command line, before a
    stage is started, so that no run ends with status 0.  The embedded
    pipeline ends with status 0 once a run date is given: with
    archive.org out of reach both uploads of the archive stage are tried,
    the stage ends with status 1 and stores nothing, and the status of
    the script is 0 all the same. *)
Theorem exit_status_ignores_stages :
  (forall host argv,
     exit_status (run_script host argv) = 1%Z
     /\ spawned (run_script host argv) = [])
  /\ (let args := ["2024-05-10"; "--archive"] in
      let generated :=
        snd (Sh.generate Sh.offline_world args (Sh.start Sh.empty_fs [])) in
      let r := Sh.run Sh.offline_world args Sh.empty_fs [] in
      fst (Sh.archive_dumps Sh.offline_world args generated) = 1%Z
      /\ List.length (Sh.uploads (Sh.trace (snd r))) = 2
      /\ Sh.remote (snd r) = []
      /\ fst r = 0%Z).
Proof.
  split.
  - intros host argv. rewrite run_script_syntax_error. split; reflexivity.
  - vm_compute. repeat split; reflexivity.
Qed.

End PyFacts.

(* ================================================================== *)
(** * The shell pipeline: arguments, flags and what a run leaves *)
(* ================================================================== *)

Module ShMore.
Import Sh ShLists ShFacts.
Local Open Scope list_scope.

(** ** The command line *)

(** X1.  Lines 68-71 and the end of the script: called without an argument
    the script prints its usage line and ends with status 1, having run
    nothing and changed nothing; called with at least one argument it
    ends with status 0. *)
Theorem usage_and_exit_status (w : World) (s : St) :
  oldump_sh w [] s =
    (1%Z, mkSt (fs s) (remote s)
            (trace s
             ++ [Echo "USAGE: $0 yyyy-mm-dd [--archive] [--overwrite]"]))
  /\ forall a rest, fst (oldump_sh w (a :: rest) s) = 0%Z.
Proof.
  split; [reflexivity |].
  intros a rest. rewrite oldump_sh_status. reflexivity.
Qed.

(** A word without a blank. *)
Fixpoint spaceless (s : string) : bool :=
  match s with
  | EmptyString => true
  | String c s' => negb (Ascii.eqb c " "%char) && spaceless s'
  end.

Lemma is_prefix_word n : forall a r,
  spaceless n = true ->
  is_prefix n (a ++ String " " r)%string = is_prefix n a.
Proof.
  induction n as [| c n IH]; intros a r Hn; [reflexivity |].
  simpl in Hn. apply andb_true_iff in Hn. destruct Hn as [Hc Hn].
  destruct a as [| d a]; simpl.
  - apply negb_true_iff in Hc. rewrite Hc. reflexivity.
  - rewrite (IH a r Hn). reflexivity.
Qed.

Lemma contains_words n a r :
  spaceless n = true -> n <> ""%string ->
  contains n (a ++ String " " r)%string = contains n a || contains n r.
Proof.
  intros Hn Hne. induction a as [| d a IH].
  - destruct n as [| c n]; [congruence |].
    simpl in Hn. apply andb_true_iff in Hn. destruct Hn as [Hc _].
    apply negb_true_iff in Hc.
    change ("" ++ String " " r)%string with (String " " r).
    cbn [contains is_prefix]. rewrite Hc. reflexivity.
  - change (String d a ++ String " " r)%string
      with (String d (a ++ String " " r)%string).
    cbn [contains].
    change (String d (a ++ String " " r)%string)
      with (String d a ++ String " " r)%string.
    rewrite (is_prefix_word n (String d a) r Hn), IH.
    rewrite orb_assoc. reflexivity.
Qed.

Lemma contains_concat n (l : list string) :
  spaceless n = true -> n <> ""%string ->
  contains n (String.concat " " l) = existsb (contains n) l.
Proof.
  intros Hn Hne. induction l as [| x t IH].
  - destruct n as [| c n]; [congruence | reflexivity].
  - destruct t as [| y t].
    + simpl. rewrite orb_false_r. reflexivity.
    + change (String.concat " " (x :: y :: t))
        with (x ++ String " " (String.concat " " (y :: t)))%string.
      rewrite (contains_words n x _ Hn Hne), IH. reflexivity.
Qed.

(** X2.  Line 103: the overwrite test looks at all the arguments together.
    The clean-up is asked for exactly when some argument, in whatever
    position, has [--overwrite] somewhere inside it; the third argument
    as such is never looked at. *)
Theorem overwrite_flag_in_any_argument (args : list string) :
  overwrite_requested args = existsb (contains "--overwrite") args.
Proof.
  unfold overwrite_requested. apply contains_concat;
    [reflexivity | discriminate].
Qed.

(** X3.  Lines 195-199: the archiver is reached only through the second
    argument.  When that is not the word [--archive], a run makes no
    call of the [ia] client and leaves the archive as it was, wherever
    else the word may stand on the command line. *)
Theorem archive_flag_is_second_argument
  (w : World) (args : list string) (f : FS) (r : Remote) :
  archive args <> "--archive"%string ->
  ia_commands (trace (snd (run w args f r))) = [] /\
  remote (snd (run w args f r)) = r.
Proof.
  intros H. apply String.eqb_neq in H. split.
  - unfold run. rewrite oldump_sh_ia. unfold archiver_runs. rewrite H.
    reflexivity.
  - unfold run.
    apply (oldump_sh_remote_kept w args (start f r)).
    unfold archives. rewrite H. reflexivity.
Qed.

Lemma archive_flag_is_second_argument_witness :
  archive ["2024-05-10"; "--overwrite"; "--archive"] <> "--archive"%string /\
  ia_commands
    (trace (snd (run (sample_world "")
                   ["2024-05-10"; "--overwrite"; "--archive"]
                   empty_fs []))) = [].
Proof.
  split; [discriminate |].
  apply (archive_flag_is_second_argument (sample_world "")
           ["2024-05-10"; "--overwrite"; "--archive"] empty_fs []).
  discriminate.
Defined.

(** ** The sitemap directory *)

Definition sitemap_commands (tr : list Event) : list Cmd :=
  filter (fun c => match c with SitemapPy _ => true | _ => false end)
         (commands tr).

Definition no_sitemap (e : Event) : Prop := sitemap_commands [e] = [].

Lemma sitemap_commands_app a b :
  sitemap_commands (a ++ b) = sitemap_commands a ++ sitemap_commands b.
Proof. unfold sitemap_commands. rewrite commands_app. apply filter_app. Qed.

Lemma sitemap_commands_nil evs :
  Forall no_sitemap evs -> sitemap_commands evs = [].
Proof.
  induction 1 as [| e t He _ IH]; [reflexivity |].
  change (e :: t) with ([e] ++ t). rewrite sitemap_commands_app, He, IH.
  reflexivity.
Qed.

Lemma adds_sitemap s s' :
  adds no_sitemap s s' ->
  sitemap_commands (trace s') = sitemap_commands (trace s).
Proof.
  intros (evs & -> & F).
  rewrite sitemap_commands_app, (sitemap_commands_nil evs F).
  apply app_nil_r.
Qed.

Lemma archival_event_no_sitemap e : archival_event e -> no_sitemap e.
Proof.
  destruct e as [c | |]; simpl; try reflexivity.
  destruct c; simpl; try discriminate; reflexivity.
Qed.

(** The directory [$TMPDIR/sitemaps] is there or not as before. *)
Definition same_sitemaps (s s' : St) : Prop :=
  sitemaps (fs s') = sitemaps (fs s).

Lemma same_sitemaps_refl s : same_sitemaps s s.
Proof. reflexivity. Qed.

Lemma same_sitemaps_trans a b c :
  same_sitemaps a b -> same_sitemaps b c -> same_sitemaps a c.
Proof. unfold same_sitemaps. congruence. Qed.

Lemma sitemaps_emit e : keeps same_sitemaps (emit e).
Proof. intros s. reflexivity. Qed.
Lemma sitemaps_set_dumps l : keeps same_sitemaps (set_dumps l).
Proof. intros s. reflexivity. Qed.
Lemma sitemaps_set_tmp_data d : keeps same_sitemaps (set_tmp_data d).
Proof. intros s. reflexivity. Qed.
Lemma sitemaps_set_oldumpsort b : keeps same_sitemaps (set_oldumpsort b).
Proof. intros s. reflexivity. Qed.

(** Walks through a command, closing the primitives with [leaf]. *)
Ltac walk refl trans leaf :=
  repeat first
    [ apply (keeps_bind _ trans)
    | apply (keeps_if _)
    | apply (keeps_when _ refl)
    | apply (keeps_ret _ refl)
    | apply (keeps_get_dumps _ refl)
    | apply (keeps_get_remote _ refl)
    | apply (keeps_get_sitemaps _ refl)
    | leaf
    | match goal with |- forall _, _ => intro end ].

Ltac sitemaps_leaf :=
  first [ apply sitemaps_emit | apply sitemaps_set_dumps
        | apply sitemaps_set_tmp_data | apply sitemaps_set_oldumpsort ].

Section Sitemaps.
Variables (w : World) (args : list string).

Lemma overwrite_check_sitemaps : keeps same_sitemaps (overwrite_check args).
Proof.
  unfold overwrite_check, cleanup, log.
  walk same_sitemaps_refl same_sitemaps_trans sitemaps_leaf.
Qed.

Lemma generate_sitemaps : keeps same_sitemaps (generate w args).
Proof.
  unfold generate, reading_log_stage, ratings_stage, raw_extract_stage,
    cdump_stage, dump_stage, split_stage, collect, run_to_file, matches,
    is_file, is_dir, log.
  walk same_sitemaps_refl same_sitemaps_trans sitemaps_leaf.
Qed.

Lemma overwrite_check_no_sitemap :
  keeps (adds no_sitemap) (overwrite_check args).
Proof. unfold_stages. frame (adds_refl no_sitemap) (adds_trans no_sitemap). Qed.

Lemma generate_no_sitemap : keeps (adds no_sitemap) (generate w args).
Proof. unfold_stages. frame (adds_refl no_sitemap) (adds_trans no_sitemap). Qed.

Lemma final_cleanup_no_sitemap : keeps (adds no_sitemap) (final_cleanup w).
Proof. unfold_stages. frame (adds_refl no_sitemap) (adds_trans no_sitemap). Qed.

Lemma final_cleanup_fs s : fs (snd (final_cleanup w s)) = fs s.
Proof.
  unfold final_cleanup, bind, emit, ret.
  destruct (negb (testing w)); reflexivity.
Qed.

Lemma sitemap_stage_fs s : fs (snd (sitemap_stage args s)) = fs s.
Proof.
  unfold sitemap_stage, bind, get_sitemaps, log, emit, set_sitemaps.
  destruct s as [[d l sm os] r tr]. simpl. destruct sm; reflexivity.
Qed.

Lemma sitemap_stage_commands s :
  sitemap_commands (trace (snd (sitemap_stage args s))) =
  sitemap_commands (trace s) ++
  (if sitemaps (fs s) then []
   else [SitemapPy ("$TMPDIR/dumps/" ++ dump args ++ "/" ++ dump args
                    ++ ".txt.gz")]).
Proof.
  unfold sitemap_stage, bind, get_sitemaps, log, emit, set_sitemaps.
  remember (dump args) as d.
  destruct (sitemaps (fs s)); simpl.
  - rewrite sitemap_commands_app. reflexivity.
  - rewrite !sitemap_commands_app, <- !app_assoc. reflexivity.
Qed.

Lemma before_sitemap_flag s :
  sitemaps (fs (after_archival w args s)) = sitemaps (fs s).
Proof.
  unfold after_archival. rewrite archival_fs.
  unfold after_generate, after_overwrite_check.
  rewrite generate_sitemaps. apply overwrite_check_sitemaps.
Qed.

Lemma before_sitemap_commands s :
  sitemap_commands (trace (after_archival w args s)) =
  sitemap_commands (trace s).
Proof.
  unfold after_archival.
  rewrite (adds_sitemap (after_generate w args s)).
  2:{ eapply adds_impl; [apply archival_event_no_sitemap
                        | apply archival_adds]. }
  unfold after_generate, after_overwrite_check.
  rewrite (adds_sitemap _ _ (generate_no_sitemap _)).
  apply adds_sitemap. apply overwrite_check_no_sitemap.
Qed.

End Sitemaps.

(** X4.  Lines 204-214: a run given a date generates the sitemaps exactly
    when [$TMPDIR/sitemaps] is absent at its start, once, from the full
    dump inside the directory of the run date; and it leaves the
    directory as it found it, since line 210 removes what line 207
    made. *)
Theorem sitemaps_generated_when_directory_absent
  (w : World) (a : string) (rest : list string) (f : FS) (r : Remote) :
  let s' := snd (run w (a :: rest) f r) in
  sitemaps (fs s') = sitemaps f /\
  sitemap_commands (trace s') =
    if sitemaps f then []
    else [SitemapPy ("$TMPDIR/dumps/ol_dump_" ++ a ++ "/ol_dump_" ++ a
                     ++ ".txt.gz")].
Proof.
  intros s'. unfold s', run, oldump_sh.
  change (Nat.ltb (List.length (a :: rest)) 1) with false. cbv iota.
  rewrite pipeline_phases. split.
  - rewrite final_cleanup_fs. unfold after_sitemap.
    rewrite sitemap_stage_fs. apply before_sitemap_flag.
  - rewrite (adds_sitemap _ _ (final_cleanup_no_sitemap w _)).
    unfold after_sitemap. rewrite sitemap_stage_commands.
    rewrite before_sitemap_flag, before_sitemap_commands.
    reflexivity.
Qed.

(** ** A month that is done *)

(** A dump directory in which the dump of 2024-05-10 is complete. *)
Definition done_fs : FS :=
  mkFS None
    [("ol_dump_2024-05-10",
      Dir [("ol_dump_2024-05-10.txt.gz", File "latest of history")]);
     ("ol_cdump_2024-05-10",
      Dir [("ol_cdump_2024-05-10.txt.gz", File "history")])]
    false false.

(** X5.  Lines 113 and 186-188: when exactly one entry of the dump directory
    matches [ol_cdump_<year-month>*] and it is a directory, a run
    without the overwrite flag runs no stage that produces dump files
    and leaves the whole of [$TMPDIR] as it found it. *)
Theorem completed_month_is_left_alone
  (w : World) (args : list string) (f : FS) (r : Remote)
  (n : string) (es : Listing) :
  overwrite_requested args = false ->
  compgen_G (pat_done w) (dumps f) = [n] ->
  lookup n (dumps f) = Some (Dir es) ->
  fs (snd (run w args f r)) = f /\
  filter generation_stage (stages_run (trace (snd (run w args f r)))) = [].
Proof.
  intros Ho G L. unfold run, oldump_sh.
  destruct (Nat.ltb (List.length args) 1); [split; reflexivity |].
  assert (E : after_generate w args (start f r) =
              mkSt f r [Log "* Skipping generation: dumps already exist at $PWD"]).
  { unfold after_generate, after_overwrite_check.
    rewrite (overwrite_check_off args _ Ho). simpl snd.
    rewrite (generate_skips w args (start f r) n es G L). reflexivity. }
  split.
  - rewrite pipeline_phases, final_cleanup_fs. unfold after_sitemap.
    rewrite sitemap_stage_fs. unfold after_archival.
    rewrite archival_fs, E. reflexivity.
  - rewrite pipeline_generation, E. reflexivity.
Qed.

Lemma completed_month_is_left_alone_witness :
  overwrite_requested ["2024-05-31"] = false /\
  compgen_G (pat_done (sample_world "")) (dumps done_fs)
    = ["ol_cdump_2024-05-10"] /\
  fs (snd (run (sample_world "") ["2024-05-31"] done_fs [])) = done_fs.
Proof.
  split; [reflexivity |]. split; [reflexivity |].
  apply (completed_month_is_left_alone (sample_world "") ["2024-05-31"]
           done_fs [] "ol_cdump_2024-05-10"
           [("ol_cdump_2024-05-10.txt.gz", File "history")]
           eq_refl eq_refl eq_refl).
Defined.

(** ** The completion marker *)




(** ** The raw extract *)

(** The runs of [psql -c "copy data to stdout"] (line 142). *)
Definition copies (tr : list Event) : list Cmd :=
  filter (fun c => match c with PsqlCopyData => true | _ => false end)
         (commands tr).

Definition no_copy (e : Event) : Prop := copies [e] = [].

Lemma copies_app a b : copies (a ++ b) = copies a ++ copies b.
Proof. unfold copies. rewrite commands_app. apply filter_app. Qed.

Lemma copies_nil evs : Forall no_copy evs -> copies evs = [].
Proof.
  induction 1 as [| e t He _ IH]; [reflexivity |].
  change (e :: t) with ([e] ++ t). rewrite copies_app, He, IH.
  reflexivity.
Qed.

Lemma adds_copies s s' :
  adds no_copy s s' -> copies (trace s') = copies (trace s).
Proof.
  intros (evs & -> & F). rewrite copies_app, (copies_nil evs F).
  apply app_nil_r.
Qed.

Lemma copies_In tr : copies tr = [] -> ~ In PsqlCopyData (commands tr).
Proof.
  unfold copies. intros H Hin.
  assert (X : In PsqlCopyData
                (filter (fun c => match c with
                                  | PsqlCopyData => true
                                  | _ => false
                                  end) (commands tr)))
    by (apply filter_In; split; [exact Hin | reflexivity]).
  rewrite H in X. contradiction.
Qed.

Lemma archival_event_no_copy e : archival_event e -> no_copy e.
Proof.
  destruct e as [c | |]; simpl; try reflexivity.
  destruct c; simpl; try discriminate; reflexivity.
Qed.

Ltac frame_copy := frame (adds_refl no_copy) (adds_trans no_copy).

Section Copies.
Variables (w : World) (args : list string).

Lemma overwrite_check_no_copy : keeps (adds no_copy) (overwrite_check args).
Proof. unfold_stages. frame_copy. Qed.

Lemma reading_log_no_copy : keeps (adds no_copy) (reading_log_stage w args).
Proof. unfold_stages. frame_copy. Qed.

Lemma ratings_no_copy : keeps (adds no_copy) (ratings_stage w args).
Proof. unfold_stages. frame_copy. Qed.

Lemma cdump_no_copy : keeps (adds no_copy) (cdump_stage w args).
Proof. unfold_stages. frame_copy. Qed.

Lemma dump_no_copy : keeps (adds no_copy) (dump_stage w args).
Proof. unfold_stages. frame_copy. Qed.

Lemma split_no_copy : keeps (adds no_copy) (split_stage w args).
Proof. unfold_stages. frame_copy. Qed.

Lemma collect_no_copy : keeps (adds no_copy) (collect args).
Proof. unfold_stages. frame_copy. Qed.

Lemma sitemap_no_copy : keeps (adds no_copy) (sitemap_stage args).
Proof. unfold_stages. frame_copy. Qed.

Lemma final_cleanup_no_copy : keeps (adds no_copy) (final_cleanup w).
Proof. unfold_stages. frame_copy. Qed.

Lemma archival_no_copy : keeps (adds no_copy) (archival w args).
Proof.
  intros s. eapply adds_impl; [apply archival_event_no_copy |].
  apply archival_adds.
Qed.

(** The generation block around a raw-extract stage that meets [R]. *)
Lemma generate_keeps (R : St -> St -> Prop) :
  (forall s, R s s) ->
  (forall a b c, R a b -> R b c -> R a c) ->
  (forall msg, keeps R (log msg)) ->
  keeps R (reading_log_stage w args) ->
  keeps R (ratings_stage w args) ->
  keeps R (raw_extract_stage w) ->
  keeps R (cdump_stage w args) ->
  keeps R (dump_stage w args) ->
  keeps R (split_stage w args) ->
  keeps R (collect args) ->
  keeps R (generate w args).
Proof.
  intros Hr Ht He H1 H2 H3 H4 H5 H6 H7.
  unfold generate, matches, is_dir.
  apply (keeps_bind _ Ht).
  { apply (keeps_bind _ Ht); [apply (keeps_get_dumps _ Hr) | intros ?].
    apply (keeps_ret _ Hr). }
  intros word. apply (keeps_bind _ Ht).
  { apply (keeps_bind _ Ht); [apply (keeps_get_dumps _ Hr) | intros ?].
    apply (keeps_ret _ Hr). }
  intros done. apply keeps_if; [| apply He].
  repeat (apply (keeps_bind _ Ht); [assumption | intros _]).
  apply He.
Qed.

Lemma pipeline_keeps (R : St -> St -> Prop) :
  (forall a b c, R a b -> R b c -> R a c) ->
  keeps R (overwrite_check args) ->
  keeps R (generate w args) ->
  keeps R (archival w args) ->
  keeps R (sitemap_stage args) ->
  keeps R (final_cleanup w) ->
  keeps R (pipeline w args).
Proof.
  intros Ht H1 H2 H3 H4 H5. unfold pipeline.
  repeat (apply (keeps_bind _ Ht); [assumption | intros _]).
  assumption.
Qed.

(** *** In a test run *)

Hypothesis test_run : OLDUMP_TESTING w <> ""%string.

Lemma raw_extract_no_copy_testing : keeps (adds no_copy) (raw_extract_stage w).
Proof.
  unfold raw_extract_stage, is_file, log.
  rewrite (testing_on w test_run). unfold when. cbn [negb]. frame_copy.
Qed.

Lemma log_no_copy msg : keeps (adds no_copy) (log msg).
Proof. unfold log. frame_copy. Qed.

Lemma pipeline_no_copy_testing : keeps (adds no_copy) (pipeline w args).
Proof.
  apply (pipeline_keeps _ (adds_trans no_copy)).
  - apply overwrite_check_no_copy.
  - apply (generate_keeps _ (adds_refl no_copy) (adds_trans no_copy)).
    + apply log_no_copy.
    + apply reading_log_no_copy.
    + apply ratings_no_copy.
    + apply raw_extract_no_copy_testing.
    + apply cdump_no_copy.
    + apply dump_no_copy.
    + apply split_no_copy.
    + apply collect_no_copy.
  - apply archival_no_copy.
  - apply sitemap_no_copy.
  - apply final_cleanup_no_copy.
Qed.

End Copies.

(** X7.  Lines 136-146: with [OLDUMP_TESTING] set, no run copies the data
    table out of the database, whatever the dump directory holds and
    whatever the arguments are. *)
Theorem test_run_never_copies_the_database
  (w : World) (args : list string) (f : FS) (r : Remote) :
  OLDUMP_TESTING w <> ""%string ->
  ~ In PsqlCopyData (commands (trace (snd (run w args f r)))).
Proof.
  intros Ht. apply copies_In. unfold run, oldump_sh.
  destruct (Nat.ltb (List.length args) 1); [reflexivity |].
  rewrite (adds_copies _ _ (pipeline_no_copy_testing w args Ht _)).
  reflexivity.
Qed.

Lemma test_run_never_copies_the_database_witness :
  OLDUMP_TESTING (sample_world "true") <> ""%string /\
  ~ In PsqlCopyData
      (commands (trace (snd (run (sample_world "true")
                               ["2024-05-10"; "--overwrite"]
                               empty_fs [])))).
Proof.
  split; [discriminate |].
  apply (test_run_never_copies_the_database (sample_world "true")
           ["2024-05-10"; "--overwrite"] empty_fs []).
  discriminate.
Defined.

(** *** With a raw extract at hand *)

(** A dump directory that holds a raw extract and nothing else. *)
Definition extract_fs : FS :=
  mkFS None [("data.txt.gz", File "data of an earlier run")] false false.

Section Held.
Variables (w : World) (args : list string) (d : Data).

(** Starting with the raw extract [d], a command keeps it and copies
    nothing. *)
Definition held (s s' : St) : Prop :=
  lookup "data.txt.gz" (dumps (fs s)) = Some (File d) ->
  data_kept s s' /\ adds no_copy s s'.

Lemma held_refl s : held s s.
Proof. intros _. split; [apply data_kept_refl | apply adds_refl]. Qed.

Lemma held_trans a b c : held a b -> held b c -> held a c.
Proof.
  intros Hab Hbc H. destruct (Hab H) as [D1 A1].
  assert (Hb : lookup "data.txt.gz" (dumps (fs b)) = Some (File d))
    by (rewrite D1; exact H).
  destruct (Hbc Hb) as [D2 A2]. split.
  - eapply data_kept_trans; eassumption.
  - eapply adds_trans; eassumption.
Qed.

Lemma keeps_held {A} (m : M A) :
  keeps data_kept m -> keeps (adds no_copy) m -> keeps held m.
Proof. intros Hd Hc s _. split; [apply Hd | apply Hc]. Qed.

Lemma log_data msg : keeps data_kept (log msg).
Proof. unfold log. data_frame. Qed.

Lemma reading_log_data : keeps data_kept (reading_log_stage w args).
Proof. unfold reading_log_stage, matches, is_file, log. data_frame. Qed.

Lemma ratings_data : keeps data_kept (ratings_stage w args).
Proof. unfold ratings_stage, matches, is_file, log. data_frame. Qed.

Lemma cdump_data : keeps data_kept (cdump_stage w args).
Proof. unfold cdump_stage, matches, is_file, log. data_frame. Qed.

Lemma dump_data : keeps data_kept (dump_stage w args).
Proof. unfold dump_stage, matches, is_file, log. data_frame. Qed.

Lemma archival_data : keeps data_kept (archival w args).
Proof. intros s. unfold data_kept. rewrite archival_fs. reflexivity. Qed.

(** Line 136 finds the file, and line 145 only says so. *)
Lemma raw_extract_held : keeps held (raw_extract_stage w).
Proof.
  intros s H.
  assert (T : test_f (dumps (fs s)) "data.txt.gz" = true).
  { unfold test_f. rewrite H. reflexivity. }
  assert (E : raw_extract_stage w s = log "Skipping: data.txt.gz" s).
  { unfold raw_extract_stage, is_file.
    unfold bind at 1 2. unfold get_dumps, ret. rewrite T. reflexivity. }
  rewrite E. split; [apply log_data | apply log_no_copy].
Qed.

Lemma generate_held : keeps held (generate w args).
Proof.
  apply (generate_keeps w args held held_refl held_trans).
  - intros msg. apply keeps_held; [apply log_data | apply log_no_copy].
  - apply keeps_held; [apply reading_log_data | apply reading_log_no_copy].
  - apply keeps_held; [apply ratings_data | apply ratings_no_copy].
  - apply raw_extract_held.
  - apply keeps_held; [apply cdump_data | apply cdump_no_copy].
  - apply keeps_held; [apply dump_data | apply dump_no_copy].
  - apply keeps_held; [apply split_stage_data | apply split_no_copy].
  - apply keeps_held; [apply collect_data | apply collect_no_copy].
Qed.

Lemma pipeline_held : keeps held (pipeline w args).
Proof.
  apply (pipeline_keeps w args held held_trans).
  - apply keeps_held; [apply overwrite_check_data
                      | apply overwrite_check_no_copy].
  - apply generate_held.
  - apply keeps_held; [apply archival_data | apply archival_no_copy].
  - apply keeps_held; [apply sitemap_data | apply sitemap_no_copy].
  - apply keeps_held; [apply final_cleanup_data | apply final_cleanup_no_copy].
Qed.

End Held.

(** X8.  Lines 73-76, 136-146 and 219-228: a raw extract [data.txt.gz] that
    is in the dump directory when a run starts is there unchanged when
    the run ends, and the run does not copy the data table again: also
    in production, and also with [--overwrite], whose clean-up names
    the file one directory higher. *)
Theorem raw_extract_is_kept_and_reused
  (w : World) (args : list string) (f : FS) (r : Remote) (d : Data) :
  lookup "data.txt.gz" (dumps f) = Some (File d) ->
  lookup "data.txt.gz" (dumps (fs (snd (run w args f r)))) = Some (File d) /\
  ~ In PsqlCopyData (commands (trace (snd (run w args f r)))).
Proof.
  intros H. unfold run, oldump_sh.
  destruct (Nat.ltb (List.length args) 1).
  - split; [exact H |]. apply copies_In. reflexivity.
  - destruct (pipeline_held w args d (start f r) H) as [D A]. split.
    + rewrite D. exact H.
    + apply copies_In. rewrite (adds_copies _ _ A). reflexivity.
Qed.

Lemma raw_extract_is_kept_and_reused_witness :
  lookup "data.txt.gz" (dumps extract_fs)
    = Some (File "data of an earlier run") /\
  lookup "data.txt.gz"
    (dumps (fs (snd (run (sample_world "") ["2024-05-10"; "--overwrite"]
                       extract_fs []))))
    = Some (File "data of an earlier run").
Proof.
  split; [reflexivity |].
  apply (raw_extract_is_kept_and_reused (sample_world "")
           ["2024-05-10"; "--overwrite"] extract_fs []
           "data of an earlier run" eq_refl).
Defined.

(** ** The order of the stages *)

(** The stages in the order of the script; the archive stage is two
    uploads. *)
Definition schedule : list Stage :=
  [ReadingLog; Ratings; RawExtract; CDump; Sort; Dump; Split;
   Archive; Archive; Sitemap].

Definition stage_eqb (a b : Stage) : bool :=
  match a, b with
  | ReadingLog, ReadingLog | Ratings, Ratings | RawExtract, RawExtract
  | CDump, CDump | Sort, Sort | Dump, Dump | Split, Split
  | Archive, Archive | Sitemap, Sitemap => true
  | _, _ => false
  end.

(** [l] is [full] with some of its elements left out. *)
Fixpoint subsequence (l full : list Stage) : bool :=
  match full with
  | [] => match l with [] => true | _ :: _ => false end
  | x :: full' =>
      match l with
      | [] => true
      | a :: l' =>
          if stage_eqb a x then subsequence l' full'
          else subsequence l full'
      end
  end.

(** A command adds to the stages run one of the sequences of [L]. *)
Definition runs_one_of (L : list (list Stage)) {A} (m : M A) : Prop :=
  forall s, exists l,
    In l L /\ stages_run (trace (snd (m s))) = stages_run (trace s) ++ l.

(** All the ways to run one of [L1], then one of [L2]. *)
Definition cross (L1 L2 : list (list Stage)) : list (list Stage) :=
  flat_map (fun x => map (app x) L2) L1.

Lemma runs_bind L1 L2 {A B} (m : M A) (k : A -> M B) :
  runs_one_of L1 m -> (forall a, runs_one_of L2 (k a)) ->
  runs_one_of (cross L1 L2) (bind m k).
Proof.
  intros Hm Hk s. unfold bind. destruct (Hm s) as (l1 & I1 & E1).
  destruct (m s) as [a s1]. simpl in E1.
  destruct (Hk a s1) as (l2 & I2 & E2).
  exists (l1 ++ l2). split.
  - unfold cross. apply in_flat_map. exists l1. split; [exact I1 |].
    apply in_map. exact I2.
  - rewrite E2, E1, app_assoc. reflexivity.
Qed.

Lemma runs_if L1 L2 {A} (b : bool) (m1 m2 : M A) :
  runs_one_of L1 m1 -> runs_one_of L2 m2 ->
  runs_one_of (L1 ++ L2) (if b then m1 else m2).
Proof.
  intros H1 H2 s. destruct b.
  - destruct (H1 s) as (l & I & E). exists l. split; [| exact E].
    apply in_or_app. left. exact I.
  - destruct (H2 s) as (l & I & E). exists l. split; [| exact E].
    apply in_or_app. right. exact I.
Qed.

Lemma runs_nothing {A} (m : M A) :
  (forall s, trace (snd (m s)) = trace s) -> runs_one_of [[]] m.
Proof.
  intros H s. exists []. split; [left; reflexivity |].
  rewrite H, app_nil_r. reflexivity.
Qed.

Lemma runs_ret {A} (a : A) : runs_one_of [[]] (ret a).
Proof. apply runs_nothing. reflexivity. Qed.

Lemma runs_when L (b : bool) (m : M unit) :
  runs_one_of L m -> runs_one_of (L ++ [[]]) (when b m).
Proof. intros H. unfold when. apply runs_if; [exact H | apply runs_ret]. Qed.

Lemma runs_emit (e : Event) l :
  stages_run [e] = l -> runs_one_of [l] (emit e).
Proof.
  intros <- s. exists (stages_run [e]). split; [left; reflexivity |].
  simpl. apply stages_run_app.
Qed.

Lemma runs_archive_dumps w args :
  runs_one_of [[]; [Archive; Archive]] (archive_dumps w args).
Proof.
  intros s. destruct (ia_list w (remote s) (dump args)) as [| x t] eqn:E.
  - exists [Archive; Archive]. split; [right; left; reflexivity |].
    rewrite (archive_dumps_absent w args s E). simpl.
    rewrite !stages_run_app. reflexivity.
  - exists []. split; [left; reflexivity |].
    assert (H : ia_list w (remote s) (dump args) <> []) by congruence.
    rewrite (archive_dumps_present w args s H). simpl.
    rewrite !stages_run_app. reflexivity.
Qed.

Ltac runs :=
  repeat match goal with
  | |- forall _, _ => intro
  | |- runs_one_of _ ((fun _ => _) _) => cbv beta
  | |- runs_one_of _ (bind _ _) => eapply runs_bind
  | |- runs_one_of _ (if _ then _ else _) => eapply runs_if
  | |- runs_one_of _ (when _ _) => eapply runs_when
  | |- runs_one_of _ (ret _) => apply runs_ret
  | |- runs_one_of _ (emit _) =>
      eapply runs_emit;
      cbv [stages_run commands flat_map stage_of List.app]; reflexivity
  | |- runs_one_of _ (archive_dumps _ _) => apply runs_archive_dumps
  | |- runs_one_of _ _ => apply runs_nothing; reflexivity
  end.

Lemma oldump_sh_schedules :
  exists L,
    (forall w args, runs_one_of L (oldump_sh w args)) /\
    forallb (fun l => subsequence l schedule) L = true.
Proof.
  eexists. split.
  - intros w args. unfold oldump_sh.
    unfold_stages. runs.
  - vm_compute. reflexivity.
Qed.

(** X9.  Lines 100-228: whatever the arguments, the clock, the dump
    directory and the archive, the stages a run executes are the stages
    of the script in the script's order with some of them left out, each
    at most once (the archive stage being its two uploads): no stage
    runs before one that precedes it, and none runs twice. *)
Theorem stages_run_in_script_order
  (w : World) (args : list string) (f : FS) (r : Remote) :
  subsequence (stages_run (trace (snd (run w args f r)))) schedule = true.
Proof.
  destruct oldump_sh_schedules as (L & HL & Hok).
  destruct (HL w args (start f r)) as (l & Hin & E).
  unfold run. rewrite E. simpl.
  rewrite forallb_forall in Hok. apply Hok. exact Hin.
Qed.

(** ** The skip tests *)

(** No entry of the directory has a line break in its name. *)
Definition plain_names (l : Listing) : Prop :=
  forall n, In n (map fst l) -> contains newline n = false.

Lemma is_prefix_self n r : is_prefix n (n ++ r)%string = true.
Proof.
  induction n as [| c n IH]; simpl; [reflexivity |].
  rewrite Ascii.eqb_refl. exact IH.
Qed.

Lemma contains_middle n a b : contains n (a ++ n ++ b)%string = true.
Proof.
  induction a as [| d a IH].
  - change ("" ++ n ++ b)%string with (n ++ b)%string.
    destruct (n ++ b)%string eqn:E; cbn [contains];
      rewrite <- E, is_prefix_self; reflexivity.
  - change (String d a ++ n ++ b)%string
      with (String d (a ++ n ++ b)%string).
    cbn [contains]. rewrite IH. apply orb_true_r.
Qed.

(** Two matches or more make a word that names no entry. *)
Lemma lookup_many l n1 n2 rest :
  plain_names l -> lookup (word_of (n1 :: n2 :: rest)) l = None.
Proof.
  intros Hl. destruct (lookup (word_of (n1 :: n2 :: rest)) l) eqn:E;
    [| reflexivity].
  apply lookup_In, Hl in E.
  change (word_of (n1 :: n2 :: rest))
    with (n1 ++ newline ++ word_of (n2 :: rest))%string in E.
  rewrite contains_middle in E. discriminate.
Qed.

Lemma test_f_word l names :
  plain_names l -> (forall n, In n names -> n <> ""%string) ->
  test_f l (word_of names) = true <->
  exists n d, names = [n] /\ lookup n l = Some (File d).
Proof.
  intros Hl Hne. split.
  - destruct names as [| n [| n2 rest]].
    + discriminate.
    + rewrite word_of_one. unfold test_f.
      destruct (n =? "")%string; [discriminate |].
      destruct (lookup n l) as [[d | es] |] eqn:E; try discriminate.
      intros _. exists n, d. auto.
    + unfold test_f. rewrite (lookup_many l n n2 rest Hl).
      destruct (_ =? _)%string; discriminate.
  - intros (n & d & -> & E). rewrite word_of_one. unfold test_f.
    assert (X : (n =? "")%string = false).
    { apply String.eqb_neq. apply Hne. left. reflexivity. }
    rewrite X, E. reflexivity.
Qed.

Lemma test_d_word l names :
  plain_names l -> (forall n, In n names -> n <> ""%string) ->
  test_d l (word_of names) = true <->
  exists n es, names = [n] /\ lookup n l = Some (Dir es).
Proof.
  intros Hl Hne. split.
  - destruct names as [| n [| n2 rest]].
    + discriminate.
    + rewrite word_of_one. unfold test_d.
      destruct (n =? "")%string; [discriminate |].
      destruct (lookup n l) as [[d | es] |] eqn:E; try discriminate.
      intros _. exists n, es. auto.
    + unfold test_d. rewrite (lookup_many l n n2 rest Hl).
      destruct (_ =? _)%string; discriminate.
  - intros (n & es & -> & E). rewrite word_of_one. unfold test_d.
    assert (X : (n =? "")%string = false).
    { apply String.eqb_neq. apply Hne. left. reflexivity. }
    rewrite X, E. reflexivity.
Qed.

Lemma matches_named a p l n :
  a <> ""%string -> In n (compgen_G (lits a ++ p) l) -> n <> ""%string.
Proof.
  intros Ha Hn. apply compgen_In in Hn. destruct Hn as [_ Hg].
  apply glob_lits_prefix in Hg. intros ->.
  destruct a; [congruence | discriminate].
Qed.

(** A dump directory with the reading logs of two days of May. *)
Definition two_logs_fs : FS :=
  mkFS None
    [("ol_dump_reading-log_2024-05-09.txt.gz", File "reading log, 9th");
     ("ol_dump_reading-log_2024-05-10.txt.gz", File "reading log, 10th")]
    false false.

(** X10.  Lines 118-124: the reading-log stage is skipped exactly when one
    entry, and only one, matches
    [ol_dump_reading-log_<year-month>*.txt.gz] and it is a regular
    file; with no match, with a match that is a directory, and with two
    matches or more, it runs [psql] once, up to the run date. *)
Theorem reading_log_skipped_for_one_file_only
  (w : World) (args : list string) (f : FS) (r : Remote) :
  plain_names (dumps f) ->
  let cmds :=
    commands (trace (snd (reading_log_stage w args (start f r)))) in
  (cmds = [] <->
   exists n d, compgen_G (pat_reading_log w) (dumps f) = [n] /\
               lookup n (dumps f) = Some (File d)) /\
  (cmds = [] \/ cmds = [PsqlReadingLog (yymmdd args)]).
Proof.
  intros Hl cmds.
  assert (Hne : forall n,
             In n (compgen_G (pat_reading_log w) (dumps f)) ->
             n <> ""%string)
    by (intros n; apply (matches_named "ol_dump_reading-log_");
        discriminate).
  pose proof (test_f_word (dumps f) _ Hl Hne) as T.
  assert (E : cmds =
              if test_f (dumps f)
                   (word_of (compgen_G (pat_reading_log w) (dumps f)))
              then [] else [PsqlReadingLog (yymmdd args)]).
  { unfold cmds, reading_log_stage, matches, is_file, log, run_to_file.
    unfold bind, get_dumps, set_dumps, emit, ret, start. cbn [fs dumps].
    destruct (test_f (dumps f) _); reflexivity. }
  rewrite E.
  destruct (test_f (dumps f) _) eqn:X.
  - split; [| left; reflexivity].
    split; [intros _; apply T; reflexivity | reflexivity].
  - split; [| right; reflexivity].
    split; [discriminate |]. intros H. apply T in H. discriminate.
Qed.

Lemma reading_log_skipped_for_one_file_only_witness :
  plain_names (dumps two_logs_fs) /\
  commands (trace (snd (reading_log_stage (sample_world "") ["2024-05-10"]
                          (start two_logs_fs []))))
  = [PsqlReadingLog "2024-05-10"].
Proof.
  assert (H : plain_names (dumps two_logs_fs)).
  { intros n [<- | [<- | []]]; reflexivity. }
  split; [exact H |].
  destruct (reading_log_skipped_for_one_file_only (sample_world "")
              ["2024-05-10"] two_logs_fs [] H) as [_ [X | X]].
  - discriminate X.
  - exact X.
Defined.

(** A dump directory with the complete dumps of two days of May. *)
Definition two_dumps_fs : FS :=
  mkFS None
    [("ol_cdump_2024-05-10",
      Dir [("ol_cdump_2024-05-10.txt.gz", File "history, 10th")]);
     ("ol_cdump_2024-05-20",
      Dir [("ol_cdump_2024-05-20.txt.gz", File "history, 20th")])]
    false false.

(** X11.  Lines 113-188: the generation block is skipped exactly when one
    entry, and only one, matches [ol_cdump_<year-month>*] and it is a
    directory.  With none, with a match that is a file, and with the
    directories of two days of the month, the block is entered and ends
    with its closing line. *)
Theorem generation_skipped_for_one_directory_only
  (w : World) (args : list string) (f : FS) (r : Remote) :
  plain_names (dumps f) ->
  let tr := trace (snd (generate w args (start f r))) in
  (tr = [Log "* Skipping generation: dumps already exist at $PWD"] <->
   exists n es, compgen_G (pat_done w) (dumps f) = [n] /\
                lookup n (dumps f) = Some (Dir es)) /\
  (tr = [Log "* Skipping generation: dumps already exist at $PWD"] \/
   exists evs, tr = evs ++ [Log "* dumps are generated at $PWD"]).
Proof.
  intros Hl tr.
  assert (Hne : forall n,
             In n (compgen_G (pat_done w) (dumps f)) -> n <> ""%string)
    by (intros n; apply (matches_named "ol_cdump_"); discriminate).
  pose proof (test_d_word (dumps f) _ Hl Hne) as T.
  unfold tr. rewrite generate_test. cbn [start fs dumps].
  destruct (test_d (dumps f) _) eqn:X; cbn [negb].
  - split; [| left; reflexivity].
    split; [intros _; apply T; reflexivity | reflexivity].
  - rewrite (then_two (reading_log_stage w args) (ratings_stage w args)
               (raw_extract_stage w) (cdump_stage w args)
               (dump_stage w args) (split_stage w args)).
    set (s1 := snd (collect args _)).
    change (trace (snd (log "dumps are generated at $PWD" s1)))
      with (trace s1 ++ [Log "* dumps are generated at $PWD"]).
    split; [| right; exists (trace s1); reflexivity].
    split.
    + intros H.
      change [Log "* Skipping generation: dumps already exist at $PWD"]
        with ([] ++ [Log "* Skipping generation: dumps already exist at $PWD"])
        in H.
      apply app_inj_tail in H. destruct H as [_ H]. discriminate H.
    + intros H. apply T in H. discriminate H.
Qed.

Lemma generation_skipped_for_one_directory_only_witness :
  plain_names (dumps two_dumps_fs) /\
  trace (snd (generate (sample_world "") ["2024-05-20"]
                (start two_dumps_fs [])))
  <> [Log "* Skipping generation: dumps already exist at $PWD"].
Proof.
  assert (H : plain_names (dumps two_dumps_fs)).
  { intros n [<- | [<- | []]]; reflexivity. }
  split; [exact H |]. intros X.
  apply (generation_skipped_for_one_directory_only (sample_world "")
           ["2024-05-20"] two_dumps_fs [] H) in X.
  destruct X as (n & es & G & _). vm_compute in G. discriminate G.
Defined.

(** ** The run date and the clock *)

(** The date a command is told to stop at. *)
Definition upto_of (c : Cmd) : option string :=
  match c with
  | PsqlReadingLog u | PsqlRatings u | OldumpCdump u => Some u
  | _ => None
  end.

Definition bounded_by (d : string) (e : Event) : Prop :=
  match e with
  | Run c => match upto_of c with Some u => u = d | None => True end
  | _ => True
  end.

Ltac frame_bounded d :=
  repeat first
    [ apply (keeps_bind _ (adds_trans (bounded_by d)))
    | apply (keeps_if _)
    | apply (keeps_when _ (adds_refl (bounded_by d)))
    | apply (keeps_ret _ (adds_refl (bounded_by d)))
    | apply (keeps_get_dumps _ (adds_refl (bounded_by d)))
    | apply (keeps_get_sitemaps _ (adds_refl (bounded_by d)))
    | apply adds_set_dumps | apply adds_set_tmp_data
    | apply adds_set_sitemaps | apply adds_set_oldumpsort
    | (apply adds_emit; simpl; auto)
    | match goal with |- forall _, _ => intro end ].

Lemma archival_event_bounded d e : archival_event e -> bounded_by d e.
Proof.
  destruct e as [c | |]; simpl; auto.
  destruct c; simpl; try discriminate; auto.
Qed.

Lemma pipeline_bounded (w : World) (args : list string) :
  keeps (adds (bounded_by (yymmdd args))) (pipeline w args).
Proof.
  apply (pipeline_keeps w args _ (adds_trans _)).
  - unfold_stages. frame_bounded (yymmdd args).
  - unfold_stages. frame_bounded (yymmdd args).
  - intros s. eapply adds_impl; [apply archival_event_bounded |].
    apply archival_adds.
  - unfold_stages. frame_bounded (yymmdd args).
  - unfold_stages. frame_bounded (yymmdd args).
Qed.

Lemma In_commands c evs : In c (commands evs) -> In (Run c) evs.
Proof.
  unfold commands. rewrite in_flat_map. intros (e & He & Hc).
  destruct e as [c' | |]; simpl in Hc; try contradiction.
  destruct Hc as [-> | []]. exact He.
Qed.

(** X12.  Lines 60-61, 121, 130 and 154: the two queries and the history
    compiler are told to stop at the first argument, the run date, in
    every run: the clock, which decides what is skipped, never reaches
    them. *)
Theorem commands_stop_at_the_run_date
  (w : World) (args : list string) (f : FS) (r : Remote) (c : Cmd)
  (u : string) :
  In c (commands (trace (snd (run w args f r)))) ->
  upto_of c = Some u ->
  u = nth 0 args ""%string.
Proof.
  unfold run, oldump_sh.
  destruct (Nat.ltb (List.length args) 1).
  - simpl. intros [].
  - destruct (pipeline_bounded w args (start f r)) as (evs & -> & F).
    simpl. intros Hin Hu. apply In_commands in Hin.
    rewrite Forall_forall in F. specialize (F _ Hin). simpl in F.
    rewrite Hu in F. exact F.
Qed.

Lemma commands_stop_at_the_run_date_witness :
  In (PsqlRatings "2024-04-30")
     (commands (trace (snd (run (sample_world "") ["2024-04-30"]
                              april_fs [])))) /\
  "2024-04-30"%string = nth 0 ["2024-04-30"%string] ""%string.
Proof.
  assert (H : In (PsqlRatings "2024-04-30")
                (commands (trace (snd (run (sample_world "") ["2024-04-30"]
                                         april_fs [])))))
    by (vm_compute; auto).
  split; [exact H |].
  apply (commands_stop_at_the_run_date (sample_world "") ["2024-04-30"]
           april_fs [] _ "2024-04-30" H eq_refl).
Defined.

(** ** The clean-up *)

Lemma filter_twice {A} (p : A -> bool) (l : list A) :
  filter p (filter p l) = filter p l.
Proof.
  induction l as [| a t IH]; simpl; [reflexivity |].
  destruct (p a) eqn:E; simpl; [rewrite E, IH; reflexivity | exact IH].
Qed.

(** X13.  Lines 73-77: cleaning up twice leaves what cleaning up once
    leaves, and what it leaves does not depend on the arguments, the
    clock or the archive. *)
Theorem cleanup_is_idempotent (s : St) :
  fs (snd (cleanup (snd (cleanup s)))) = fs (snd (cleanup s)) /\
  fs (snd (cleanup s)) =
    mkFS None
      (filter (fun e => negb (is_prefix "ol_" (fst e))) (dumps (fs s)))
      (sitemaps (fs s)) (oldumpsort (fs s)).
Proof.
  assert (E : forall s0,
            fs (snd (cleanup s0)) =
            mkFS None
              (filter (fun e => negb (is_prefix "ol_" (fst e)))
                      (dumps (fs s0)))
              (sitemaps (fs s0)) (oldumpsort (fs s0))).
  { intros s0. unfold cleanup, bind, emit, set_tmp_data, get_dumps, set_dumps.
    cbn [snd fs dumps sitemaps oldumpsort tmp_data]. f_equal.
    apply filter_ext. intros e.
    rewrite (glob_prefix_star "ol_"). reflexivity. }
  split; [| apply E].
  rewrite !E. cbn [dumps sitemaps oldumpsort]. rewrite filter_twice.
  reflexivity.
Qed.

(** ** Files that the later skip tests see *)

Lemma glob_star_unfold q s :
  glob (Star :: q) s =
  glob q s || match s with
              | String _ s' => glob (Star :: q) s'
              | EmptyString => false
              end.
Proof. destruct s; reflexivity. Qed.

(** [*] may take any text in front of what the rest matches. *)
Lemma glob_star_skip q x r :
  glob (Star :: q) r = true -> glob (Star :: q) (x ++ r)%string = true.
Proof.
  intros H. induction x as [| c x IH]; [exact H |].
  change (String c x ++ r)%string with (String c (x ++ r)%string).
  rewrite glob_star_unfold, IH. apply orb_true_r.
Qed.

Lemma glob_star_here q r : glob q r = true -> glob (Star :: q) r = true.
Proof. intros H. rewrite glob_star_unfold, H. reflexivity. Qed.

Lemma glob_lits_star_weaken x q r :
  glob (lits x ++ Star :: q) r = true -> glob (Star :: q) r = true.
Proof.
  revert r. induction x as [| c x IH]; intros r; [auto |].
  destruct r as [| c' r]; [discriminate |].
  change (glob (lits (String c x) ++ Star :: q) (String c' r))
    with (Ascii.eqb c c' && glob (lits x ++ Star :: q) r).
  intros H. apply andb_true_iff in H. destruct H as [_ H].
  rewrite glob_star_unfold, (IH r H). apply orb_true_r.
Qed.

Lemma glob_lits_split a p s :
  glob (lits a ++ p) s = true ->
  exists r, s = (a ++ r)%string /\ glob p r = true.
Proof.
  intros H. destruct (is_prefix_app a s (glob_lits_prefix a p s H)) as [r ->].
  exists r. rewrite glob_lits_app in H. auto.
Qed.

Lemma append_assoc (a b c : string) :
  ((a ++ b) ++ c)%string = (a ++ b ++ c)%string.
Proof. induction a as [| x a IH]; simpl; [reflexivity | rewrite IH; reflexivity]. Qed.

(** The pattern of the month's file of one table, lines 118 and 127. *)
Definition pat_table (kind ym : string) : Pattern :=
  lits ("ol_dump_" ++ kind ++ "_") ++ lits ym ++ [Star] ++ lits ".txt.gz".

(** The name the stage of a table writes to, lines 121 and 130. *)
Definition table_file (kind d : string) : string :=
  "ol_dump_" ++ kind ++ "_" ++ d ++ ".txt.gz".

(** What matches the pattern of a table also matches the patterns of
    the dump stage (line 161) and of the split stage (line 171). *)
Lemma table_file_is_dump (w : World) kind n :
  glob (pat_table kind (yymm w)) n = true ->
  glob pat_any_dump n = true /\ glob (pat_split w) n = true.
Proof.
  unfold pat_table, pat_any_dump, pat_split.
  change (lits ("ol_dump_" ++ kind ++ "_"))
    with (lits "ol_dump_" ++ lits (kind ++ "_")).
  rewrite lits_app, <- !app_assoc. intros H.
  apply glob_lits_split in H. destruct H as (r1 & -> & H).
  apply glob_lits_split in H. destruct H as (r2 & -> & H).
  rewrite !glob_lits_app. split.
  - apply glob_star_skip.
    apply (glob_lits_star_weaken ("_" ++ yymm w)).
    rewrite lits_app, <- app_assoc. exact H.
  - apply glob_star_skip, glob_star_here. exact H.
Qed.

Lemma table_file_matches_dump kind d :
  glob pat_any_dump (table_file kind d) = true.
Proof.
  unfold pat_any_dump, table_file. rewrite glob_lits_app.
  do 3 apply glob_star_skip. reflexivity.
Qed.

Lemma table_file_matches_month kind ym d :
  is_prefix ym d = true -> glob (pat_table kind ym) (table_file kind d) = true.
Proof.
  intros H. destruct (is_prefix_app ym d H) as [r ->].
  unfold pat_table, table_file.
  change ("ol_dump_" ++ kind ++ "_" ++ (ym ++ r) ++ ".txt.gz")%string
    with ("ol_dump_" ++ (kind ++ "_" ++ (ym ++ r) ++ ".txt.gz"))%string.
  replace ("ol_dump_" ++ (kind ++ "_" ++ (ym ++ r) ++ ".txt.gz"))%string
    with (("ol_dump_" ++ kind ++ "_") ++ ym ++ r ++ ".txt.gz")%string.
  - rewrite !glob_lits_app. apply glob_star_skip. reflexivity.
  - change (("ol_dump_" ++ kind ++ "_") ++ ym ++ r ++ ".txt.gz")%string
      with ("ol_dump_" ++ ((kind ++ "_") ++ ym ++ r ++ ".txt.gz"))%string.
    rewrite !append_assoc. reflexivity.
Qed.

(** A line break in neither part, none in the whole. *)
Lemma plain_app a b :
  contains newline a = false -> contains newline b = false ->
  contains newline (a ++ b)%string = false.
Proof.
  intros Ha Hb. induction a as [| c a IH]; [exact Hb |].
  change (String c a ++ b)%string with (String c (a ++ b)%string).
  unfold newline in *. cbn [contains is_prefix] in *.
  apply orb_false_iff in Ha. destruct Ha as [Hc Ha].
  rewrite (IH Ha), orb_false_r.
  destruct (Ascii.eqb _ c); [discriminate Hc | reflexivity].
Qed.

(** The characters of a run date written yyyy-mm-dd: the digits and
    the hyphen.  A word of such characters is one path component and
    holds nothing the shell expands or splits. *)
Definition date_char (c : ascii) : bool :=
  let n := nat_of_ascii c in
  (Nat.leb 48 n && Nat.leb n 57) || Nat.eqb n 45.

Fixpoint date_chars (d : string) : bool :=
  match d with
  | EmptyString => true
  | String c d' => date_char c && date_chars d'
  end.

Lemma date_chars_plain d :
  date_chars d = true -> contains newline d = false.
Proof.
  induction d as [| c d IH]; [reflexivity |].
  cbn [date_chars]. intros H. apply andb_true_iff in H.
  destruct H as [Hc Hd]. unfold newline in *. cbn [contains is_prefix].
  rewrite (IH Hd), orb_false_r, andb_true_r.
  destruct (Ascii.eqb_spec (ascii_of_nat 10) c) as [<- | _];
    [discriminate Hc | reflexivity].
Qed.

(** ** What a redirection leaves *)

Lemma In_names_put_self n x (l : Listing) : In n (map fst (put n x l)).
Proof. apply lookup_In with x. apply lookup_put_same. Qed.

Lemma In_names_put_old n m x (l : Listing) :
  In n (map fst l) -> In n (map fst (put m x l)).
Proof.
  intros H. destruct (lookup m l) eqn:E.
  - rewrite names_put_present by congruence. exact H.
  - rewrite names_put_absent by exact E. apply in_or_app. auto.
Qed.

Lemma In_names_redirect_self n d (l : Listing) :
  In n (map fst (redirect n d l)).
Proof.
  unfold redirect. destruct (lookup n l) as [[? | ?] |] eqn:E;
    try apply In_names_put_self.
  apply lookup_In in E. exact E.
Qed.

Lemma In_names_redirect_old n m d (l : Listing) :
  In n (map fst l) -> In n (map fst (redirect m d l)).
Proof.
  intros H. unfold redirect. destruct (lookup m l) as [[? | ?] |];
    auto using In_names_put_old.
Qed.

(** The directory keeps its entries, and its names stay free of line
    breaks. *)
Definition grows (s s' : St) : Prop :=
  (forall n, In n (map fst (dumps (fs s))) ->
             In n (map fst (dumps (fs s')))) /\
  (plain_names (dumps (fs s)) -> plain_names (dumps (fs s'))).

Lemma grows_refl s : grows s s.
Proof. split; auto. Qed.

Lemma grows_trans a b c : grows a b -> grows b c -> grows a c.
Proof. intros [H1 P1] [H2 P2]. split; auto. Qed.

Lemma grows_emit e : keeps grows (emit e).
Proof. intros s. split; cbn; auto. Qed.

Lemma grows_run_to_file c out name :
  contains newline name = false -> keeps grows (run_to_file c out name).
Proof.
  intros Hn s. split; cbn.
  - intros n. apply In_names_redirect_old.
  - intros Hl n Hin. apply In_names_redirect in Hin.
    destruct Hin as [-> | Hin]; auto.
Qed.

(** ** The dump and the split inside the generation block *)

Section Regenerated.
Variables (w : World) (args : list string).
Hypothesis plain_date : contains newline (yymmdd args) = false.

(** An entry of the directory that belongs to the table [kind]. *)
Definition has_table (kind : string) (l : Listing) : Prop :=
  exists n, In n (map fst l) /\
            is_prefix ("ol_dump_" ++ kind ++ "_") n = true /\
            glob pat_any_dump n = true /\
            (is_prefix (yymm w) (yymmdd args) = true ->
             glob (pat_split w) n = true).

Lemma has_table_grows kind s s' :
  grows s s' -> has_table kind (dumps (fs s)) ->
  has_table kind (dumps (fs s')).
Proof. intros [H _] (n & Hin & Hrest). exists n. auto. Qed.

(** Skipped or not, the stage of a table leaves an entry of the
    table. *)
Lemma table_stage_leaves kind out (l : Listing) :
  plain_names l ->
  has_table kind
    (if test_f l (word_of (compgen_G (pat_table kind (yymm w)) l)) then l
     else redirect (table_file kind (yymmdd args)) out l).
Proof.
  intros Hl.
  destruct (test_f l _) eqn:T.
  - apply test_f_word in T; [| exact Hl |].
    + destruct T as (n & d & G & E).
      assert (Hn : In n (compgen_G (pat_table kind (yymm w)) l))
        by (rewrite G; left; reflexivity).
      apply compgen_In in Hn. destruct Hn as [Hin Hg].
      exists n. split; [exact Hin |]. split.
      * apply (glob_lits_prefix _ _ _ Hg).
      * destruct (table_file_is_dump w kind n Hg). auto.
    + intros n. apply (matches_named ("ol_dump_" ++ kind ++ "_")).
      discriminate.
  - exists (table_file kind (yymmdd args)). split.
    + apply In_names_redirect_self.
    + split; [| split].
      * unfold table_file.
        change ("ol_dump_" ++ kind ++ "_" ++ yymmdd args ++ ".txt.gz")%string
          with ("ol_dump_" ++ (kind ++ "_" ++ yymmdd args ++ ".txt.gz"))%string.
        rewrite <- (append_assoc kind "_").
        change ("ol_dump_" ++ (kind ++ "_") ++ yymmdd args ++ ".txt.gz")%string
          with (("ol_dump_" ++ kind ++ "_") ++ yymmdd args ++ ".txt.gz")%string.
        apply is_prefix_self.
      * apply table_file_matches_dump.
      * intros Hm.
        apply (table_file_is_dump w kind), table_file_matches_month.
        exact Hm.
Qed.

Lemma reading_log_leaves s :
  plain_names (dumps (fs s)) ->
  has_table "reading-log" (dumps (fs (snd (reading_log_stage w args s)))).
Proof.
  intros Hl.
  pose proof (table_stage_leaves "reading-log"
                (psql_reading_log w (yymmdd args)) _ Hl) as H.
  unfold reading_log_stage, matches, is_file, log, run_to_file, bind,
    get_dumps, ret.
  change (pat_reading_log w) with (pat_table "reading-log" (yymm w)).
  destruct (test_f (dumps (fs s)) _); exact H.
Qed.

Lemma ratings_leaves s :
  plain_names (dumps (fs s)) ->
  has_table "ratings" (dumps (fs (snd (ratings_stage w args s)))).
Proof.
  intros Hl.
  pose proof (table_stage_leaves "ratings"
                (psql_ratings w (yymmdd args)) _ Hl) as H.
  unfold ratings_stage, matches, is_file, log, run_to_file, bind,
    get_dumps, ret.
  change (pat_ratings w) with (pat_table "ratings" (yymm w)).
  destruct (test_f (dumps (fs s)) _); exact H.
Qed.

Ltac plain_name :=
  unfold cdump, dump;
  repeat first [ exact plain_date | reflexivity | apply plain_app ].

Ltac grows_walk :=
  repeat (cbv beta;
    match goal with
    | |- keeps _ (emit _) => apply grows_emit
    | |- keeps _ (run_to_file _ _ _) => apply grows_run_to_file; plain_name
    | |- keeps _ (ret _) => apply (keeps_ret _ grows_refl)
    | |- keeps _ get_dumps => apply (keeps_get_dumps _ grows_refl)
    | |- keeps _ (when _ _) => apply (keeps_when _ grows_refl)
    | |- keeps _ (if _ then _ else _) => apply keeps_if
    | |- keeps _ (bind _ _) => apply (keeps_bind _ grows_trans)
    | |- forall _, _ => intro
    end).

Lemma reading_log_grows : keeps grows (reading_log_stage w args).
Proof. unfold reading_log_stage, matches, is_file, log. grows_walk. Qed.

Lemma ratings_grows : keeps grows (ratings_stage w args).
Proof. unfold ratings_stage, matches, is_file, log. grows_walk. Qed.

Lemma raw_extract_grows : keeps grows (raw_extract_stage w).
Proof. unfold raw_extract_stage, matches, is_file, log. grows_walk. Qed.

Lemma cdump_grows : keeps grows (cdump_stage w args).
Proof. unfold cdump_stage, matches, is_file, log. grows_walk. Qed.

Lemma dump_grows : keeps grows (dump_stage w args).
Proof. unfold dump_stage, matches, is_file, log. grows_walk. Qed.

(** Two matches, and the word of the test names no file. *)
Lemma two_matches p (l : Listing) n1 n2 :
  plain_names l -> n1 <> n2 ->
  In n1 (map fst l) -> glob p n1 = true ->
  In n2 (map fst l) -> glob p n2 = true ->
  test_f l (word_of (compgen_G p l)) = false.
Proof.
  intros Hl Hne I1 G1 I2 G2.
  assert (C1 : In n1 (compgen_G p l)) by (apply compgen_In; auto).
  assert (C2 : In n2 (compgen_G p l)) by (apply compgen_In; auto).
  destruct (compgen_G p l) as [| a [| b t]].
  - destruct C1.
  - destruct C1 as [<- | []], C2 as [<- | []]. congruence.
  - unfold test_f. rewrite (lookup_many l a b t Hl).
    destruct (_ =? _)%string; reflexivity.
Qed.

Lemma tables_differ n :
  is_prefix "ol_dump_reading-log_" n = true ->
  is_prefix "ol_dump_ratings_" n = true -> False.
Proof.
  intros H1 H2. apply is_prefix_app in H1. destruct H1 as [r ->].
  discriminate H2.
Qed.

(** The states of the block before the dump and before the split. *)
Definition before_dump (s : St) : St :=
  snd (cdump_stage w args
         (snd (raw_extract_stage w
                 (snd (ratings_stage w args
                         (snd (reading_log_stage w args s))))))).

Lemma before_dump_tables s :
  plain_names (dumps (fs s)) ->
  plain_names (dumps (fs (before_dump s))) /\
  has_table "reading-log" (dumps (fs (before_dump s))) /\
  has_table "ratings" (dumps (fs (before_dump s))).
Proof.
  intros Hl. unfold before_dump.
  set (s1 := snd (reading_log_stage w args s)).
  set (s2 := snd (ratings_stage w args s1)).
  set (s3 := snd (raw_extract_stage w s2)).
  set (s4 := snd (cdump_stage w args s3)).
  pose proof (reading_log_grows s) as G1. fold s1 in G1.
  pose proof (ratings_grows s1) as G2. fold s2 in G2.
  pose proof (raw_extract_grows s2) as G3. fold s3 in G3.
  pose proof (cdump_grows s3) as G4. fold s4 in G4.
  pose proof (reading_log_leaves s Hl) as T1. fold s1 in T1.
  pose proof (ratings_leaves s1 (proj2 G1 Hl)) as T2. fold s2 in T2.
  split; [| split].
  - apply G4, G3, G2, G1, Hl.
  - apply (has_table_grows _ s3 s4 G4), (has_table_grows _ s2 s3 G3),
      (has_table_grows _ s1 s2 G2). exact T1.
  - apply (has_table_grows _ s3 s4 G4), (has_table_grows _ s2 s3 G3).
    exact T2.
Qed.

Lemma dump_stage_runs s :
  plain_names (dumps (fs s)) ->
  has_table "reading-log" (dumps (fs s)) ->
  has_table "ratings" (dumps (fs s)) ->
  commands (trace (snd (dump_stage w args s)))
  = commands (trace s) ++ [OldumpSort; OldumpDump].
Proof.
  intros Hl (n1 & I1 & P1 & G1 & _) (n2 & I2 & P2 & G2 & _).
  assert (Hne : n1 <> n2)
    by (intros ->; exact (tables_differ n2 P1 P2)).
  pose proof (two_matches pat_any_dump _ n1 n2 Hl Hne I1 G1 I2 G2) as T.
  unfold dump_stage, matches, is_file, run_to_file, bind, get_dumps, ret.
  rewrite T. cbn [negb emit set_dumps snd trace].
  rewrite <- !app_assoc, !commands_app. reflexivity.
Qed.

Lemma split_stage_runs s :
  is_prefix (yymm w) (yymmdd args) = true ->
  plain_names (dumps (fs s)) ->
  has_table "reading-log" (dumps (fs s)) ->
  has_table "ratings" (dumps (fs s)) ->
  commands (trace (snd (split_stage w args s)))
  = commands (trace s) ++
    [OldumpSplit ("ol_dump_%s_" ++ yymmdd args ++ ".txt.gz");
     Rm "$TMPDIR/oldumpsort"].
Proof.
  intros Hm Hl (n1 & I1 & P1 & _ & G1) (n2 & I2 & P2 & _ & G2).
  assert (Hne : n1 <> n2)
    by (intros ->; exact (tables_differ n2 P1 P2)).
  pose proof (two_matches (pat_split w) _ n1 n2 Hl Hne I1 (G1 Hm) I2 (G2 Hm))
    as T.
  unfold split_stage, matches, is_file, bind, get_dumps, ret.
  rewrite T.
  cbn [negb emit set_dumps set_oldumpsort snd trace fs dumps].
  rewrite <- !app_assoc, !commands_app. reflexivity.
Qed.

End Regenerated.

Lemma then_five {A} (m1 m2 m3 m4 m5 : M unit) (k : M A) s :
  (m1 ;;; m2 ;;; m3 ;;; m4 ;;; m5 ;;; k) s =
  k (snd (m5 (snd (m4 (snd (m3 (snd (m2 (snd (m1 s)))))))))).
Proof. rewrite !seq_run. reflexivity. Qed.

Section Entered.
Variables (w : World) (args : list string).

Definition after_dump (s : St) : St :=
  snd (dump_stage w args (before_dump w args s)).

(** The generation block, once entered, around its dump stage. *)
Lemma block_around_dump s :
  test_d (dumps (fs s)) (word_of (compgen_G (pat_done w) (dumps (fs s))))
    = false ->
  snd (generate w args s) =
  snd (log "dumps are generated at $PWD"
         (snd (collect args (snd (split_stage w args (after_dump s)))))).
Proof.
  intros H. rewrite generate_test, H. cbn [negb].
  rewrite (then_five (reading_log_stage w args) (ratings_stage w args)
             (raw_extract_stage w) (cdump_stage w args) (dump_stage w args)).
  rewrite !seq_run. reflexivity.
Qed.

Lemma commands_kept (Q : Event -> Prop) s s' c :
  adds Q s s' -> In c (commands (trace s)) -> In c (commands (trace s')).
Proof.
  intros (evs & -> & _) H. rewrite commands_app. apply in_or_app. auto.
Qed.

End Entered.

(** A dump directory that already holds the dump of 2024-05-10. *)
Definition dumped_fs : FS :=
  mkFS None [("ol_dump_2024-05-10.txt.gz", File "the dump of the 10th")]
    false false.

(** X17.  Lines 118-168: for a run date of digits and hyphens, as
    yyyy-mm-dd is, the sort and the dump run whenever the generation
    block is entered.  The test of line 161 looks for one file named
    [ol_dump_*.txt.gz], and by then the directory holds an entry of the
    reading log and one of the ratings, which both match: the word of
    the test names no file, whatever dump is already there. *)
Theorem dump_is_regenerated_in_every_block
  (w : World) (args : list string) (f : FS) (r : Remote) :
  plain_names (dumps f) ->
  date_chars (yymmdd args) = true ->
  test_d (dumps f) (word_of (compgen_G (pat_done w) (dumps f))) = false ->
  let cmds := commands (trace (snd (generate w args (start f r)))) in
  In OldumpSort cmds /\ In OldumpDump cmds.
Proof.
  intros Hl Hc Ht cmds. unfold cmds.
  pose proof (date_chars_plain _ Hc) as Hd.
  rewrite (block_around_dump w args (start f r) Ht).
  destruct (before_dump_tables w args Hd (start f r) Hl) as (P & T1 & T2).
  pose proof (dump_stage_runs w args (before_dump w args (start f r))
                P T1 T2) as E.
  fold (after_dump w args (start f r)) in E.
  split;
    (eapply commands_kept; [apply log_no_copy |];
     eapply commands_kept; [apply collect_no_copy |];
     eapply commands_kept; [apply (split_no_copy w args) |];
     rewrite E; apply in_or_app; right; simpl; auto).
Qed.

Lemma dump_is_regenerated_in_every_block_witness :
  plain_names (dumps dumped_fs) /\
  In OldumpDump
     (commands (trace (snd (generate (sample_world "") ["2024-05-10"]
                              (start dumped_fs []))))).
Proof.
  assert (H : plain_names (dumps dumped_fs)).
  { intros n [<- | []]. reflexivity. }
  split; [exact H |].
  apply (dump_is_regenerated_in_every_block (sample_world "")
           ["2024-05-10"] dumped_fs [] H eq_refl eq_refl).
Defined.

(** X18.  Lines 118-179: in a run for a day of the current month, its
    date written with digits and hyphens, the split runs as well
    whenever the block is entered.  The test of line 171 looks for one
    file named [ol_dump_*_<year-month>*.txt.gz], which the entries of
    the reading log and of the ratings both match. *)
Theorem split_runs_in_every_block_of_the_month
  (w : World) (args : list string) (f : FS) (r : Remote) :
  plain_names (dumps f) ->
  date_chars (yymmdd args) = true ->
  is_prefix (yymm w) (yymmdd args) = true ->
  test_d (dumps f) (word_of (compgen_G (pat_done w) (dumps f))) = false ->
  In (OldumpSplit ("ol_dump_%s_" ++ yymmdd args ++ ".txt.gz"))
     (commands (trace (snd (generate w args (start f r))))).
Proof.
  intros Hl Hc Hm Ht.
  pose proof (date_chars_plain _ Hc) as Hd.
  rewrite (block_around_dump w args (start f r) Ht).
  destruct (before_dump_tables w args Hd (start f r) Hl) as (P & T1 & T2).
  pose proof (dump_grows w args Hd (before_dump w args (start f r))) as G.
  fold (after_dump w args (start f r)) in G.
  pose proof (split_stage_runs w args (after_dump w args (start f r)) Hm
                (proj2 G P)
                (has_table_grows w args _ _ _ G T1)
                (has_table_grows w args _ _ _ G T2)) as E.
  eapply commands_kept; [apply (log_no_copy) |].
  eapply commands_kept; [apply (collect_no_copy) |].
  rewrite E. apply in_or_app. right. left. reflexivity.
Qed.

Lemma split_runs_in_every_block_of_the_month_witness :
  plain_names (dumps dumped_fs) /\
  In (OldumpSplit "ol_dump_%s_2024-05-10.txt.gz")
     (commands (trace (snd (generate (sample_world "") ["2024-05-10"]
                              (start dumped_fs []))))).
Proof.
  assert (H : plain_names (dumps dumped_fs)).
  { intros n [<- | []]. reflexivity. }
  split; [exact H |].
  apply (split_runs_in_every_block_of_the_month (sample_world "")
           ["2024-05-10"] dumped_fs [] H eq_refl eq_refl eq_refl).
Defined.

End ShMore.

(* ================================================================== *)
(** * The entry point: how far its statements would get *)
(* ================================================================== *)

Module PyMore.
Import Py PyFacts.
Local Open Scope list_scope.

(** The banner of line 288. *)
Definition banner : Effect := Printed "oldump.py: Python".

(** What a trial call prints for a command line that parses. *)
Definition trial_output (host : Host) (a : list string) (ns : Namespace)
  : Effect :=
  Printed (command_line a ++ show host ns).

Definition is_print (e : Effect) : Prop := exists text, e = Printed text.

(** What the parser writes when it turns a command line down. *)
Definition parser_says (host : Host) (a : list string) : Effect :=
  Printed (parser_output host a).

Lemma trial_fails host a e :
  argparse host a = inl e -> trial host a = (inl e, [parser_says host a]).
Proof. intros H. unfold trial, parse_args. rewrite H. reflexivity. Qed.

Lemma trial_prints host a ns :
  argparse host a = inr ns ->
  trial host a = (inr tt, [trial_output host a ns]).
Proof. intros H. unfold trial, parse_args. rewrite H. reflexivity. Qed.

Lemma seq_value {B} (out : list Effect) (k : Res B) :
  bind (@inr Exn unit tt, out) (fun _ : unit => k) = (fst k, out ++ snd k).
Proof. destruct k as [r out']. reflexivity. Qed.

Section Block.
Variables (host : Host) (argv : list string).

Let a1 := argv ++ ["1970-02-13"]%string.
Let a2 := argv ++ ["1970-02-13"; "--archive"; "--use-existing"]%string.
Let a3 := argv ++ ["--help"]%string.

(** The block as the outcome of its four trial parses. *)
Lemma main_block_outcome :
  main_block host argv =
  match argparse host a1 with
  | inl e => (inl e, [banner; parser_says host a1])
  | inr n1 =>
    match argparse host a2 with
    | inl e => (inl e, [banner; trial_output host a1 n1;
                        parser_says host a2])
    | inr n2 =>
      match argparse host a3 with
      | inl e => (inl e, [banner; trial_output host a1 n1;
                          trial_output host a2 n2; parser_says host a3])
      | inr n3 =>
        match argparse host argv with
        | inl e => (inl e, [banner; trial_output host a1 n1;
                            trial_output host a2 n2;
                            trial_output host a3 n3; parser_says host argv])
        | inr n4 => (inl (NameError "os"),
                     [banner; trial_output host a1 n1;
                      trial_output host a2 n2; trial_output host a3 n3;
                      trial_output host argv n4])
        end
      end
    end
  end.
Proof.
  unfold main_block. fold a1 a2 a3. rewrite os_unbound.
  change (effect (Printed "oldump.py: Python"))
    with (@inr Exn unit tt, [banner]).
  rewrite seq_value.
  destruct (argparse host a1) as [e | n1] eqn:E1.
  { rewrite (trial_fails host a1 e E1). reflexivity. }
  rewrite (trial_prints host a1 n1 E1), seq_value.
  destruct (argparse host a2) as [e | n2] eqn:E2.
  { rewrite (trial_fails host a2 e E2). reflexivity. }
  rewrite (trial_prints host a2 n2 E2), seq_value.
  destruct (argparse host a3) as [e | n3] eqn:E3.
  { rewrite (trial_fails host a3 e E3). reflexivity. }
  rewrite (trial_prints host a3 n3 E3), seq_value.
  destruct (argparse host argv) as [e | n4] eqn:E4.
  { rewrite (trial_fails host argv e E4). reflexivity. }
  rewrite (trial_prints host argv n4 E4), seq_value.
  reflexivity.
Qed.

End Block.

(** X14.  Lines 287-312: on every host and command line the block under
    [__main__] does nothing but write to the terminal, five texts at
    most (the banner, the output of its trial parses and what the
    parser writes when it turns a command line down), and then ends in
    an exception: the one [argparse] raised in a trial, or [NameError]
    for [os] on line 304.  The configuration is never loaded, Sentry
    never started and [main] never called. *)
Theorem main_block_prints_then_fails (host : Host) (argv : list string) :
  Forall is_print (snd (main_block host argv)) /\
  List.length (snd (main_block host argv)) <= 5 /\
  (fst (main_block host argv) = inl (NameError "os") \/
   exists a e, argparse host a = inl e /\
               fst (main_block host argv) = inl e).
Proof.
  rewrite main_block_outcome.
  destruct (argparse host (argv ++ ["1970-02-13"]%string))
    as [e1 | n1] eqn:E1.
  { split; [| split; [simpl; lia | right; eauto]].
    repeat constructor; eexists; reflexivity. }
  destruct (argparse host (argv ++ ["1970-02-13"; "--archive";
                                    "--use-existing"]%string))
    as [e2 | n2] eqn:E2.
  { split; [| split; [simpl; lia | right; eauto]].
    repeat constructor; eexists; reflexivity. }
  destruct (argparse host (argv ++ ["--help"]%string)) as [e3 | n3] eqn:E3.
  { split; [| split; [simpl; lia | right; eauto]].
    repeat constructor; eexists; reflexivity. }
  destruct (argparse host argv) as [e4 | n4] eqn:E4.
  { split; [| split; [simpl; lia | right; eauto]].
    repeat constructor; eexists; reflexivity. }
  split; [| split; [simpl; lia | left; reflexivity]].
  repeat constructor; eexists; reflexivity.
Qed.

(** X15.  Lines 291-296: when the parser ends the run on [--help], as
    line 241 says it does, and the two trial command lines before it
    parse, the block ends there, with the parser's exception and exit
    status.  What has been written by then is the banner, the two trial
    outputs and the help text of the parser: the command line of the
    caller (line 297) is not parsed on its own. *)
Theorem help_trial_ends_the_block
  (host : Host) (argv : list string) (n1 n2 : Namespace) (code : Z) :
  argparse host (argv ++ ["1970-02-13"]%string) = inr n1 ->
  argparse host (argv ++ ["1970-02-13"; "--archive"; "--use-existing"]%string)
    = inr n2 ->
  argparse host (argv ++ ["--help"]%string) = inl (SystemExit code) ->
  main_block host argv =
    (inl (SystemExit code),
     [banner;
      trial_output host (argv ++ ["1970-02-13"]%string) n1;
      trial_output host
        (argv ++ ["1970-02-13"; "--archive"; "--use-existing"]%string) n2;
      Printed (parser_output host (argv ++ ["--help"]%string))])
  /\ exit_status (main_block host argv) = code.
Proof.
  intros E1 E2 E3. rewrite main_block_outcome, E1, E2, E3.
  split; reflexivity.
Qed.

Lemma help_trial_ends_the_block_witness :
  argparse laptop ([] ++ ["--help"]%string) = inl (SystemExit 0) /\
  parser_output laptop ([] ++ ["--help"]%string) = help_text /\
  exit_status (main_block laptop []) = 0%Z.
Proof.
  split; [reflexivity |]. split; [reflexivity |].
  apply (help_trial_ends_the_block laptop []
           (mkNamespace "1970-02-13" false false)
           (mkNamespace "1970-02-13" true true) 0
           eq_refl eq_refl eq_refl).
Defined.

End PyMore.
